(** * ts-rest-handler-line-annotation: the contract parser and the AST parser

    A shallow embedding of [src/contract-parser.ts] (class [ContractParser])
    and of the decorator extraction of [ast-parser.ts] (class [AstParser]),
    with the properties of the route resolution pipeline proved about it.

    Conventions of the embedding.
    - JavaScript values are the inductive type [value]; the objects the
      parser builds are finite trees that are never mutated once built, so a
      value stands for the object it denotes.
    - Text is [string] (one byte per character); the case conversions are
      the ASCII ones.
    - A caught [TypeError] is the [Thrown] result of the [result] monad.
    - The TypeScript syntax tree is the inductive type [expr] (and the
      statement and decorator types further down), restricted to the node
      kinds the parser tells apart; every other kind is an [EOther] node. *)

From Stdlib Require Import List String Ascii Bool Arith NArith Lia DecimalString.
From Stdlib Require Import Permutation.
From Stdlib Require Import PrimFloat.
Import ListNotations.
Open Scope string_scope.
Open Scope bool_scope.
Open Scope list_scope.

Set Warnings "-register-all".

Set Implicit Arguments.

(* ------------------------------------------------------------------ *)
(** ** Strings *)

Module Str.

Definition is_lower (c : ascii) : bool :=
  (97 <=? nat_of_ascii c)%nat && (nat_of_ascii c <=? 122)%nat.

Definition is_upper (c : ascii) : bool :=
  (65 <=? nat_of_ascii c)%nat && (nat_of_ascii c <=? 90)%nat.

Definition upper_ascii (c : ascii) : ascii :=
  if is_lower c then ascii_of_nat (nat_of_ascii c - 32) else c.

Definition lower_ascii (c : ascii) : ascii :=
  if is_upper c then ascii_of_nat (nat_of_ascii c + 32) else c.

(** Text of ASCII characters only. *)
Fixpoint ascii_only (s : string) : bool :=
  match s with
  | EmptyString => true
  | String c r => (nat_of_ascii c <? 128)%nat && ascii_only r
  end.

(** [String.prototype.toUpperCase] and [toLowerCase] on text of ASCII
    characters ([ascii_only]), where the language maps the letters [a] to
    [z], respectively [A] to [Z], and nothing else.  On the other bytes the
    two maps below are the identity, which the language's conversions are
    not; a statement that speaks of the converted text of an arbitrary
    string therefore carries [ascii_only] as a hypothesis. *)
Fixpoint toUpperCase (s : string) : string :=
  match s with
  | EmptyString => EmptyString
  | String c r => String (upper_ascii c) (toUpperCase r)
  end.

Fixpoint toLowerCase (s : string) : string :=
  match s with
  | EmptyString => EmptyString
  | String c r => String (lower_ascii c) (toLowerCase r)
  end.

(** [s.startsWith(p)]. *)
Fixpoint startsWith (s p : string) {struct p} : bool :=
  match p, s with
  | EmptyString, _ => true
  | String a p', String b s' => Ascii.eqb a b && startsWith s' p'
  | String _ _, EmptyString => false
  end.

(** [s.endsWith("/")]: the last character of [s] is [c]. *)
Fixpoint endsWithChar (s : string) (c : ascii) : bool :=
  match s with
  | EmptyString => false
  | String a EmptyString => Ascii.eqb a c
  | String _ r => endsWithChar r c
  end.

(** [s.slice(0, -1)]: [s] without its last character. *)
Fixpoint dropLast (s : string) : string :=
  match s with
  | EmptyString => EmptyString
  | String _ EmptyString => EmptyString
  | String a r => String a (dropLast r)
  end.

Definition isEmpty (s : string) : bool :=
  match s with EmptyString => true | _ => false end.

Definition is_digit (c : ascii) : bool :=
  (48 <=? nat_of_ascii c)%nat && (nat_of_ascii c <=? 57)%nat.

Fixpoint all_digits (s : string) : bool :=
  match s with
  | EmptyString => true
  | String c r => is_digit c && all_digits r
  end.

Fixpoint digits_value (acc : N) (s : string) : N :=
  match s with
  | EmptyString => acc
  | String c r => digits_value (acc * 10 + N.of_nat (nat_of_ascii c - 48)) r
  end.

(** The single characters of a string, as the indexed properties
    ["0"], ["1"], ... a string exposes to [Object.assign]. *)
Fixpoint chars (s : string) : list string :=
  match s with
  | EmptyString => []
  | String c r => String c EmptyString :: chars r
  end.

End Str.

(** An array index in the sense of the language: the canonical decimal
    spelling of an integer between 0 and 2^32 - 2.  Own properties with such
    keys are enumerated first, in increasing numeric order. *)
Definition array_index (k : string) : option N :=
  match k with
  | EmptyString => None
  | String c r =>
      if Str.all_digits k
         && (negb (Ascii.eqb c "0"%char) || Str.isEmpty r)
         && (String.length k <=? 10)%nat
      then let n := Str.digits_value 0 k in
           if (n <=? 4294967294)%N then Some n else None
      else None
  end.

(* ------------------------------------------------------------------ *)
(** ** JavaScript values *)

Inductive value : Type :=
| VUndefined
| VNull
| VBool (b : bool)
| VNum (n : float)
| VStr (s : string)
| VBuiltin (name : string)
    (* a function object inherited from [Object.prototype] *)
| VObjectPrototype
    (* [Object.prototype] itself *)
| VObj (proto : value) (props : list (string * value))
    (* an ordinary object: its prototype and its own properties in
       enumeration order *).

Definition props := list (string * value).

(** The object literal [{}]. *)
Definition empty_object : value := VObj VObjectPrototype [].

(** ToBoolean. *)
Definition truthy (v : value) : bool :=
  match v with
  | VUndefined | VNull => false
  | VBool b => b
  | VNum n => negb (PrimFloat.eqb n 0%float) && negb (PrimFloat.is_nan n)
  | VStr s => negb (Str.isEmpty s)
  | VBuiltin _ | VObjectPrototype | VObj _ _ => true
  end.

(** [typeof v === 'object'] (true of [null]). *)
Definition typeof_object (v : value) : bool :=
  match v with
  | VNull | VObjectPrototype | VObj _ _ => true
  | _ => false
  end.

(** [a || b]. *)
Definition jor (a b : value) : value := if truthy a then a else b.

(** [v] is an Object or [null]: what the [__proto__] setter accepts. *)
Definition object_or_null (v : value) : bool :=
  match v with
  | VNull | VBuiltin _ | VObjectPrototype | VObj _ _ => true
  | _ => false
  end.

(** The data properties of [Object.prototype] (all of them functions). *)
Definition object_prototype_functions : list string :=
  [ "constructor"; "hasOwnProperty"; "isPrototypeOf"; "propertyIsEnumerable";
    "toLocaleString"; "toString"; "valueOf";
    "__defineGetter__"; "__defineSetter__";
    "__lookupGetter__"; "__lookupSetter__" ].

Fixpoint mem_string (k : string) (l : list string) : bool :=
  match l with
  | [] => false
  | x :: r => String.eqb k x || mem_string k r
  end.

Fixpoint own_lookup (k : string) (ps : props) : option value :=
  match ps with
  | [] => None
  | (k', v) :: r => if String.eqb k k' then Some v else own_lookup k r
  end.

(** What a property lookup along the prototype chain finds. *)
Inductive found : Type :=
| Data (v : value)      (* a data property, own or inherited *)
| ProtoAccessor         (* the [__proto__] accessor of [Object.prototype] *)
| Absent.

Fixpoint lookup_chain (o : value) (k : string) : found :=
  match o with
  | VObj proto ps =>
      match own_lookup k ps with
      | Some v => Data v
      | None => lookup_chain proto k
      end
  | VObjectPrototype =>
      if mem_string k object_prototype_functions then Data (VBuiltin k)
      else if String.eqb k "__proto__" then ProtoAccessor
      else Absent
  | _ => Absent
  end.

Definition prototype_of (o : value) : value :=
  match o with
  | VObj proto _ => proto
  | VObjectPrototype => VNull
  | _ => VUndefined
  end.

(** [o[k]], for [o] an object.  On a primitive the parser only ever reads
    the key [pathPrefix], which no primitive wrapper has: [undefined]. *)
Definition get (o : value) (k : string) : value :=
  match lookup_chain o k with
  | Data v => v
  | ProtoAccessor => prototype_of o
  | Absent => VUndefined
  end.

(** [k in o]. *)
Definition has_property (o : value) (k : string) : bool :=
  match lookup_chain o k with
  | Absent => false
  | _ => true
  end.

Fixpoint replace_own (k : string) (v : value) (ps : props) : props :=
  match ps with
  | [] => []
  | (k', v') :: r =>
      if String.eqb k k' then (k', v) :: r else (k', v') :: replace_own k v r
  end.

(** A new own property with an array-index key goes before the first own
    property that is not an array index or has a larger index. *)
Fixpoint insert_index (i : N) (k : string) (v : value) (ps : props) : props :=
  match ps with
  | [] => [(k, v)]
  | (k', v') :: r =>
      match array_index k' with
      | Some j => if (j <? i)%N then (k', v') :: insert_index i k v r
                  else (k, v) :: ps
      | None => (k, v) :: ps
      end
  end.

Definition add_own (k : string) (v : value) (ps : props) : props :=
  match array_index k with
  | Some i => insert_index i k v ps
  | None => ps ++ [(k, v)]
  end.

(** [o[k] = v] for an ordinary object [o]: an own property is overwritten;
    otherwise the [__proto__] accessor, when the chain reaches it, sets the
    prototype (and ignores a value that is neither an object nor [null]);
    otherwise a new own property is created. *)
Definition set (o : value) (k : string) (v : value) : value :=
  match o with
  | VObj proto ps =>
      match own_lookup k ps with
      | Some _ => VObj proto (replace_own k v ps)
      | None =>
          match lookup_chain proto k with
          | ProtoAccessor => if object_or_null v then VObj v ps else o
          | _ => VObj proto (add_own k v ps)
          end
      end
  | _ => o
  end.

(** [Object.entries(o)]. *)
Definition entries (o : value) : props :=
  match o with
  | VObj _ ps => ps
  | _ => []
  end.

(** The own enumerable properties [Object.assign] copies from a source:
    those of an object, the indexed characters of a string, none of any
    other primitive. *)
Fixpoint indexed (i : N) (l : list string) : props :=
  match l with
  | [] => []
  | c :: r => (NilEmpty.string_of_uint (N.to_uint i), VStr c) :: indexed (N.succ i) r
  end.

Definition assign_source (src : value) : props :=
  match src with
  | VObj _ ps => ps
  | VStr s => indexed 0 (Str.chars s)
  | _ => []
  end.

(** [Object.assign(target, src)]. *)
Definition assign (target src : value) : value :=
  fold_left (fun t kv => set t (fst kv) (snd kv)) (assign_source src) target.

(* ------------------------------------------------------------------ *)
(** ** Results of code that may throw *)

Inductive result (A : Type) : Type :=
| Ok (a : A)
| Thrown.
Arguments Thrown {A}.

Definition bind {A B : Type} (r : result A) (k : A -> result B) : result B :=
  match r with
  | Ok a => k a
  | Thrown => Thrown
  end.

Notation "x <- r ;; k" := (bind r (fun x => k))
  (at level 61, r at next level, right associativity).

(** [try { ... } catch { return null }]. *)
Definition catch_null {A : Type} (r : result (option A)) : option A :=
  match r with
  | Ok o => o
  | Thrown => None
  end.

(* ------------------------------------------------------------------ *)
(** ** The syntax tree of a contract file *)

Inductive property_name : Type :=
| PNIdentifier (text : string)
| PNStringLiteral (text : string)
| PNComputed
| PNOther (* numeric literal, private name, ... *).

Inductive expr : Type :=
| EObjectLiteral (properties : list property)
| EStringLiteral (text : string)
| ENumericLiteral (n : float)    (* [parseFloat(node.text)] *)
| ETrue
| EFalse
| ECall (expression : expr) (arguments : list expr)
| EPropertyAccess (expression : expr) (name : string)
| EIdentifier (text : string)
| EOther                         (* any other expression kind *)
with property : Type :=
| PPropertyAssignment (name : property_name) (initializer : expr)
| PMethodDeclaration (name : property_name)
| POther (* shorthand, spread, accessor *).

Module ContractParser.

(** *** The object-literal evaluator *)

Definition getPropertyName (name : property_name) : option string :=
  match name with
  | PNIdentifier text => Some text
  | PNStringLiteral text => Some text
  | PNComputed => None
  | PNOther => None
  end.

(** [if (key)] on the result of [getPropertyName]. *)
Definition usable_key (key : option string) : option string :=
  match key with
  | Some k => if Str.isEmpty k then None else Some k
  | None => None
  end.

Definition isRouterCall (expression : expr) : bool :=
  match expression with
  | EPropertyAccess _ name => String.eqb name "router"
  | _ => false
  end.

Definition httpMethods : list string :=
  ["get"; "post"; "put"; "patch"; "delete"; "head"; "options"].

Definition isTsRestMethodCall (expression : expr) : bool :=
  match expression with
  | EPropertyAccess _ methodName =>
      mem_string (Str.toLowerCase methodName) httpMethods
  | _ => false
  end.

Section Calls.

(** The evaluator the two call handlers recurse into. *)
Variable extractObjectLiteral : expr -> value.

Definition extractRouterCall (arguments : list expr) : value :=
  let router := VObj VObjectPrototype [("__router", VBool true)] in
  let router :=
    match arguments with
    | a0 :: _ =>
        let routesObj := extractObjectLiteral a0 in
        if truthy routesObj then assign router routesObj else router
    | [] => router
    end in
  match arguments with
  | _ :: a1 :: _ =>
      let options := extractObjectLiteral a1 in
      if truthy options then set router "__options" options else router
  | _ => router
  end.

Definition extractTsRestMethodCall (expression : expr)
           (arguments : list expr) : value :=
  match expression with
  | EPropertyAccess _ name =>
      let methodName := Str.toUpperCase name in
      let route := VObj VObjectPrototype
                        [("method", VStr methodName);
                         ("__method", VStr methodName);
                         ("__call", VBool true)] in
      let route :=
        match arguments with
        | EStringLiteral text :: _ =>
            set (set route "path" (VStr text)) "__path" (VStr text)
        | _ => route
        end in
      match arguments with
      | _ :: a1 :: _ =>
          let optionsArg := extractObjectLiteral a1 in
          if truthy optionsArg then assign route optionsArg else route
      | _ => route
      end
  | _ => VNull
  end.

End Calls.

(** The value a method-shorthand property is recorded as. *)
Definition method_marker : value :=
  VObj VObjectPrototype [("__method", VBool true)].

Fixpoint extractObjectLiteral (node : expr) : value :=
  match node with
  | EObjectLiteral properties =>
      (fix each (ps : list property) (obj : value) : value :=
         match ps with
         | [] => obj
         | PPropertyAssignment name initializer :: r =>
             each r
               match usable_key (getPropertyName name) with
               | Some key => set obj key (extractObjectLiteral initializer)
               | None => obj
               end
         | PMethodDeclaration name :: r =>
             each r
               match usable_key (getPropertyName name) with
               | Some key => set obj key method_marker
               | None => obj
               end
         | POther :: r => each r obj
         end) properties empty_object
  | EStringLiteral text => VStr text
  | ENumericLiteral n => VNum n
  | ETrue => VBool true
  | EFalse => VBool false
  | ECall expression arguments =>
      if isRouterCall expression
      then extractRouterCall extractObjectLiteral arguments
      else if isTsRestMethodCall expression
      then extractTsRestMethodCall extractObjectLiteral expression arguments
      else VNull
  | _ => VNull
  end.

(** *** The export table

    [Map<string, any>]: keys in insertion order; [set] on a key already
    present keeps its position. *)

Definition table := list (string * value).

(** [exports.get(k)]. *)
Definition map_get (k : string) (exports : table) : value :=
  match own_lookup k exports with
  | Some v => v
  | None => VUndefined
  end.

(** [exports.set(k, v)]. *)
Definition map_set (k : string) (v : value) (exports : table) : table :=
  match own_lookup k exports with
  | Some _ => replace_own k v exports
  | None => exports ++ [(k, v)]
  end.

Inductive modifier : Type :=
| ExportKeyword
| OtherModifier (* [declare], [default], a decorator... *).

Inductive binding_name : Type :=
| BIdentifier (text : string)
| BPattern (* a destructuring pattern *).

Record declaration : Type := {
  name : binding_name;
  initializer : option expr
}.

(** The nodes of a source file the export visitor tells apart; [children]
    are the nodes [ts.forEachChild] reaches below a node, in order. *)
Inductive node : Type :=
| NVariableStatement (modifiers : list modifier)
                     (declarations : list declaration)
                     (children : list node)
| NExportAssignment (expression : expr) (children : list node)
| NOther (children : list node).

Definition processVariableStatement (modifiers : list modifier)
           (declarations : list declaration) (exports : table) : table :=
  let isExported :=
    existsb (fun m => match m with ExportKeyword => true | _ => false end)
            modifiers in
  fold_left
    (fun exports declaration =>
       match name declaration, initializer declaration with
       | BIdentifier name, Some init =>
           let value := extractObjectLiteral init in
           if truthy value then
             let exports := map_set name value exports in
             if isExported && (List.length declarations =? 1)%nat
             then map_set "default" value exports
             else exports
           else exports
       | _, _ => exports
       end)
    declarations exports.

Definition processExportAssignment (expression : expr) (exports : table)
  : table :=
  let value := extractObjectLiteral expression in
  if truthy value then map_set "default" value exports else exports.

Fixpoint visitor (n : node) (exports : table) : table :=
  let each :=
    fix each (ns : list node) (exports : table) : table :=
      match ns with
      | [] => exports
      | c :: r => each r (visitor c exports)
      end in
  match n with
  | NVariableStatement modifiers declarations children =>
      each children (processVariableStatement modifiers declarations exports)
  | NExportAssignment expression children =>
      each children (processExportAssignment expression exports)
  | NOther children => each children exports
  end.

(** [sourceFile] is the root node of the parsed file. *)
Definition extractExports (sourceFile : node) : table :=
  visitor sourceFile [].

(** *** The route resolver *)

Module ContractDefinition.
Record t : Type := {
  method : value;
  path : value;
  summary : value;
  description : value;
  responses : value;
  body : value;
  query : value;
  params : value
}.
End ContractDefinition.

Module RouteInfo.
Record t : Type := {
  method : value;
  path : value;
  summary : value;
  fullPath : value
}.
End RouteInfo.

Record ImportInfo : Type := {
  exportName : option string;
  isDefaultImport : bool
}.

Definition is_null (v : value) : bool :=
  match v with VNull => true | _ => false end.

Definition findRouteInContract (contractObj : value)
           (propertyPath : list string) : value :=
  if negb (truthy contractObj) || negb (typeof_object contractObj)
     || (List.length propertyPath =? 0)%nat
  then VNull
  else
    match propertyPath with
    | [] => VNull
    | routeName :: _ =>
        if truthy (get contractObj routeName)
        then get contractObj routeName
        else if truthy (get contractObj "__router")
                && truthy (get contractObj routeName)
        then get contractObj routeName
        else
          (fix scan (es : props) : value :=
             match es with
             | [] => VNull
             | (key, value) :: r =>
                 if typeof_object value && negb (is_null value)
                    && negb (Str.startsWith key "__")
                 then if truthy (get value routeName)
                      then get value routeName
                      else scan r
                 else scan r
             end) (entries contractObj)
    end.

Definition findContractByPath (exports : table)
           (propertyPath : list string) : value :=
  match propertyPath with
  | [] => VNull
  | firstPart :: restPath =>
      let current := jor (map_get firstPart exports)
                         (map_get "default" exports) in
      if negb (truthy current) then VNull
      else
        (fix navigate (parts : list string) (current : value) : value :=
           match parts with
           | [] => current
           | part :: r =>
               if typeof_object current && negb (is_null current)
                  && has_property current part
               then navigate r (get current part)
               else VNull
           end) restPath current
  end.

(** [method.toUpperCase()]: a [TypeError] unless [method] is a string. *)
Definition call_toUpperCase (method : value) : result value :=
  match method with
  | VStr s => Ok (VStr (Str.toUpperCase s))
  | _ => Thrown
  end.

Definition extractFromTsRestRoute (contractObj : value)
  : result (option ContractDefinition.t) :=
  let method := jor (jor (get contractObj "method")
                         (get contractObj "__method")) (VStr "GET") in
  let path := jor (jor (get contractObj "path")
                       (get contractObj "__path")) (VStr "/") in
  upper <- call_toUpperCase method ;;
  Ok (Some {|
    ContractDefinition.method := upper;
    ContractDefinition.path := path;
    ContractDefinition.summary :=
      jor (get contractObj "summary") (get contractObj "__summary");
    ContractDefinition.description :=
      jor (get contractObj "description") (get contractObj "__description");
    ContractDefinition.responses :=
      jor (get contractObj "responses") (get contractObj "__responses");
    ContractDefinition.body :=
      jor (get contractObj "body") (get contractObj "__body");
    ContractDefinition.query :=
      jor (get contractObj "query") (get contractObj "__query");
    ContractDefinition.params :=
      jor (get contractObj "params") (get contractObj "__params")
  |}).

(** [contractObj.__type === 'route']. *)
Definition is_route_type (v : value) : bool :=
  match v with
  | VStr s => String.eqb s "route"
  | _ => false
  end.

(** The nesting depth of a value bounds the recursion of
    [extractRouteDefinition] through [route] fields. *)
Fixpoint depth (v : value) : nat :=
  match v with
  | VObj proto ps =>
      S (Nat.max (depth proto)
           ((fix over (ps : props) : nat :=
               match ps with
               | [] => 0
               | (_, x) :: r => Nat.max (depth x) (over r)
               end) ps))
  | _ => 0
  end.

(** The record returned for a direct route definition (an object with a
    [method] or a [path]). *)
Definition directDefinition (contractObj : value) : ContractDefinition.t :=
  {| ContractDefinition.method := get contractObj "method";
     ContractDefinition.path := get contractObj "path";
     ContractDefinition.summary := get contractObj "summary";
     ContractDefinition.description := get contractObj "description";
     ContractDefinition.responses := get contractObj "responses";
     ContractDefinition.body := get contractObj "body";
     ContractDefinition.query := get contractObj "query";
     ContractDefinition.params := get contractObj "params" |}.

(** The record returned for an object with a [__method] or a [__path]. *)
Definition taggedDefinition (contractObj : value) : ContractDefinition.t :=
  {| ContractDefinition.method := get contractObj "__method";
     ContractDefinition.path := get contractObj "__path";
     ContractDefinition.summary :=
       jor (get contractObj "__summary") (get contractObj "summary");
     ContractDefinition.description :=
       jor (get contractObj "__description") (get contractObj "description");
     ContractDefinition.responses :=
       jor (get contractObj "__responses") (get contractObj "responses");
     ContractDefinition.body :=
       jor (get contractObj "__body") (get contractObj "body");
     ContractDefinition.query :=
       jor (get contractObj "__query") (get contractObj "query");
     ContractDefinition.params :=
       jor (get contractObj "__params") (get contractObj "params") |}.

(** [extractRouteDefinition], its recursion through [route] fields counted
    down by [fuel]; [extractRouteDefinition] below starts it with the depth
    of its argument, which is always enough. *)
Fixpoint extractRouteDefinition_rec (fuel : nat) (contractObj : value)
  : result (option ContractDefinition.t) :=
  if negb (truthy contractObj) || negb (typeof_object contractObj)
  then Ok None
  else if truthy (jor (get contractObj "method") (get contractObj "path"))
  then Ok (Some (directDefinition contractObj))
  else if truthy (get contractObj "__call")
          || is_route_type (get contractObj "__type")
  then extractFromTsRestRoute contractObj
  else if truthy (get contractObj "route")
  then match fuel with
       | O => Thrown
       | S fuel => extractRouteDefinition_rec fuel (get contractObj "route")
       end
  else if truthy (jor (get contractObj "__method") (get contractObj "__path"))
  then Ok (Some (taggedDefinition contractObj))
  else Ok None.

Definition extractRouteDefinition (contractObj : value)
  : result (option ContractDefinition.t) :=
  extractRouteDefinition_rec (depth contractObj) contractObj.

(** [v.__router && v.__options && v.__options.pathPrefix]. *)
Definition router_pathPrefix (v : value) : value :=
  if truthy (get v "__router") then
    if truthy (get v "__options")
    then get (get v "__options") "pathPrefix"
    else get v "__options"
  else get v "__router".

Definition findPathPrefix (exports : table) (propertyPath : list string)
  : value :=
  if (List.length propertyPath =? 0)%nat then VStr ""
  else
    (fix each (es : table) : value :=
       match es with
       | [] => VStr ""
       | (exportName, exportValue) :: r =>
           if truthy exportValue && typeof_object exportValue then
             if truthy (router_pathPrefix exportValue)
             then get (get exportValue "__options") "pathPrefix"
             else
               (fix nested (kvs : props) : value :=
                  match kvs with
                  | [] => each r
                  | (key, value) :: kvs' =>
                      if typeof_object value && negb (is_null value)
                         && truthy (router_pathPrefix value)
                      then get (get value "__options") "pathPrefix"
                      else nested kvs'
                  end) (entries exportValue)
           else each r
       end) exports.

Definition combinePaths (pathPrefix routePath : value) : result value :=
  if negb (truthy pathPrefix) then Ok (jor routePath (VStr "/"))
  else if negb (truthy routePath)
          || match routePath with VStr s => String.eqb s "/" | _ => false end
  then Ok pathPrefix
  else
    match pathPrefix with
    | VStr pathPrefix =>
        let normalizedPrefix :=
          if Str.startsWith pathPrefix "/" then pathPrefix
          else String.append "/" pathPrefix in
        match routePath with
        | VStr routePath =>
            let normalizedRoute :=
              if Str.startsWith routePath "/" then routePath
              else String.append "/" routePath in
            let cleanPrefix :=
              if Str.endsWithChar normalizedPrefix "/"%char
                 && negb (String.eqb normalizedRoute "/")
              then Str.dropLast normalizedPrefix
              else normalizedPrefix in
            Ok (VStr (String.append cleanPrefix normalizedRoute))
        | _ => Thrown
        end
    | _ => Thrown
    end.

(** [importInfo && importInfo.exportName], when truthy. *)
Definition named_export (importInfo : option ImportInfo) : option string :=
  match importInfo with
  | Some info =>
      match exportName info with
      | Some n => if Str.isEmpty n then None else Some n
      | None => None
      end
  | None => None
  end.

(** The loop "try all exports as fallback": [baseContract] after it. *)
Fixpoint tryAllExports (propertyPath : list string) (es : table)
         (baseContract : value) : value :=
  match es with
  | [] => baseContract
  | (exportName, exportValue) :: r =>
      let baseContract := findRouteInContract exportValue propertyPath in
      if truthy baseContract then baseContract
      else tryAllExports propertyPath r baseContract
  end.

(** The first part of [extractRouteInfo]: the value of [baseContract]
    when the lookup strategies are done. *)
Definition locateBaseContract (exports : table) (propertyPath : list string)
           (importInfo : option ImportInfo) : value :=
  match named_export importInfo with
  | Some exportName =>
      let exportObj := map_get exportName exports in
      if truthy exportObj then findRouteInContract exportObj propertyPath
      else VNull
  | None =>
      let baseContract := findContractByPath exports propertyPath in
      if negb (truthy baseContract) then
        let defaultExport := map_get "default" exports in
        let baseContract :=
          if truthy defaultExport
          then findRouteInContract defaultExport propertyPath
          else baseContract in
        let baseContract :=
          if negb (truthy baseContract) then
            let contractExport := map_get "contract" exports in
            if truthy contractExport
            then findRouteInContract contractExport propertyPath
            else baseContract
          else baseContract in
        if negb (truthy baseContract)
        then tryAllExports propertyPath exports baseContract
        else baseContract
      else baseContract
  end.

Definition extractRouteInfo (exports : table) (propertyPath : list string)
           (importInfo : option ImportInfo) : option RouteInfo.t :=
  catch_null
    (let baseContract := locateBaseContract exports propertyPath importInfo in
     if negb (truthy baseContract) then Ok None
     else
       routeDefinition <- extractRouteDefinition baseContract ;;
       match routeDefinition with
       | None => Ok None
       | Some routeDefinition =>
           let pathPrefix := findPathPrefix exports propertyPath in
           fullPath <- combinePaths pathPrefix
                         (jor (ContractDefinition.path routeDefinition)
                              (VStr "")) ;;
           Ok (Some {|
             RouteInfo.method :=
               jor (ContractDefinition.method routeDefinition) (VStr "GET");
             RouteInfo.path :=
               jor (ContractDefinition.path routeDefinition) (VStr "");
             RouteInfo.summary := ContractDefinition.summary routeDefinition;
             RouteInfo.fullPath := fullPath
           |})
       end).

(** *** The module resolver

    The file system and Node's [path] module are the environment of
    [resolveImportPath]: [stat_ok p] says that
    [vscode.workspace.fs.stat] succeeds on [p]. *)

Section Resolver.

Variable dirname : string -> string.
Variable resolve : string -> string -> string.
Variable join : string -> string -> string.
Variable stat_ok : string -> bool.

Definition extensions : list string := [".ts"; ".tsx"; ".js"; ".jsx"].

(** One [for (const ext of extensions)] loop: the first candidate on
    which [stat] succeeds is returned. *)
Fixpoint probe (candidate : string -> string) (exts : list string)
  : option string :=
  match exts with
  | [] => None
  | ext :: r =>
      if stat_ok (candidate ext) then Some (candidate ext)
      else probe candidate r
  end.

Definition resolveImportPath (importPath fromFile : string)
  : option string :=
  if Str.startsWith importPath "." then
    let basePath := dirname fromFile in
    let resolvedPath := resolve basePath importPath in
    match probe (fun ext => String.append resolvedPath ext) extensions with
    | Some fullPath => Some fullPath
    | None =>
        probe (fun ext => join resolvedPath (String.append "index" ext))
              extensions
    end
  else None.

End Resolver.

End ContractParser.

(* ------------------------------------------------------------------ *)
(** ** Node's [path] module, POSIX flavour

    The part of the library [resolveImportPath] calls, for an importing
    file given by an absolute path. *)

Module PosixPath.

Definition slash : ascii := "/"%char.

(** The segments of a path between its separators. *)
Fixpoint segments_from (cur : string) (s : string) : list string :=
  match s with
  | EmptyString => [cur]
  | String c r =>
      if Ascii.eqb c slash then cur :: segments_from EmptyString r
      else segments_from (String.append cur (String c EmptyString)) r
  end.

Definition segments (s : string) : list string :=
  segments_from EmptyString s.

(** [normalizeString] on segments, kept in reverse: empty and [.] segments
    vanish, [..] removes the segment before it (and is kept, when allowed,
    where there is none). *)
Fixpoint normalize_rev (allowAboveRoot : bool) (segs : list string)
         (acc : list string) : list string :=
  match segs with
  | [] => acc
  | seg :: r =>
      if Str.isEmpty seg || String.eqb seg "." then
        normalize_rev allowAboveRoot r acc
      else if String.eqb seg ".." then
        match acc with
        | top :: acc' =>
            if String.eqb top ".."
            then normalize_rev allowAboveRoot r (seg :: acc)
            else normalize_rev allowAboveRoot r acc'
        | [] =>
            normalize_rev allowAboveRoot r
                          (if allowAboveRoot then [seg] else [])
        end
      else normalize_rev allowAboveRoot r (seg :: acc)
  end.

Definition normalizeString (path : string) (allowAboveRoot : bool) : string :=
  String.concat "/" (rev (normalize_rev allowAboveRoot (segments path) [])).

Definition isAbsolute (path : string) : bool := Str.startsWith path "/".

(** [path.resolve(from, to)], both given and [from] absolute. *)
Definition resolve (from to : string) : string :=
  let joined :=
    if Str.isEmpty to then String.append from "/"
    else if isAbsolute to then String.append to "/"
    else String.append from (String.append "/" (String.append to "/")) in
  String.append "/" (normalizeString joined false).

(** [path.join(a, b)], both non-empty. *)
Definition join (a b : string) : string :=
  let joined := String.append a (String.append "/" b) in
  let body := normalizeString joined (negb (isAbsolute joined)) in
  let body :=
    if Str.isEmpty body then (if isAbsolute joined then "" else ".")
    else body in
  let body :=
    if Str.endsWithChar joined slash && negb (Str.isEmpty body)
    then String.append body "/" else body in
  if isAbsolute joined then String.append "/" body else body.

(** [path.dirname(p)]: [p] up to the last separator that follows a
    character other than a separator, trailing separators set aside. *)
Fixpoint cut_rev (matchedSlash : bool) (rest : list ascii)
  : option (list ascii) :=
  match rest with
  | [] => None
  | c :: r =>
      if Ascii.eqb c slash then
        if matchedSlash then cut_rev true r else Some r
      else cut_rev false r
  end.

Definition dirname (path : string) : string :=
  match list_ascii_of_string path with
  | [] => "."
  | c0 :: tail =>
      let hasRoot := Ascii.eqb c0 slash in
      match cut_rev true (rev tail) with
      | None => if hasRoot then "/" else "."
      | Some before =>
          if hasRoot && Str.isEmpty (string_of_list_ascii before) then "//"
          else string_of_list_ascii (c0 :: rev before)
      end
  end.

End PosixPath.

(* ------------------------------------------------------------------ *)
(** ** The AST parser: decorator extraction *)

Module AstParser.

(** [vscode.Position]. *)
Record Position : Type := {
  line : nat;
  character : nat
}.

(** A decorator node: its expression and its extent in the source text
    ([getStart] and [getEnd]). *)
Record Decorator : Type := {
  expression : expr;
  start : nat;
  finish : nat
}.

Inductive modifierLike : Type :=
| MDecorator (d : Decorator)
| MKeyword (* [public], [async], [static], ... *).

(** The nodes of a source file the decorator visitor tells apart. *)
Inductive node : Type :=
| NMethodOrFunction (modifiers : list modifierLike) (children : list node)
| NOther (children : list node).

Record HandlerDecoratorInfo : Type := {
  position : Position;
  line_ : nat;
  contractReference : string;
  contractPropertyPath : list string;
  range : Position * Position
}.

Definition isTsRestHandlerDecorator (callee : expr) : bool :=
  match callee with
  | EIdentifier text => String.eqb text "TsRestHandler"
  | EPropertyAccess _ name => String.eqb name "TsRestHandler"
  | _ => false
  end.

(** The [while] loop of [extractContractReference]. *)
Fixpoint walk (current : expr) (propertyPath : list string)
  : expr * list string :=
  match current with
  | EPropertyAccess e name => walk e (name :: propertyPath)
  | _ => (current, propertyPath)
  end.

Definition extractContractReference (argument : expr)
  : option (string * list string) :=
  match walk argument [] with
  | (EIdentifier text, propertyPath) => Some (text, propertyPath)
  | _ => None
  end.

Section Document.

(** [document.positionAt]. *)
Variable positionAt : nat -> Position.

Definition analyzeDecorator (decorator : Decorator)
  : option HandlerDecoratorInfo :=
  match expression decorator with
  | ECall callee arguments =>
      if negb (isTsRestHandlerDecorator callee) then None
      else if negb (List.length arguments =? 1)%nat then None
      else
        match arguments with
        | argument :: _ =>
            match extractContractReference argument with
            | None => None
            | Some (base, propertyPath) =>
                let position := positionAt (start decorator) in
                Some {|
                  position := position;
                  line_ := line position;
                  contractReference := base;
                  contractPropertyPath := propertyPath;
                  range := (position, positionAt (finish decorator))
                |}
            end
        | [] => None
        end
  | _ => None
  end.

(** [result.decorators] after the loop over the modifiers of one
    method or function. *)
Fixpoint processMethodDecorators (modifiers : list modifierLike)
         (decorators : list HandlerDecoratorInfo)
  : list HandlerDecoratorInfo :=
  match modifiers with
  | [] => decorators
  | MDecorator d :: r =>
      processMethodDecorators r
        match analyzeDecorator d with
        | Some decoratorInfo => decorators ++ [decoratorInfo]
        | None => decorators
        end
  | MKeyword :: r => processMethodDecorators r decorators
  end.

Fixpoint visitor (n : node) (decorators : list HandlerDecoratorInfo)
  : list HandlerDecoratorInfo :=
  let each :=
    fix each (ns : list node) (decorators : list HandlerDecoratorInfo) :=
      match ns with
      | [] => decorators
      | c :: r => each r (visitor c decorators)
      end in
  match n with
  | NMethodOrFunction modifiers children =>
      each children (processMethodDecorators modifiers decorators)
  | NOther children => each children decorators
  end.

Definition extractDecorators (sourceFile : node)
  : list HandlerDecoratorInfo :=
  visitor sourceFile [].

End Document.

End AstParser.

(* ------------------------------------------------------------------ *)
(** ** The glue between the two parsers *)

Module TsRestCodeLensProvider.

(** [ImportResolution]: what the import table records for a local name. *)
Record ImportResolution : Type := {
  filePath : string;
  exportName : option string;
  isDefaultImport : bool
}.

Definition importInfo_of (r : ImportResolution) : ContractParser.ImportInfo :=
  {| ContractParser.exportName := exportName r;
     ContractParser.isDefaultImport := isDefaultImport r |}.

Section Workspace.

Variable dirname : string -> string.
Variable resolve : string -> string -> string.
Variable join : string -> string -> string.
Variable stat_ok : string -> bool.

(** [contractParser.parseContractFile]: the export table of the file at
    a path, or the [ExtensionError] it throws. *)
Variable parseContractFile : string -> result ContractParser.table.

Definition resolveRouteInfo (decorator : AstParser.HandlerDecoratorInfo)
           (imports : list (string * ImportResolution))
           (currentFilePath : string) : option ContractParser.RouteInfo.t :=
  match List.find (fun kv => String.eqb (fst kv)
                               (AstParser.contractReference decorator))
                  imports with
  | None => None
  | Some (_, importInfo) =>
      match ContractParser.resolveImportPath dirname resolve join stat_ok
              (filePath importInfo) currentFilePath with
      | None => None
      | Some contractFilePath =>
          catch_null
            (exports <- parseContractFile contractFilePath ;;
             Ok (ContractParser.extractRouteInfo exports
                   (AstParser.contractPropertyPath decorator)
                   (Some (importInfo_of importInfo))))
      end
  end.

End Workspace.

End TsRestCodeLensProvider.

(* ================================================================== *)
(** * Specification-level notions and worked examples *)

Import ContractParser.

(* ------------------------------------------------------------------ *)
(** ** The notions of the specification *)

(** The normalisations of the specification, in its words: a path is made
    to start with [/], and one trailing [/] is taken off a prefix. *)
Definition ensure_leading_slash (s : string) : string :=
  if Str.startsWith s "/" then s else String.append "/" s.

Definition strip_trailing_slash (s : string) : string :=
  if Str.endsWithChar s "/"%char then Str.dropLast s else s.

(** The candidate paths of the specification, in probing order: the
    resolved specifier with each extension, then its index files. *)
Definition candidates (join : string -> string -> string)
           (resolvedPath : string) : list string :=
  [ String.append resolvedPath ".ts"; String.append resolvedPath ".tsx";
    String.append resolvedPath ".js"; String.append resolvedPath ".jsx";
    join resolvedPath "index.ts"; join resolvedPath "index.tsx";
    join resolvedPath "index.js"; join resolvedPath "index.jsx" ].

(** The strategies of the specification for a default import, in order,
    and what "first success wins" means: the first truthy attempt, null
    when there is none. *)
Definition strategies (exports : table) (propertyPath : list string)
  : list value :=
  findContractByPath exports propertyPath
  :: findRouteInContract (map_get "default" exports) propertyPath
  :: findRouteInContract (map_get "contract" exports) propertyPath
  :: List.map (fun kv => findRouteInContract (snd kv) propertyPath) exports.

Definition first_success (attempts : list value) : value :=
  match List.find truthy attempts with
  | Some v => v
  | None => VNull
  end.

(** The decorators of a file in the order the visitor meets them, and what
    analysing each of them on its own contributes. *)
Fixpoint decorators_of (modifiers : list AstParser.modifierLike)
  : list AstParser.Decorator :=
  match modifiers with
  | [] => []
  | AstParser.MDecorator d :: r => d :: decorators_of r
  | AstParser.MKeyword :: r => decorators_of r
  end.

Fixpoint all_decorators (n : AstParser.node) : list AstParser.Decorator :=
  let below :=
    fix below (ns : list AstParser.node) : list AstParser.Decorator :=
      match ns with
      | [] => []
      | c :: r => all_decorators c ++ below r
      end in
  match n with
  | AstParser.NMethodOrFunction modifiers children =>
      decorators_of modifiers ++ below children
  | AstParser.NOther children => below children
  end.

Definition collect (positionAt : nat -> AstParser.Position)
           (ds : list AstParser.Decorator)
  : list AstParser.HandlerDecoratorInfo :=
  List.flat_map
    (fun d => match AstParser.analyzeDecorator positionAt d with
              | Some info => [info]
              | None => []
              end) ds.

(* ------------------------------------------------------------------ *)
(** ** The loops of the parser, by name *)

(** The loop of [extractObjectLiteral] over the properties of an object
    literal. *)
Fixpoint evalProperties (ps : list property) (obj : value) : value :=
  match ps with
  | [] => obj
  | PPropertyAssignment name initializer :: r =>
      evalProperties r
        match usable_key (getPropertyName name) with
        | Some key => set obj key (extractObjectLiteral initializer)
        | None => obj
        end
  | PMethodDeclaration name :: r =>
      evalProperties r
        match usable_key (getPropertyName name) with
        | Some key => set obj key method_marker
        | None => obj
        end
  | POther :: r => evalProperties r obj
  end.

(** The loop of [findRouteInContract] over the entries of the object. *)
Section Scan.

Variable routeName : string.

Fixpoint scanNested (es : props) : value :=
  match es with
  | [] => VNull
  | (key, value) :: r =>
      if typeof_object value && negb (is_null value)
         && negb (Str.startsWith key "__")
      then if truthy (get value routeName)
           then get value routeName
           else scanNested r
      else scanNested r
  end.

End Scan.

(** One step of [Object.assign]. *)
Definition set_entry (t : value) (kv : string * value) : value :=
  set t (fst kv) (snd kv).


(** [isExported] in [processVariableStatement]. *)
Definition has_export_modifier (modifiers : list modifier) : bool :=
  existsb (fun m => match m with ExportKeyword => true | _ => false end)
          modifiers.

(** One round of the loop of [processVariableStatement]; [alias] is the
    test "exported and exactly one declaration". *)
Definition store_binding (alias : bool) (exports : table) (d : declaration)
  : table :=
  match name d, initializer d with
  | BIdentifier n, Some init =>
      let value := extractObjectLiteral init in
      if truthy value then
        let exports := map_set n value exports in
        if alias then map_set "default" value exports else exports
      else exports
  | _, _ => exports
  end.

(** The route object a verb call starts from, and after its path is set. *)
Definition verb_route (name : string) : value :=
  VObj VObjectPrototype
       [("method", VStr (Str.toUpperCase name));
        ("__method", VStr (Str.toUpperCase name));
        ("__call", VBool true)].

Definition verb_route_with_path (name : string) (arguments : list expr)
  : value :=
  match arguments with
  | EStringLiteral text :: _ =>
      set (set (verb_route name) "path" (VStr text)) "__path" (VStr text)
  | _ => verb_route name
  end.

(* ------------------------------------------------------------------ *)
(** ** Shapes and measures of values *)

(** An ordinary object. *)
Definition is_obj (o : value) : Prop :=
  exists proto ps, o = VObj proto ps.

(** The own keys of an object are pairwise distinct. *)
Definition distinct_keys (o : value) : Prop :=
  NoDup (List.map fst (entries o)).

(** The depth of a list of own properties. *)
Fixpoint depth_props (ps : props) : nat :=
  match ps with
  | [] => 0
  | (_, x) :: r => Nat.max (depth x) (depth_props r)
  end.

(* ------------------------------------------------------------------ *)
(** ** Worked examples *)

(** A binding [n = init] of a variable statement. *)
Definition declare (n : string) (init : expr) : declaration :=
  {| name := BIdentifier n; initializer := Some init |}.

(** The import binding of [import c from ...]. *)
Definition default_import : option ImportInfo :=
  Some {| exportName := None; isDefaultImport := true |}.

(** A document all on one line, and a decorator of one character. *)
Definition origin : nat -> AstParser.Position :=
  fun offset => {| AstParser.line := 0; AstParser.character := offset |}.

Definition decorator_at (start : nat) (e : expr) : AstParser.Decorator :=
  {| AstParser.expression := e;
     AstParser.start := start;
     AstParser.finish := start + 1 |}.

(** A workspace whose only file is
    [/ws/src/posts.contract/index.ts]. *)
Definition only_index (p : string) : bool :=
  String.eqb p "/ws/src/posts.contract/index.ts".

(** [{ health: { path: '/health' } }]. *)
Definition health_contract : expr :=
  EObjectLiteral
    [PPropertyAssignment (PNIdentifier "health")
       (EObjectLiteral
          [PPropertyAssignment (PNIdentifier "path")
                               (EStringLiteral "/health")])].

(** [const contract = { health: { method: 'GET', summary: 'Liveness' } }]:
    no prefix, no path. *)
Definition bare_contract : node :=
  NOther
    [NVariableStatement []
       [declare "contract"
          (EObjectLiteral
             [PPropertyAssignment (PNIdentifier "health")
                (EObjectLiteral
                   [PPropertyAssignment (PNIdentifier "method")
                                        (EStringLiteral "GET");
                    PPropertyAssignment (PNIdentifier "summary")
                                        (EStringLiteral "Liveness")])])] []].

(** [const contract = { health: { path: true } }]. *)
Definition boolean_path_contract : node :=
  NOther
    [NVariableStatement []
       [declare "contract"
          (EObjectLiteral
             [PPropertyAssignment (PNIdentifier "health")
                (EObjectLiteral
                   [PPropertyAssignment (PNIdentifier "path") ETrue])])] []].

(** [const contract =
      { createPost: c.post('/', { summary: 'Create a new post' }) }]. *)
Definition verb_contract : node :=
  NOther
    [NVariableStatement []
       [declare "contract"
          (EObjectLiteral
             [PPropertyAssignment (PNIdentifier "createPost")
                (ECall (EPropertyAccess (EIdentifier "c") "post")
                   [EStringLiteral "/";
                    EObjectLiteral
                      [PPropertyAssignment (PNIdentifier "summary")
                         (EStringLiteral "Create a new post")]])])] []].

(** [const contract = { createPost: { method: 'post', path: '/' } }]. *)
Definition lowercase_contract : node :=
  NOther
    [NVariableStatement []
       [declare "contract"
          (EObjectLiteral
             [PPropertyAssignment (PNIdentifier "createPost")
                (EObjectLiteral
                   [PPropertyAssignment (PNIdentifier "method")
                                        (EStringLiteral "post");
                    PPropertyAssignment (PNIdentifier "path")
                                        (EStringLiteral "/")])])] []].

(** [{ getAll: { method: 'GET', path: ... } }]. *)
Definition getAll_route (path : string) : expr :=
  EObjectLiteral
    [PPropertyAssignment (PNIdentifier "getAll")
       (EObjectLiteral
          [PPropertyAssignment (PNIdentifier "method") (EStringLiteral "GET");
           PPropertyAssignment (PNIdentifier "path") (EStringLiteral path)])].

(** [const posts = { getAll: ... }; const <second> = { getAll: ... }]. *)
Definition sibling_contracts (second : string) : node :=
  NOther
    [NVariableStatement [] [declare "posts" (getAll_route "/posts")] [];
     NVariableStatement [] [declare second (getAll_route "/other")] []].

(** [c.router({ createPost: { method: 'POST', path: '/',
    summary: 'Create a new post' } }, { pathPrefix: '/posts' })]. *)
Definition posts_router : expr :=
  ECall (EPropertyAccess (EIdentifier "c") "router")
    [EObjectLiteral
       [PPropertyAssignment (PNIdentifier "createPost")
          (EObjectLiteral
             [PPropertyAssignment (PNIdentifier "method")
                                  (EStringLiteral "POST");
              PPropertyAssignment (PNIdentifier "path") (EStringLiteral "/");
              PPropertyAssignment (PNIdentifier "summary")
                                  (EStringLiteral "Create a new post")])];
     EObjectLiteral
       [PPropertyAssignment (PNIdentifier "pathPrefix")
                            (EStringLiteral "/posts")]].

(** [export default c.router(...)]. *)
Definition export_default_contract : node :=
  NOther [NExportAssignment posts_router []].

(** [export const postsContract = c.router(...)]. *)
Definition export_const_contract : node :=
  NOther [NVariableStatement [ExportKeyword]
                             [declare "postsContract" posts_router] []].

(** [const postsContract = c.router(...); export default postsContract]. *)
Definition plain_const_contract : node :=
  NOther [NVariableStatement [] [declare "postsContract" posts_router] [];
          NExportAssignment (EIdentifier "postsContract") []].

(** The record of [createPost] behind the prefix [/posts]. *)
Definition createPost_info : RouteInfo.t :=
  {| RouteInfo.method := VStr "POST";
     RouteInfo.path := VStr "/";
     RouteInfo.summary := VStr "Create a new post";
     RouteInfo.fullPath := VStr "/posts" |}.

(* ================================================================== *)
(** * Further notions, for the properties beyond the claims *)

(* ------------------------------------------------------------------ *)
(** ** More loops of the parser, by name *)

(** The loop of [findContractByPath] over the segments after the first. *)
Fixpoint navigate (parts : list string) (current : value) : value :=
  match parts with
  | [] => current
  | part :: r =>
      if typeof_object current && negb (is_null current)
         && has_property current part
      then navigate r (get current part)
      else VNull
  end.

(** One step of that loop. *)
Definition step_into (current : value) (part : string) : value :=
  if typeof_object current && negb (is_null current)
     && has_property current part
  then get current part
  else VNull.

(** The places [findPathPrefix] looks at, in its order: each export that
    is an object, followed by its own children that are objects. *)
Definition prefix_sites (exports : table) : list value :=
  List.flat_map
    (fun kv =>
       if truthy (snd kv) && typeof_object (snd kv)
       then snd kv
            :: List.filter (fun c => typeof_object c && negb (is_null c))
                           (List.map snd (entries (snd kv)))
       else [])
    exports.

(** A site that carries a path prefix. *)
Definition has_prefix (site : value) : bool :=
  truthy (router_pathPrefix site).

(** The expression [base.p1.p2...pn]. *)
Definition reference_expr (base : string) (propertyPath : list string) : expr :=
  fold_left EPropertyAccess propertyPath (EIdentifier base).

(** [typeof v === 'string']. *)
Definition is_string (v : value) : bool :=
  match v with VStr _ => true | _ => false end.

(** [routePath === '/']. *)
Definition is_root (v : value) : bool :=
  match v with VStr s => String.eqb s "/" | _ => false end.

(** Every entry of a table holds a truthy value, under distinct names. *)
Definition well_formed_table (exports : table) : Prop :=
  NoDup (List.map fst exports)
  /\ Forall (fun kv => truthy (snd kv) = true) exports.

(** The two loops of [findPathPrefix]: over the children of one export
    ([otherwise] is what the search gives on the exports after it), and over
    the exports. *)
Section PrefixSearch.

Variable otherwise : value.

Fixpoint nestedPrefix (kvs : props) : value :=
  match kvs with
  | [] => otherwise
  | (key, value) :: kvs' =>
      if typeof_object value && negb (is_null value)
         && truthy (router_pathPrefix value)
      then get (get value "__options") "pathPrefix"
      else nestedPrefix kvs'
  end.

End PrefixSearch.

Fixpoint eachPrefix (es : table) : value :=
  match es with
  | [] => VStr ""
  | (exportName, exportValue) :: r =>
      if truthy exportValue && typeof_object exportValue then
        if truthy (router_pathPrefix exportValue)
        then get (get exportValue "__options") "pathPrefix"
        else nestedPrefix (eachPrefix r) (entries exportValue)
      else eachPrefix r
  end.

(* ------------------------------------------------------------------ *)
(** ** More worked examples *)

(** [const health = { ping: { method: 'GET', path: '/ping' } };
     const posts = c.router({ ... }, { pathPrefix: '/posts' })]. *)
Definition health_and_posts : node :=
  NOther
    [NVariableStatement []
       [declare "health"
          (EObjectLiteral
             [PPropertyAssignment (PNIdentifier "ping")
                (EObjectLiteral
                   [PPropertyAssignment (PNIdentifier "method")
                                        (EStringLiteral "GET");
                    PPropertyAssignment (PNIdentifier "path")
                                        (EStringLiteral "/ping")])])] [];
     NVariableStatement [] [declare "posts" posts_router] []].

(** The import binding of [import { posts } from ...]. *)
Definition named_import (n : string) : option ImportInfo :=
  Some {| exportName := Some n; isDefaultImport := false |}.

(** The router object before anything is merged into it. *)
Definition bare_router : value :=
  VObj VObjectPrototype [("__router", VBool true)].

(** The uppercase names of the HTTP verbs. *)
Definition verbs : list string :=
  ["GET"; "POST"; "PUT"; "PATCH"; "DELETE"; "HEAD"; "OPTIONS"].

(* ================================================================== *)
(** * The caches, the import table and the display *)

(* ------------------------------------------------------------------ *)
(** ** [Map<string, A>]

    Keys in insertion order, each at most once; [set] on a key already
    there keeps its place. *)

Module OrderedMap.

Section Ops.

Variable A : Type.

Definition t : Type := list (string * A).

(** [m.get(k)]. *)
Fixpoint get (k : string) (m : t) : option A :=
  match m with
  | [] => None
  | (k', v) :: r => if String.eqb k k' then Some v else get k r
  end.

Fixpoint replace (k : string) (v : A) (m : t) : t :=
  match m with
  | [] => []
  | (k', v') :: r =>
      if String.eqb k k' then (k', v) :: r else (k', v') :: replace k v r
  end.

(** [m.set(k, v)]. *)
Definition set (k : string) (v : A) (m : t) : t :=
  match get k m with
  | Some _ => replace k v m
  | None => m ++ [(k, v)]
  end.

(** [m.delete(k)]. *)
Fixpoint delete (k : string) (m : t) : t :=
  match m with
  | [] => []
  | (k', v) :: r =>
      if String.eqb k k' then delete k r else (k', v) :: delete k r
  end.

(** [Array.from(m.keys())] and [m.size]. *)
Definition keys (m : t) : list string := List.map fst m.

Definition size (m : t) : nat := List.length m.

End Ops.

End OrderedMap.

(* ------------------------------------------------------------------ *)
(** ** The contract cache of the contract parser

    [parseContractFile] and the cache methods of [ContractParser].  The
    host is a parameter: [stat_mtime p] is the modification time
    [fs.stat] reports for [p] (none when it throws), [openSourceFile p] is
    the syntax tree of the text of [p] (none when opening or parsing it
    throws), and [now] is what [Date.now()] returns. *)

Module ContractCache.

Record ContractFile : Type := {
  filePath : string;
  exports : ContractParser.table;
  lastModified : nat
}.

Definition cache : Type := OrderedMap.t ContractFile.

Section Host.

Variable stat_mtime : string -> option nat.
Variable openSourceFile : string -> option ContractParser.node.

(** The second [try] block of [parseContractFile]: a fresh parse. *)
Definition parseFresh (now : nat) (contractCache : cache) (filePath : string)
  : result ContractFile * cache :=
  match openSourceFile filePath with
  | Some sourceFile =>
      let contractFile :=
        {| filePath := filePath;
           exports := ContractParser.extractExports sourceFile;
           lastModified := now |} in
      (Ok contractFile, OrderedMap.set filePath contractFile contractCache)
  | None => (Thrown, contractCache)
  end.

Definition parseContractFile (now : nat) (contractCache : cache)
           (filePath : string) : result ContractFile * cache :=
  match OrderedMap.get filePath contractCache with
  | Some cachedContract =>
      match stat_mtime filePath with
      | Some mtime =>
          if (mtime <=? lastModified cachedContract)%nat
          then (Ok cachedContract, contractCache)
          else parseFresh now contractCache filePath
      | None => parseFresh now contractCache filePath
      end
  | None => parseFresh now contractCache filePath
  end.

End Host.

Definition clearCache (contractCache : cache) : cache := [].

Definition invalidateCache (filePath : string) (contractCache : cache)
  : cache :=
  OrderedMap.delete filePath contractCache.

Definition getCacheStats (contractCache : cache) : nat * list string :=
  (OrderedMap.size contractCache, OrderedMap.keys contractCache).

End ContractCache.

(* ------------------------------------------------------------------ *)
(** ** The import table of the AST parser *)

Module AstImports.

(** An element [propertyName as name] of a named import. *)
Record ImportSpecifier : Type := {
  name : string;
  propertyName : option string
}.

Inductive NamedImportBindings : Type :=
| NamedImports (elements : list ImportSpecifier)
| NamespaceImport (namespaceName : string).

Record ImportClause : Type := {
  defaultName : option string;       (* [importClause.name] *)
  namedBindings : option NamedImportBindings
}.

Record ImportDeclaration : Type := {
  moduleSpecifier : expr;
  importClause : option ImportClause
}.

(** The nodes of a source file the import visitor tells apart. *)
Inductive node : Type :=
| NImportDeclaration (declaration : ImportDeclaration) (children : list node)
| NOther (children : list node).

Definition imports : Type :=
  OrderedMap.t TsRestCodeLensProvider.ImportResolution.

(** [element.propertyName?.text || importName]. *)
Definition original_name (element : ImportSpecifier) : string :=
  match propertyName element with
  | Some text => if Str.isEmpty text then name element else text
  | None => name element
  end.

Definition bind_element (importPath : string) (result : imports)
           (element : ImportSpecifier) : imports :=
  OrderedMap.set (name element)
    {| TsRestCodeLensProvider.filePath := importPath;
       TsRestCodeLensProvider.exportName := Some (original_name element);
       TsRestCodeLensProvider.isDefaultImport := false |}
    result.

Definition processImportDeclaration (declaration : ImportDeclaration)
           (result : imports) : imports :=
  match moduleSpecifier declaration with
  | EStringLiteral importPath =>
      match importClause declaration with
      | None => result
      | Some clause =>
          let result :=
            match defaultName clause with
            | Some importName =>
                OrderedMap.set importName
                  {| TsRestCodeLensProvider.filePath := importPath;
                     TsRestCodeLensProvider.exportName := None;
                     TsRestCodeLensProvider.isDefaultImport := true |}
                  result
            | None => result
            end in
          match namedBindings clause with
          | Some (NamedImports elements) =>
              fold_left (bind_element importPath) elements result
          | Some (NamespaceImport namespaceName) =>
              OrderedMap.set namespaceName
                {| TsRestCodeLensProvider.filePath := importPath;
                   TsRestCodeLensProvider.exportName := None;
                   TsRestCodeLensProvider.isDefaultImport := false |}
                result
          | None => result
          end
      end
  | _ => result
  end.

Fixpoint visitor (n : node) (result : imports) : imports :=
  let each :=
    fix each (ns : list node) (result : imports) : imports :=
      match ns with
      | [] => result
      | c :: r => each r (visitor c result)
      end in
  match n with
  | NImportDeclaration declaration children =>
      each children (processImportDeclaration declaration result)
  | NOther children => each children result
  end.

Definition extractImports (sourceFile : node) : imports :=
  visitor sourceFile [].

End AstImports.

(* ------------------------------------------------------------------ *)
(** ** Hosts for the worked examples *)

(** A host whose files were all modified at time 5. *)
Definition modified_at_five (p : string) : option nat := Some 5.

(** A host whose files were all modified at time 11. *)
Definition modified_at_eleven (p : string) : option nat := Some 11.

(** A host in which every file has the text of [bare_contract], and one in
    which no file can be opened. *)
Definition open_bare (p : string) : option node := Some bare_contract.

Definition open_nothing (p : string) : option node := None.

(** The contract file a parse of [/ws/health.contract.ts] at time 10
    gives in the first host. *)
Definition health_file : ContractCache.ContractFile :=
  {| ContractCache.filePath := "/ws/health.contract.ts";
     ContractCache.exports := extractExports bare_contract;
     ContractCache.lastModified := 10 |}.

(* ------------------------------------------------------------------ *)
(** ** The three kinds of import binding *)

Definition default_binding (importPath : string)
  : TsRestCodeLensProvider.ImportResolution :=
  {| TsRestCodeLensProvider.filePath := importPath;
     TsRestCodeLensProvider.exportName := None;
     TsRestCodeLensProvider.isDefaultImport := true |}.

Definition namespace_binding (importPath : string)
  : TsRestCodeLensProvider.ImportResolution :=
  {| TsRestCodeLensProvider.filePath := importPath;
     TsRestCodeLensProvider.exportName := None;
     TsRestCodeLensProvider.isDefaultImport := false |}.

Definition named_binding (importPath exported : string)
  : TsRestCodeLensProvider.ImportResolution :=
  {| TsRestCodeLensProvider.filePath := importPath;
     TsRestCodeLensProvider.exportName := Some exported;
     TsRestCodeLensProvider.isDefaultImport := false |}.

(** The export a binding sends the route lookup to, if any. *)
Definition lookup_scope (r : TsRestCodeLensProvider.ImportResolution)
  : option string :=
  named_export (Some (TsRestCodeLensProvider.importInfo_of r)).

(** [import { contract as c } from './posts.contract']. *)
Definition import_contract_as_c : AstImports.ImportDeclaration :=
  {| AstImports.moduleSpecifier := EStringLiteral "./posts.contract";
     AstImports.importClause :=
       Some {| AstImports.defaultName := None;
               AstImports.namedBindings :=
                 Some (AstImports.NamedImports
                         [{| AstImports.name := "c";
                             AstImports.propertyName := Some "contract" |}])
            |} |}.

(* ------------------------------------------------------------------ *)
(** ** The annotation provider: display and result cache

    [formatAnnotationText], [createDecorations], [resolveRouteInfo] and
    [invalidateCache] of [RouteAnnotationProvider].  The conversion of a
    value that is not a string to a string (the language's ToString, which
    may raise) and the document are parameters. *)

Module RouteAnnotationProvider.

Record AnnotationConfig : Type := {
  enabled : bool;
  showHttpMethod : bool;
  showPath : bool;
  showSummary : bool;
  annotationPrefix : string
}.

Record DecorationOptions : Type := {
  range : AstParser.Position * AstParser.Position;
  contentText : string;
  color : string;
  fontStyle : string;
  opacity : string
}.

(** An element of the result of [Promise.allSettled]. *)
Inductive settled : Type :=
| Fulfilled (value : option RouteInfo.t)
| Rejected.

Record CacheEntry : Type := {
  routeInfo : RouteInfo.t;
  timestamp : nat;
  fileVersion : nat
}.

Record PerformanceMetrics : Type := {
  cacheHits : nat;
  cacheMisses : nat
}.

Definition routeCache : Type := OrderedMap.t CacheEntry.

(** The two caches the provider works on: its own result cache and the
    contract cache of its contract parser. *)
Definition caches : Type := (routeCache * ContractCache.cache)%type.

Definition CACHE_TTL : nat := 5 * 60 * 1000.

Section Language.

Variable toStringOther : value -> result string.

(** ToString. *)
Definition toStringJS (v : value) : result string :=
  match v with
  | VStr s => Ok s
  | _ => toStringOther v
  end.

(** The text of one element in [Array.prototype.join]: [undefined] and
    [null] give the empty text. *)
Definition joinElement (p : value) : result string :=
  match p with
  | VUndefined | VNull => Ok ""
  | _ => toStringJS p
  end.

(** [parts.join(' ')]. *)
Fixpoint join (parts : list value) : result string :=
  match parts with
  | [] => Ok ""
  | p :: r =>
      s <- joinElement p ;;
      match r with
      | [] => Ok s
      | _ :: _ => rest <- join r ;;
                  Ok (String.append s (String.append " " rest))
      end
  end.

Definition formatAnnotationText (config : AnnotationConfig)
           (routeInfo : RouteInfo.t) : result string :=
  parts <- (if showHttpMethod config && truthy (RouteInfo.method routeInfo)
            then upper <- call_toUpperCase (RouteInfo.method routeInfo) ;;
                 Ok [upper]
            else Ok []) ;;
  let parts :=
    if showPath config && truthy (RouteInfo.fullPath routeInfo)
    then parts ++ [RouteInfo.fullPath routeInfo]
    else parts in
  parts <- (if showSummary config && truthy (RouteInfo.summary routeInfo)
            then summary <- toStringJS (RouteInfo.summary routeInfo) ;;
                 Ok (parts ++ [VStr (String.append "- " summary)])
            else Ok parts) ;;
  if (List.length parts =? 0)%nat then Ok ""
  else joined <- join parts ;;
       Ok (String.append (annotationPrefix config) joined).

(** [document.lineAt(line).text.length]; it raises on a line the document
    does not have. *)
Variable lineLength : nat -> result nat.

Fixpoint createDecorations (config : AnnotationConfig)
         (decorators : list AstParser.HandlerDecoratorInfo)
         (annotationResults : list settled)
         (decorations : list DecorationOptions)
  : result (list DecorationOptions) :=
  match decorators with
  | [] => Ok decorations
  | decorator :: ds =>
      match annotationResults with
      | [] => Thrown
      | Fulfilled (Some routeInfo) :: rs =>
          annotationText <- formatAnnotationText config routeInfo ;;
          if Str.isEmpty annotationText
          then createDecorations config ds rs decorations
          else
            length <- lineLength (AstParser.line_ decorator) ;;
            let position :=
              {| AstParser.line := AstParser.line_ decorator;
                 AstParser.character := length |} in
            createDecorations config ds rs
              (decorations
               ++ [{| range := (position, position);
                      contentText := annotationText;
                      color := "editorCodeLens.foreground";
                      fontStyle := "italic";
                      opacity := "0.7" |}])
      | _ :: rs => createDecorations config ds rs decorations
      end
  end.

End Language.

(** The key of a decorator in the result cache. *)
Definition cacheKey (currentFilePath : string)
           (decorator : AstParser.HandlerDecoratorInfo) : string :=
  String.append currentFilePath
    (String.append ":"
       (String.append
          (NilEmpty.string_of_uint (Nat.to_uint (AstParser.line_ decorator)))
          (String.append ":"
             (String.append (AstParser.contractReference decorator)
                (String.append ":"
                   (String.concat "."
                      (AstParser.contractPropertyPath decorator))))))).

Section Workspace.

Variable dirname : string -> string.
Variable resolve : string -> string -> string.
Variable join : string -> string -> string.
Variable stat_ok : string -> bool.
Variable stat_mtime : string -> option nat.
Variable openSourceFile : string -> option ContractParser.node.

(** [resolveRouteInfo] after its cache check: the import is looked up, the
    contract file resolved and parsed, the route extracted and, when there
    is one, stored.  [parsedAt] and [storedAt] are what [Date.now()]
    returns in [parseContractFile] and when the entry is stored. *)
Definition resolveUncached (parsedAt storedAt : nat) (state : caches)
           (decorator : AstParser.HandlerDecoratorInfo)
           (imports : AstImports.imports) (currentFilePath : string)
  : option RouteInfo.t * caches :=
  match OrderedMap.get (AstParser.contractReference decorator) imports with
  | None => (None, state)
  | Some importInfo =>
      match ContractParser.resolveImportPath dirname resolve join stat_ok
              (TsRestCodeLensProvider.filePath importInfo) currentFilePath
      with
      | None => (None, state)
      | Some contractFilePath =>
          match ContractCache.parseContractFile stat_mtime openSourceFile
                  parsedAt (snd state) contractFilePath with
          | (Thrown, contractCache) => (None, (fst state, contractCache))
          | (Ok contractFile, contractCache) =>
              match ContractParser.extractRouteInfo
                      (ContractCache.exports contractFile)
                      (AstParser.contractPropertyPath decorator)
                      (Some (TsRestCodeLensProvider.importInfo_of importInfo))
              with
              | Some info =>
                  (Some info,
                   (OrderedMap.set (cacheKey currentFilePath decorator)
                      {| routeInfo := info;
                         timestamp := storedAt;
                         fileVersion := 1 |}
                      (fst state),
                    contractCache))
              | None => (None, (fst state, contractCache))
              end
          end
      end
  end.

(** [now] is what [Date.now()] returns at the cache check. *)
Definition resolveRouteInfo (now parsedAt storedAt : nat) (state : caches)
           (metrics : PerformanceMetrics)
           (decorator : AstParser.HandlerDecoratorInfo)
           (imports : AstImports.imports) (currentFilePath : string)
  : option RouteInfo.t * caches * PerformanceMetrics :=
  match OrderedMap.get (cacheKey currentFilePath decorator) (fst state) with
  | Some cached =>
      if (now - timestamp cached <? CACHE_TTL)%nat
      then (Some (routeInfo cached), state,
            {| cacheHits := cacheHits metrics + 1;
               cacheMisses := cacheMisses metrics |})
      else (resolveUncached parsedAt storedAt state decorator imports
                            currentFilePath,
            {| cacheHits := cacheHits metrics;
               cacheMisses := cacheMisses metrics + 1 |})
  | None =>
      (resolveUncached parsedAt storedAt state decorator imports
                       currentFilePath,
       {| cacheHits := cacheHits metrics;
          cacheMisses := cacheMisses metrics + 1 |})
  end.

End Workspace.

Definition invalidateCache (filePath : string) (state : caches) : caches :=
  let keysToDelete :=
    List.filter (fun key => Str.startsWith key (String.append filePath ":"))
                (OrderedMap.keys (fst state)) in
  (fold_left (fun cache key => OrderedMap.delete key cache)
             keysToDelete (fst state),
   ContractCache.invalidateCache filePath (snd state)).

End RouteAnnotationProvider.

(* ------------------------------------------------------------------ *)
(** ** The annotation of a route of strings, and worked examples *)

(** A text that is shown: its flag is set and it is not empty. *)
Definition shown (flag : bool) (text : string) : list string :=
  if flag && negb (Str.isEmpty text) then [text] else [].

(** The parts of the annotation of a route with method [m], full path [f]
    and summary [s]. *)
Definition annotation_parts (config : RouteAnnotationProvider.AnnotationConfig)
           (m f s : string) : list string :=
  shown (RouteAnnotationProvider.showHttpMethod config) (Str.toUpperCase m)
  ++ shown (RouteAnnotationProvider.showPath config) f
  ++ List.map (String.append "- ")
              (shown (RouteAnnotationProvider.showSummary config) s).

Definition annotation_text (config : RouteAnnotationProvider.AnnotationConfig)
           (m f s : string) : string :=
  match annotation_parts config m f s with
  | [] => ""
  | parts =>
      String.append (RouteAnnotationProvider.annotationPrefix config)
                    (String.concat " " parts)
  end.

(** The text of a summary that is a string, and the empty text of one that
    is absent. *)
Definition summary_text (summary : value) : option string :=
  match summary with
  | VStr s => Some s
  | VUndefined | VNull => Some ""
  | _ => None
  end.

(** The default configuration of the extension. *)
Definition default_config : RouteAnnotationProvider.AnnotationConfig :=
  {| RouteAnnotationProvider.enabled := true;
     RouteAnnotationProvider.showHttpMethod := true;
     RouteAnnotationProvider.showPath := true;
     RouteAnnotationProvider.showSummary := true;
     RouteAnnotationProvider.annotationPrefix := " // " |}.

(** A conversion to text that never raises. *)
Definition to_text (v : value) : result string := Ok "[object]".

(** A document all of whose lines are 20 characters long. *)
Definition lines_of_twenty (line : nat) : result nat := Ok 20.

(** [const contract = { health: { method: true, path: '/health' } }]. *)
Definition boolean_method_contract : node :=
  NOther
    [NVariableStatement []
       [declare "contract"
          (EObjectLiteral
             [PPropertyAssignment (PNIdentifier "health")
                (EObjectLiteral
                   [PPropertyAssignment (PNIdentifier "method") ETrue;
                    PPropertyAssignment (PNIdentifier "path")
                                        (EStringLiteral "/health")])])] []].

(** The record [extractRouteInfo] gives for its route. *)
Definition boolean_method_info : RouteInfo.t :=
  {| RouteInfo.method := VBool true;
     RouteInfo.path := VStr "/health";
     RouteInfo.summary := VUndefined;
     RouteInfo.fullPath := VStr "/health" |}.

(** A decorator [@TsRestHandler(c.<route>)] on a line. *)
Definition handler_at (line : nat) (route : string)
  : AstParser.HandlerDecoratorInfo :=
  {| AstParser.position := {| AstParser.line := line;
                              AstParser.character := 2 |};
     AstParser.line_ := line;
     AstParser.contractReference := "c";
     AstParser.contractPropertyPath := [route];
     AstParser.range := ({| AstParser.line := line;
                            AstParser.character := 2 |},
                         {| AstParser.line := line;
                            AstParser.character := 30 |}) |}.

(** A decoration that stems from one of the resolved decorators of a
    list: it carries the non-empty text of the route and lies, with an
    empty range, at the end of the line of the decorator. *)
Definition decoration_from (toStringOther : value -> result string)
           (lineLength : nat -> result nat)
           (config : RouteAnnotationProvider.AnnotationConfig)
           (sources : list (AstParser.HandlerDecoratorInfo
                            * RouteAnnotationProvider.settled))
           (decoration : RouteAnnotationProvider.DecorationOptions) : Prop :=
  exists decorator routeInfo length,
    In (decorator, RouteAnnotationProvider.Fulfilled (Some routeInfo))
       sources
    /\ RouteAnnotationProvider.formatAnnotationText toStringOther config
         routeInfo
       = Ok (RouteAnnotationProvider.contentText decoration)
    /\ RouteAnnotationProvider.contentText decoration <> ""
    /\ lineLength (AstParser.line_ decorator) = Ok length
    /\ RouteAnnotationProvider.range decoration
       = ({| AstParser.line := AstParser.line_ decorator;
             AstParser.character := length |},
          {| AstParser.line := AstParser.line_ decorator;
             AstParser.character := length |}).

(** A host in which every file has the text of [verb_contract]; a
    workspace without any file; the import table of
    [import c from './posts.contract']. *)
Definition open_verb (p : string) : option node := Some verb_contract.

Definition no_file (p : string) : bool := false.

Definition import_c : AstImports.imports :=
  [("c", default_binding "./posts.contract")].

Definition no_metrics : RouteAnnotationProvider.PerformanceMetrics :=
  {| RouteAnnotationProvider.cacheHits := 0;
     RouteAnnotationProvider.cacheMisses := 0 |}.

(** The route of [createPost] in [verb_contract], which has no prefix. *)
Definition createPost_route : RouteInfo.t :=
  {| RouteInfo.method := VStr "POST";
     RouteInfo.path := VStr "/";
     RouteInfo.summary := VStr "Create a new post";
     RouteInfo.fullPath := VStr "/" |}.

(** The caches after the first resolution of [createPost] from
    [/ws/src/posts.controller.ts], parsed at time 10 and stored at 20. *)
Definition resolved_once : RouteAnnotationProvider.caches :=
  ([("/ws/src/posts.controller.ts:3:c:createPost",
     {| RouteAnnotationProvider.routeInfo := createPost_route;
        RouteAnnotationProvider.timestamp := 20;
        RouteAnnotationProvider.fileVersion := 1 |})],
   [("/ws/src/posts.contract/index.ts",
     {| ContractCache.filePath := "/ws/src/posts.contract/index.ts";
        ContractCache.exports := extractExports verb_contract;
        ContractCache.lastModified := 10 |})]).

(* ------------------------------------------------------------------ *)
(** ** The links of the code lenses

    [buildTestUrl] and [buildApiUrl] of [TsRestCodeLensProvider].  What
    [getAppHost] returned is the argument [appHost]. *)

Module CodeLensUrls.

(** [s.replace(/:([^/]+)/g, '{$1}')], as a scan from left to right.
    [inside] says that the scan is within a match, after its colon: a match
    starts at a colon that is followed by a character other than [/], and
    extends up to the next [/] or to the end of the text. *)
Fixpoint replaceParams_from (inside : bool) (s : string) : string :=
  match s with
  | EmptyString => if inside then "}" else ""
  | String c r =>
      if inside then
        if Ascii.eqb c "/"%char
        then String "}"%char (String c (replaceParams_from false r))
        else String c (replaceParams_from true r)
      else if Ascii.eqb c ":"%char then
        match r with
        | EmptyString => String c EmptyString
        | String d _ =>
            if Ascii.eqb d "/"%char
            then String c (replaceParams_from false r)
            else String "{"%char (replaceParams_from true r)
        end
      else String c (replaceParams_from false r)
  end.

Definition replaceParams (s : string) : string := replaceParams_from false s.

(** [appHost.replace(/\/$/, '')]. *)
Definition cleanHost (appHost : string) : string :=
  if Str.endsWithChar appHost "/"%char then Str.dropLast appHost
  else appHost.

(** The method calls on fields of a route, which raise on a value that is
    not a string. *)
Definition call_toLowerCase (v : value) : result string :=
  match v with VStr s => Ok (Str.toLowerCase s) | _ => Thrown end.

Definition call_replaceParams (v : value) : result string :=
  match v with VStr s => Ok (replaceParams s) | _ => Thrown end.

Definition call_endsWithSlash (v : value) : result bool :=
  match v with VStr s => Ok (Str.endsWithChar s "/"%char) | _ => Thrown end.

Definition buildTestUrl (appHost : option string) (routeInfo : RouteInfo.t)
           (openApiTag : option string) : option string :=
  match appHost, openApiTag with
  | Some host, Some tag =>
      if Str.isEmpty host || Str.isEmpty tag
         || negb (truthy (RouteInfo.method routeInfo))
         || negb (truthy (RouteInfo.fullPath routeInfo))
      then None
      else
        catch_null
          (httpAdverb <- call_toLowerCase (RouteInfo.method routeInfo) ;;
           endpoint <- call_replaceParams (RouteInfo.fullPath routeInfo) ;;
           let baseUrl := String.append (cleanHost host) "/api-docs" in
           endsWithSlash <- call_endsWithSlash (RouteInfo.path routeInfo) ;;
           let trailingSlash := if endsWithSlash : bool then "/" else "" in
           let fragment :=
             String.append "tag/"
               (String.append tag
                  (String.append "/"
                     (String.append httpAdverb
                        (String.append endpoint trailingSlash)))) in
           Ok (Some (String.append baseUrl (String.append "#" fragment))))
  | _, _ => None
  end.

Section Language.

Variable toStringOther : value -> result string.

Definition buildApiUrl (appHost : option string) (routeInfo : RouteInfo.t)
  : option string :=
  match appHost with
  | Some host =>
      if Str.isEmpty host || negb (truthy (RouteInfo.fullPath routeInfo))
      then None
      else
        catch_null
          (endsWithSlash <- call_endsWithSlash (RouteInfo.path routeInfo) ;;
           let trailingSlash := if endsWithSlash : bool then "/" else "" in
           fullPath <- RouteAnnotationProvider.toStringJS toStringOther
                         (RouteInfo.fullPath routeInfo) ;;
           Ok (Some (String.append (cleanHost host)
                       (String.append fullPath trailingSlash))))
  | None => None
  end.

End Language.

End CodeLensUrls.

(** No character of a text is the given one. *)
Fixpoint without (c : ascii) (s : string) : bool :=
  match s with
  | EmptyString => true
  | String a r => negb (Ascii.eqb a c) && without c r
  end.

(** The route of [{ method: 'GET', path: '/users/' }] at a place without a
    prefix. *)
Definition users_route : RouteInfo.t :=
  {| RouteInfo.method := VStr "GET";
     RouteInfo.path := VStr "/users/";
     RouteInfo.summary := VUndefined;
     RouteInfo.fullPath := VStr "/users/" |}.

(** The text [combinePaths] composes from a prefix and a route path that
    are strings. *)
Definition composed_path (pathPrefix routePath : string) : string :=
  if Str.isEmpty pathPrefix
  then (if Str.isEmpty routePath then "/" else routePath)
  else if Str.isEmpty routePath || String.eqb routePath "/"
  then pathPrefix
  else
    let normalizedPrefix := ensure_leading_slash pathPrefix in
    let normalizedRoute := ensure_leading_slash routePath in
    String.append
      (if Str.endsWithChar normalizedPrefix "/"%char
          && negb (String.eqb normalizedRoute "/")
       then Str.dropLast normalizedPrefix
       else normalizedPrefix)
      normalizedRoute.

(* ------------------------------------------------------------------ *)
(** ** The code lenses of service files

    [provideCodeLenses] of [ReplCodeLensProvider].  The syntax tree keeps
    the node kinds the visitor tells apart; of a class declaration, the
    children that [forEachChild] visits before the members are kept apart
    from the members. *)

Module ReplCodeLensProvider.

Inductive modifierKind : Type :=
| StaticKeyword
| OtherModifier.

(** The name of a class member: an identifier, with the offset at which it
    starts, or another kind of name. *)
Inductive memberName : Type :=
| Identifier (text : string) (start : nat)
| OtherName.

Inductive node : Type :=
| NClassDeclaration (name : option string) (children : list node)
                    (members : list node)
| NMethodDeclaration (modifiers : list modifierKind) (name : memberName)
                     (children : list node)
| NOther (children : list node).

Record CodeLens : Type := {
  range : AstParser.Position * AstParser.Position;
  title : string;
  command : string;
  arguments : string * string
}.

(** [s.endsWith(suffix)]. *)
Fixpoint endsWith (s suffix : string) : bool :=
  if String.eqb s suffix then true
  else match s with
       | EmptyString => false
       | String _ r => endsWith r suffix
       end.

Definition isStatic (modifier : modifierKind) : bool :=
  match modifier with
  | StaticKeyword => true
  | OtherModifier => false
  end.

Section Document.

Variable positionAt : nat -> AstParser.Position.

(** The lens of the method [methodName] of the class [className]. *)
Definition runInRepl (className methodName : string) (start : nat)
  : CodeLens :=
  {| range := (positionAt start, positionAt start);
     title := "Run in REPL";
     command := "tsRestAnnotations.runInRepl";
     arguments := (className, methodName) |}.

(** One turn of [node.members.forEach]. *)
Definition forMember (className : string) (codeLenses : list CodeLens)
           (member : node) : list CodeLens :=
  match member with
  | NMethodDeclaration modifiers (Identifier methodName start) _ =>
      if negb (String.eqb methodName "constructor")
         && negb (List.existsb isStatic modifiers)
      then codeLenses ++ [runInRepl className methodName start]
      else codeLenses
  | _ => codeLenses
  end.

Fixpoint visit (n : node) (codeLenses : list CodeLens) : list CodeLens :=
  let each :=
    fix each (ns : list node) (codeLenses : list CodeLens) :=
      match ns with
      | [] => codeLenses
      | c :: r => each r (visit c codeLenses)
      end in
  match n with
  | NClassDeclaration name children members =>
      let codeLenses :=
        match name with
        | Some className => fold_left (forMember className) members codeLenses
        | None => codeLenses
        end in
      each members (each children codeLenses)
  | NMethodDeclaration _ _ children => each children codeLenses
  | NOther children => each children codeLenses
  end.

Definition provideCodeLenses (fileName : string) (sourceFile : node)
  : list CodeLens :=
  if negb (endsWith fileName ".service.ts") then []
  else visit sourceFile [].

End Document.

End ReplCodeLensProvider.

(** The nodes of a tree, each before its descendants, in the order of
    [forEachChild]. *)
Fixpoint preorder (n : ReplCodeLensProvider.node)
  : list ReplCodeLensProvider.node :=
  let each :=
    fix each (ns : list ReplCodeLensProvider.node) :=
      match ns with
      | [] => []
      | c :: r => preorder c ++ each r
      end in
  n :: match n with
       | ReplCodeLensProvider.NClassDeclaration _ children members =>
           each children ++ each members
       | ReplCodeLensProvider.NMethodDeclaration _ _ children =>
           each children
       | ReplCodeLensProvider.NOther children => each children
       end.

(** An instance method with an identifier as name, other than
    [constructor]. *)
Definition instance_method (member : ReplCodeLensProvider.node)
  : option (string * nat) :=
  match member with
  | ReplCodeLensProvider.NMethodDeclaration modifiers
      (ReplCodeLensProvider.Identifier methodName start) _ =>
      if negb (String.eqb methodName "constructor")
         && negb (List.existsb ReplCodeLensProvider.isStatic modifiers)
      then Some (methodName, start)
      else None
  | _ => None
  end.

(** The lenses of the members of a named class declaration. *)
Definition lenses_at (positionAt : nat -> AstParser.Position)
           (n : ReplCodeLensProvider.node)
  : list ReplCodeLensProvider.CodeLens :=
  match n with
  | ReplCodeLensProvider.NClassDeclaration (Some className) _ members =>
      List.flat_map
        (fun member =>
           match instance_method member with
           | Some (methodName, start) =>
               [ReplCodeLensProvider.runInRepl positionAt className
                  methodName start]
           | None => []
           end)
        members
  | _ => []
  end.

(** [class UserService { static create() {} find() { class Row { get() {} } }
    save() {} }]. *)
Definition user_service : ReplCodeLensProvider.node :=
  ReplCodeLensProvider.NOther
    [ReplCodeLensProvider.NClassDeclaration (Some "UserService") []
       [ReplCodeLensProvider.NMethodDeclaration
          [ReplCodeLensProvider.StaticKeyword]
          (ReplCodeLensProvider.Identifier "create" 30) [];
        ReplCodeLensProvider.NMethodDeclaration []
          (ReplCodeLensProvider.Identifier "find" 50)
          [ReplCodeLensProvider.NOther
             [ReplCodeLensProvider.NClassDeclaration (Some "Row") []
                [ReplCodeLensProvider.NMethodDeclaration []
                   (ReplCodeLensProvider.Identifier "get" 70) []]]];
        ReplCodeLensProvider.NMethodDeclaration []
          (ReplCodeLensProvider.Identifier "save" 90) []]].







(* ================================================================== *)
(** * Properties *)

(* ------------------------------------------------------------------ *)
(** ** Own properties, [get] and [set] *)

Ltac case_eqb a b :=
  let E := fresh "E" in
  destruct (String.eqb a b) eqn:E;
  [apply String.eqb_eq in E; try subst | apply String.eqb_neq in E].

Lemma own_lookup_app (k : string) (ps qs : props) :
  own_lookup k (ps ++ qs) =
  match own_lookup k ps with
  | Some v => Some v
  | None => own_lookup k qs
  end.
Proof.
  induction ps as [|[k' v'] ps IH]; simpl; [reflexivity|].
  destruct (String.eqb k k'); [reflexivity | exact IH].
Qed.

Lemma own_lookup_replace_own_same (k : string) (v : value) (ps : props) :
  own_lookup k ps <> None -> own_lookup k (replace_own k v ps) = Some v.
Proof.
  induction ps as [|[k' v'] ps IH]; simpl; [congruence|].
  destruct (String.eqb k k') eqn:E; simpl; rewrite E; auto.
Qed.

Lemma own_lookup_replace_own_other (k k' : string) (v : value) (ps : props) :
  k <> k' -> own_lookup k (replace_own k' v ps) = own_lookup k ps.
Proof.
  intros Hne. induction ps as [|[k1 v1] ps IH]; simpl; [reflexivity|].
  case_eqb k' k1; simpl.
  - apply String.eqb_neq in Hne. rewrite Hne. reflexivity.
  - rewrite IH. reflexivity.
Qed.

Lemma own_lookup_insert_index_same (i : N) (k : string) (v : value) (ps : props) :
  own_lookup k ps = None -> own_lookup k (insert_index i k v ps) = Some v.
Proof.
  induction ps as [|[k' v'] ps IH]; simpl; intros H.
  - rewrite String.eqb_refl. reflexivity.
  - destruct (String.eqb k k') eqn:E; [discriminate|].
    destruct (array_index k') as [j|]; [destruct (j <? i)%N|]; simpl;
      rewrite ?E, ?String.eqb_refl; auto.
Qed.

Lemma own_lookup_insert_index_other (i : N) (k k' : string) (v : value)
      (ps : props) :
  k <> k' -> own_lookup k (insert_index i k' v ps) = own_lookup k ps.
Proof.
  intros Hne. apply String.eqb_neq in Hne.
  induction ps as [|[k1 v1] ps IH]; simpl.
  - rewrite Hne. reflexivity.
  - destruct (array_index k1) as [j|]; [destruct (j <? i)%N|]; simpl;
      rewrite ?Hne, ?IH; reflexivity.
Qed.

Lemma own_lookup_add_own_same (k : string) (v : value) (ps : props) :
  own_lookup k ps = None -> own_lookup k (add_own k v ps) = Some v.
Proof.
  intros H. unfold add_own. destruct (array_index k).
  - apply own_lookup_insert_index_same, H.
  - rewrite own_lookup_app, H. simpl. rewrite String.eqb_refl. reflexivity.
Qed.

Lemma own_lookup_add_own_other (k k' : string) (v : value) (ps : props) :
  k <> k' -> own_lookup k (add_own k' v ps) = own_lookup k ps.
Proof.
  intros Hne. unfold add_own. destruct (array_index k').
  - apply own_lookup_insert_index_other, Hne.
  - rewrite own_lookup_app. simpl.
    apply String.eqb_neq in Hne. rewrite Hne.
    destruct (own_lookup k ps); reflexivity.
Qed.

(** Only the key [__proto__] meets the accessor. *)
Lemma lookup_chain_accessor (o : value) (k : string) :
  lookup_chain o k = ProtoAccessor -> k = "__proto__".
Proof.
  induction o; cbn [lookup_chain]; intros H; try discriminate H.
  - destruct (mem_string k object_prototype_functions); [discriminate H|].
    case_eqb k "__proto__"; [reflexivity | discriminate H].
  - destruct (own_lookup k props0); [discriminate H | auto].
Qed.

(** [set] keeps an object an object. *)
Lemma set_is_obj (proto : value) (ps : props) (k : string) (v : value) :
  exists proto' ps', set (VObj proto ps) k v = VObj proto' ps'.
Proof.
  simpl. destruct (own_lookup k ps); [eauto|].
  destruct (lookup_chain proto k); eauto.
  destruct (object_or_null v); eauto.
Qed.

Lemma own_lookup_set_same (proto : value) (ps : props) (k : string) (v : value) :
  k <> "__proto__" ->
  own_lookup k (entries (set (VObj proto ps) k v)) = Some v.
Proof.
  intros Hk. simpl. destruct (own_lookup k ps) eqn:E.
  - simpl. apply own_lookup_replace_own_same. congruence.
  - destruct (lookup_chain proto k) eqn:L; simpl;
      try (apply own_lookup_add_own_same, E).
    apply lookup_chain_accessor in L. contradiction.
Qed.

(** An own property, once there, is overwritten whatever its name. *)
Lemma own_lookup_set_present (proto : value) (ps : props) (k : string)
      (v : value) :
  own_lookup k ps <> None ->
  own_lookup k (entries (set (VObj proto ps) k v)) = Some v.
Proof.
  intros H. simpl. destruct (own_lookup k ps) eqn:E; [|congruence].
  simpl. apply own_lookup_replace_own_same. congruence.
Qed.

Lemma own_lookup_set_other (o : value) (k k' : string) (v : value) :
  k <> k' -> own_lookup k (entries (set o k' v)) = own_lookup k (entries o).
Proof.
  intros Hne. destruct o; try reflexivity. simpl.
  destruct (own_lookup k' props0).
  - simpl. apply own_lookup_replace_own_other, Hne.
  - destruct (lookup_chain o k'); simpl;
      try (apply own_lookup_add_own_other, Hne).
    destruct (object_or_null v); reflexivity.
Qed.

(** An own property decides [get]. *)
Lemma get_own (proto : value) (ps : props) (k : string) (v : value) :
  own_lookup k ps = Some v -> get (VObj proto ps) k = v.
Proof. intros H. unfold get. simpl. rewrite H. reflexivity. Qed.

(* ------------------------------------------------------------------ *)
(** ** Path composition *)

Lemma isEmpty_false (s : string) : s <> "" -> Str.isEmpty s = false.
Proof. destruct s; [congruence | reflexivity]. Qed.

Lemma isEmpty_true (s : string) : Str.isEmpty s = true -> s = "".
Proof. destruct s; [reflexivity | discriminate]. Qed.

Lemma ensure_leading_slash_not_root (route : string) :
  route <> "" -> route <> "/" -> ensure_leading_slash route <> "/".
Proof.
  intros Hne Hroot. unfold ensure_leading_slash.
  destruct (Str.startsWith route "/"); [assumption|].
  destruct route; [congruence | discriminate].
Qed.

(** A normalised path starts with a separator. *)
Lemma ensure_leading_slash_starts (s : string) :
  Str.startsWith (ensure_leading_slash s) "/" = true.
Proof.
  unfold ensure_leading_slash.
  destruct (Str.startsWith s "/") eqn:E; [exact E | reflexivity].
Qed.

(** Stripping takes off exactly one character, and only a separator. *)
Lemma dropLast_endsWithChar (s : string) (c : ascii) :
  Str.endsWithChar s c = true ->
  s = String.append (Str.dropLast s) (String c "").
Proof.
  induction s as [|a s IH]; simpl; [discriminate|].
  destruct s as [|b s'].
  - intros H. apply Ascii.eqb_eq in H. subst. reflexivity.
  - intros H. simpl in IH. simpl. f_equal. apply IH, H.
Qed.

Lemma strip_trailing_slash_spec (s : string) :
  (Str.endsWithChar s "/"%char = true /\
   s = String.append (strip_trailing_slash s) "/")
  \/ (Str.endsWithChar s "/"%char = false /\ strip_trailing_slash s = s).
Proof.
  unfold strip_trailing_slash.
  destruct (Str.endsWithChar s "/"%char) eqn:E; [left | right]; split; auto.
  apply dropLast_endsWithChar, E.
Qed.

(** C4. Path composition on strings: with an empty prefix the result is the
    route path, or [/] when that is empty; with a non-empty prefix and a
    route path that is empty or exactly [/] the result is the prefix
    unchanged; otherwise both are made to start with [/], one trailing [/]
    of the prefix is stripped, and the two are concatenated.  In particular
    the prefix [/posts/] and the route path [/comments] compose to
    [/posts/comments]. *)
Theorem combinePaths_composition (pathPrefix routePath : string) :
  (pathPrefix = "" ->
   combinePaths (VStr pathPrefix) (VStr routePath)
   = Ok (VStr (if Str.isEmpty routePath then "/" else routePath)))
  /\ (pathPrefix <> "" -> routePath = "" \/ routePath = "/" ->
      combinePaths (VStr pathPrefix) (VStr routePath) = Ok (VStr pathPrefix))
  /\ (pathPrefix <> "" -> routePath <> "" -> routePath <> "/" ->
      combinePaths (VStr pathPrefix) (VStr routePath)
      = Ok (VStr (String.append
                    (strip_trailing_slash (ensure_leading_slash pathPrefix))
                    (ensure_leading_slash routePath))))
  /\ combinePaths (VStr "/posts/") (VStr "/comments")
     = Ok (VStr "/posts/comments").
Proof.
  repeat split.
  - intros ->. unfold combinePaths, jor. simpl.
    destruct routePath; reflexivity.
  - intros Hp [-> | ->]; unfold combinePaths; simpl;
      rewrite (isEmpty_false Hp); reflexivity.
  - intros Hp Hr Hroot. unfold combinePaths. cbn [truthy].
    rewrite (isEmpty_false Hp), (isEmpty_false Hr). cbn [negb orb].
    apply String.eqb_neq in Hroot as Hroot'. rewrite Hroot'.
    change (if Str.startsWith pathPrefix "/" then pathPrefix
            else String.append "/" pathPrefix)
      with (ensure_leading_slash pathPrefix).
    change (if Str.startsWith routePath "/" then routePath
            else String.append "/" routePath)
      with (ensure_leading_slash routePath).
    pose proof (ensure_leading_slash_not_root Hr Hroot) as Hn.
    apply String.eqb_neq in Hn. rewrite Hn, andb_true_r.
    reflexivity.
Qed.

(** C4 on three pairs of prefix and route path. *)
Lemma combinePaths_composition_witness :
  combinePaths (VStr "") (VStr "") = Ok (VStr "/")
  /\ combinePaths (VStr "/posts") (VStr "/") = Ok (VStr "/posts")
  /\ combinePaths (VStr "api/") (VStr "users") = Ok (VStr "/api/users").
Proof.
  split; [|split].
  - exact (proj1 (combinePaths_composition "" "") eq_refl).
  - apply (proj1 (proj2 (combinePaths_composition "/posts" "/"))).
    + discriminate.
    + right. reflexivity.
  - apply (proj1 (proj2 (proj2 (combinePaths_composition "api/" "users"))));
      discriminate.
Defined.

(* ------------------------------------------------------------------ *)
(** ** Module resolution *)

Lemma probe_find (stat_ok : string -> bool) (candidate : string -> string)
      (exts : list string) :
  probe stat_ok candidate exts = List.find stat_ok (List.map candidate exts).
Proof.
  induction exts as [|ext exts IH]; simpl; [reflexivity|].
  destruct (stat_ok (candidate ext)); [reflexivity | exact IH].
Qed.

Lemma find_append {A : Type} (f : A -> bool) (l1 l2 : list A) :
  List.find f (l1 ++ l2) =
  match List.find f l1 with
  | Some x => Some x
  | None => List.find f l2
  end.
Proof.
  induction l1 as [|a l1 IH]; simpl; [reflexivity|].
  destruct (f a); [reflexivity | exact IH].
Qed.

(** C6. Only a specifier that begins with the relative-path marker is
    resolved, every other one gives none; the candidates are probed in the
    fixed order specifier + [.ts], [.tsx], [.js], [.jsx] and only then the
    index files with the same extensions, the first one that exists winning;
    so when no specifier + extension candidate exists and the [index.ts]
    under the specifier does, the result is that index file. *)
Theorem resolveImportPath_order
        (dirname : string -> string) (resolve join : string -> string -> string)
        (stat_ok : string -> bool) (importPath fromFile : string) :
  let resolvedPath := resolve (dirname fromFile) importPath in
  (Str.startsWith importPath "." = false ->
   resolveImportPath dirname resolve join stat_ok importPath fromFile = None)
  /\ (Str.startsWith importPath "." = true ->
      resolveImportPath dirname resolve join stat_ok importPath fromFile
      = List.find stat_ok (candidates join resolvedPath))
  /\ (Str.startsWith importPath "." = true ->
      (forall ext, In ext extensions ->
                   stat_ok (String.append resolvedPath ext) = false) ->
      stat_ok (join resolvedPath "index.ts") = true ->
      resolveImportPath dirname resolve join stat_ok importPath fromFile
      = Some (join resolvedPath "index.ts")).
Proof.
  intros resolvedPath.
  assert (Hfind : Str.startsWith importPath "." = true ->
                  resolveImportPath dirname resolve join stat_ok
                                    importPath fromFile
                  = List.find stat_ok (candidates join resolvedPath)).
  { intros Hrel. unfold resolveImportPath. rewrite Hrel.
    fold resolvedPath. rewrite !probe_find.
    change (candidates join resolvedPath)
      with (List.map (fun ext => String.append resolvedPath ext) extensions
            ++ List.map (fun ext => join resolvedPath
                                         (String.append "index" ext))
                        extensions).
    rewrite find_append. reflexivity. }
  split; [|split].
  - intros Hrel. unfold resolveImportPath. rewrite Hrel. reflexivity.
  - exact Hfind.
  - intros Hrel Habsent Hindex. rewrite (Hfind Hrel).
    unfold candidates, List.find.
    rewrite !Habsent by (simpl; tauto).
    rewrite Hindex. reflexivity.
Qed.

(** C6 on the worked example: [./posts.contract] imported from
    [/ws/src/posts.controller.ts] resolves to the index file. *)
Lemma resolveImportPath_order_witness :
  resolveImportPath PosixPath.dirname PosixPath.resolve PosixPath.join
                    only_index "./posts.contract" "/ws/src/posts.controller.ts"
  = Some "/ws/src/posts.contract/index.ts".
Proof.
  apply (proj2 (proj2 (resolveImportPath_order
                         PosixPath.dirname PosixPath.resolve PosixPath.join
                         only_index "./posts.contract"
                         "/ws/src/posts.controller.ts"))).
  - reflexivity.
  - intros ext Hin. simpl in Hin.
    destruct Hin as [<- | [<- | [<- | [<- | []]]]]; reflexivity.
  - reflexivity.
Defined.

(* ------------------------------------------------------------------ *)
(** ** The empty property path *)

Lemma findRouteInContract_nil (contractObj : value) :
  findRouteInContract contractObj [] = VNull.
Proof.
  unfold findRouteInContract. simpl. rewrite orb_true_r. reflexivity.
Qed.



(* ------------------------------------------------------------------ *)
(** ** Decorator extraction *)

Section DecoratorFacts.

Variable positionAt : nat -> AstParser.Position.

Lemma collect_app (ds1 ds2 : list AstParser.Decorator) :
  collect positionAt (ds1 ++ ds2)
  = collect positionAt ds1 ++ collect positionAt ds2.
Proof. apply List.flat_map_app. Qed.

Lemma collect_skip (before after : list AstParser.Decorator)
      (d : AstParser.Decorator) :
  AstParser.analyzeDecorator positionAt d = None ->
  collect positionAt (before ++ d :: after)
  = collect positionAt (before ++ after).
Proof.
  intros H. rewrite !collect_app. f_equal.
  unfold collect. simpl. rewrite H. reflexivity.
Qed.

Lemma processMethodDecorators_collect (modifiers : list AstParser.modifierLike) :
  forall decorators,
    AstParser.processMethodDecorators positionAt modifiers decorators
    = decorators ++ collect positionAt (decorators_of modifiers).
Proof.
  induction modifiers as [|[d|] r IH]; intros decorators; simpl.
  - rewrite app_nil_r. reflexivity.
  - rewrite IH. unfold collect at 2. simpl. fold (collect positionAt).
    destruct (AstParser.analyzeDecorator positionAt d).
    + rewrite <- app_assoc. reflexivity.
    + reflexivity.
  - apply IH.
Qed.

(** The visitor adds, to what it was given, what each decorator below the
    node contributes on its own, in order. *)
Lemma visitor_collect (n : AstParser.node) :
  forall decorators,
    AstParser.visitor positionAt n decorators
    = decorators ++ collect positionAt (all_decorators n).
Proof.
  revert n. fix visitor_collect 1. intros n.
  assert (Hbelow : forall children decorators,
             (fix each (ns : list AstParser.node)
                  (decorators : list AstParser.HandlerDecoratorInfo) :=
                match ns with
                | [] => decorators
                | c :: r => each r (AstParser.visitor positionAt c decorators)
                end) children decorators
             = decorators
               ++ collect positionAt
                    ((fix below (ns : list AstParser.node) :=
                        match ns with
                        | [] => []
                        | c :: r => all_decorators c ++ below r
                        end) children)).
  { induction children as [|c r IH]; intros decorators.
    - simpl. rewrite app_nil_r. reflexivity.
    - rewrite IH, visitor_collect, collect_app, app_assoc. reflexivity. }
  destruct n as [modifiers children | children]; intros decorators; simpl.
  - rewrite Hbelow, processMethodDecorators_collect, collect_app, app_assoc.
    reflexivity.
  - apply Hbelow.
Qed.

End DecoratorFacts.

(** C8. A handler-decorator call whose single argument ends, below its
    property accesses, in something other than a plain identifier is
    skipped (the result is none), and so is a decorator that is not a call
    or whose call has no or several arguments; the decorators of a file
    contribute one by one, so a skipped one leaves the others as they are. *)
Theorem analyzeDecorator_silent_skip (positionAt : nat -> AstParser.Position) :
  (forall d callee argument,
      AstParser.expression d = ECall callee [argument] ->
      (forall text, fst (AstParser.walk argument []) <> EIdentifier text) ->
      AstParser.analyzeDecorator positionAt d = None)
  /\ (forall d,
         (forall callee arguments,
             AstParser.expression d <> ECall callee arguments) ->
         AstParser.analyzeDecorator positionAt d = None)
  /\ (forall d callee arguments,
         AstParser.expression d = ECall callee arguments ->
         List.length arguments <> 1 ->
         AstParser.analyzeDecorator positionAt d = None)
  /\ (forall sourceFile,
         AstParser.extractDecorators positionAt sourceFile
         = collect positionAt (all_decorators sourceFile))
  /\ (forall before d after,
         AstParser.analyzeDecorator positionAt d = None ->
         collect positionAt (before ++ d :: after)
         = collect positionAt (before ++ after)).
Proof.
  split; [|split; [|split; [|split]]].
  - intros d callee argument He Hbase.
    unfold AstParser.analyzeDecorator. rewrite He.
    destruct (AstParser.isTsRestHandlerDecorator callee); [|reflexivity].
    simpl. unfold AstParser.extractContractReference.
    destruct (AstParser.walk argument []) as [base propertyPath].
    simpl in Hbase. destruct base; try reflexivity.
    exfalso. exact (Hbase _ eq_refl).
  - intros d Hshape. unfold AstParser.analyzeDecorator.
    destruct (AstParser.expression d) eqn:He; try reflexivity.
    exfalso. exact (Hshape _ _ eq_refl).
  - intros d callee arguments He Hlen.
    unfold AstParser.analyzeDecorator. rewrite He.
    destruct (AstParser.isTsRestHandlerDecorator callee); [|reflexivity].
    apply Nat.eqb_neq in Hlen. rewrite Hlen. reflexivity.
  - intros sourceFile. unfold AstParser.extractDecorators.
    rewrite visitor_collect. reflexivity.
  - intros before d after. apply collect_skip.
Qed.

(** [@TsRestHandler(getContract().posts)], [@Injectable] and
    [@TsRestHandler()] are skipped; next to [@TsRestHandler(c.createPost)]
    they change nothing. *)
Lemma analyzeDecorator_silent_skip_witness :
  AstParser.analyzeDecorator origin
    (decorator_at 0 (ECall (EIdentifier "TsRestHandler")
                           [EPropertyAccess (ECall (EIdentifier "getContract") [])
                                            "posts"])) = None
  /\ AstParser.analyzeDecorator origin
       (decorator_at 0 (EIdentifier "Injectable")) = None
  /\ AstParser.analyzeDecorator origin
       (decorator_at 0 (ECall (EIdentifier "TsRestHandler") [])) = None
  /\ collect origin
       ([] ++ decorator_at 0 (EIdentifier "Injectable")
           :: [decorator_at 9
                 (ECall (EIdentifier "TsRestHandler")
                        [EPropertyAccess (EIdentifier "c") "createPost"])])
     = collect origin
         ([] ++ [decorator_at 9
                   (ECall (EIdentifier "TsRestHandler")
                          [EPropertyAccess (EIdentifier "c") "createPost"])]).
Proof.
  destruct (analyzeDecorator_silent_skip origin) as (H1 & H2 & H3 & _ & H5).
  split; [|split; [|split]].
  - eapply H1; [reflexivity|]. simpl. discriminate.
  - apply H2. simpl. discriminate.
  - eapply H3; [reflexivity|]. simpl. discriminate.
  - apply H5. reflexivity.
Defined.

(* ------------------------------------------------------------------ *)
(** ** Objects built by the evaluator *)

Lemma own_lookup_none_iff (k : string) (ps : props) :
  own_lookup k ps = None <-> ~ In k (List.map fst ps).
Proof.
  induction ps as [|[k' v'] ps IH]; simpl; [tauto|].
  case_eqb k k'.
  - split; [discriminate | intros H; exfalso; apply H; left; reflexivity].
  - rewrite IH. split; [intros H [H'|H']; [congruence | tauto] | tauto].
Qed.

Lemma replace_own_keys (k : string) (v : value) (ps : props) :
  List.map fst (replace_own k v ps) = List.map fst ps.
Proof.
  induction ps as [|[k' v'] ps IH]; simpl; [reflexivity|].
  destruct (String.eqb k k'); simpl; [reflexivity | rewrite IH; reflexivity].
Qed.

Lemma insert_index_perm (i : N) (k : string) (v : value) (ps : props) :
  Permutation ((k, v) :: ps) (insert_index i k v ps).
Proof.
  induction ps as [|[k' v'] ps IH]; simpl; [apply Permutation_refl|].
  destruct (array_index k') as [j|]; [destruct (j <? i)%N|];
    try apply Permutation_refl.
  eapply perm_trans; [apply perm_swap | apply perm_skip, IH].
Qed.

Lemma add_own_perm (k : string) (v : value) (ps : props) :
  Permutation ((k, v) :: ps) (add_own k v ps).
Proof.
  unfold add_own. destruct (array_index k).
  - apply insert_index_perm.
  - apply Permutation_cons_append.
Qed.

Lemma set_distinct_keys (o : value) (k : string) (v : value) :
  distinct_keys o -> distinct_keys (set o k v).
Proof.
  unfold distinct_keys. destruct o; simpl; auto.
  destruct (own_lookup k props0) eqn:E; simpl.
  - rewrite replace_own_keys. auto.
  - intros Hnd.
    assert (Hadd : NoDup (List.map fst (add_own k v props0))).
    { eapply Permutation_NoDup.
      - apply Permutation_map, add_own_perm.
      - simpl. constructor; [apply own_lookup_none_iff, E | exact Hnd]. }
    destruct (lookup_chain o k); simpl; auto.
    destruct (object_or_null v); simpl; auto.
Qed.

Lemma set_preserves_obj (o : value) (k : string) (v : value) :
  is_obj o -> is_obj (set o k v).
Proof. intros (proto & ps & ->). apply set_is_obj. Qed.

Lemma fold_set_distinct_keys (src : props) :
  forall t, distinct_keys t -> distinct_keys (fold_left set_entry src t).
Proof.
  induction src as [|[k v] src IH]; intros t Ht; simpl; [exact Ht|].
  apply IH, set_distinct_keys, Ht.
Qed.

Lemma fold_set_preserves_obj (src : props) :
  forall t, is_obj t -> is_obj (fold_left set_entry src t).
Proof.
  induction src as [|[k v] src IH]; intros t Ht; simpl; [exact Ht|].
  apply IH, set_preserves_obj, Ht.
Qed.

(** Keys the source does not have keep their own property. *)
Lemma fold_set_frame (k : string) (src : props) :
  ~ In k (List.map fst src) ->
  forall t, own_lookup k (entries (fold_left set_entry src t))
            = own_lookup k (entries t).
Proof.
  induction src as [|[k' v'] src IH]; intros Hnot t; simpl; [reflexivity|].
  simpl in Hnot. rewrite IH by tauto.
  apply own_lookup_set_other. intros ->. tauto.
Qed.

(** A key the source has ends as an own property with the source's value,
    whether it was there before or not. *)
Lemma fold_set_wins (k : string) (v : value) (src : props) :
  NoDup (List.map fst src) ->
  own_lookup k src = Some v ->
  forall t, is_obj t ->
            k <> "__proto__" \/ own_lookup k (entries t) <> None ->
            own_lookup k (entries (fold_left set_entry src t)) = Some v.
Proof.
  induction src as [|[k' v'] src IH]; intros Hnd Hk t Ht Hown;
    simpl in *; [discriminate|].
  inversion Hnd as [|? ? Hnotin Hnd']; subst.
  case_eqb k k'.
  - injection Hk as ->. rewrite fold_set_frame by exact Hnotin.
    destruct Ht as (proto & ps & ->).
    destruct Hown as [Hne | Hpresent].
    + apply own_lookup_set_same, Hne.
    + apply own_lookup_set_present, Hpresent.
  - apply IH; [exact Hnd' | exact Hk | apply set_preserves_obj, Ht |].
    destruct Hown as [Hne | Hpresent]; [left; exact Hne | right].
    unfold set_entry. simpl fst. simpl snd.
    rewrite own_lookup_set_other by exact E. exact Hpresent.
Qed.

Lemma get_own_entries (o : value) (k : string) (v : value) :
  is_obj o -> own_lookup k (entries o) = Some v -> get o k = v.
Proof. intros (proto & ps & ->). apply get_own. Qed.

Lemma assign_unfold (target src : value) :
  assign target src = fold_left set_entry (assign_source src) target.
Proof. reflexivity. Qed.

Lemma extractObjectLiteral_object (properties : list property) :
  extractObjectLiteral (EObjectLiteral properties)
  = evalProperties properties empty_object.
Proof. reflexivity. Qed.

Lemma extractObjectLiteral_call (expression : expr) (arguments : list expr) :
  extractObjectLiteral (ECall expression arguments)
  = if isRouterCall expression
    then extractRouterCall extractObjectLiteral arguments
    else if isTsRestMethodCall expression
    then extractTsRestMethodCall extractObjectLiteral expression arguments
    else VNull.
Proof. reflexivity. Qed.

Lemma evalProperties_distinct_keys (ps : list property) :
  forall obj, distinct_keys obj -> distinct_keys (evalProperties ps obj).
Proof.
  induction ps as [|[name init | name |] ps IH]; intros obj Hobj; simpl;
    auto; apply IH; destruct (usable_key _); auto using set_distinct_keys.
Qed.


Lemma distinct_keys_primitive (v : value) :
  entries v = [] -> distinct_keys v.
Proof. unfold distinct_keys. intros ->. constructor. Qed.

Lemma distinct_keys_singleton (proto : value) (k : string) (v : value) :
  distinct_keys (VObj proto [(k, v)]).
Proof.
  unfold distinct_keys. simpl. constructor; [simpl; tauto | constructor].
Qed.

Lemma verb_route_distinct_keys (name : string) :
  distinct_keys (verb_route name).
Proof.
  unfold distinct_keys. simpl.
  repeat constructor; simpl; intuition discriminate.
Qed.

Lemma verb_route_with_path_shape (name : string) (arguments : list expr) :
  is_obj (verb_route_with_path name arguments)
  /\ distinct_keys (verb_route_with_path name arguments)
  /\ own_lookup "method" (entries (verb_route_with_path name arguments))
     = Some (VStr (Str.toUpperCase name)).
Proof.
  unfold verb_route_with_path.
  destruct arguments as [|[] ?]; simpl;
    repeat split;
    try (eexists; eexists; reflexivity);
    try apply verb_route_distinct_keys;
    try (unfold distinct_keys; simpl;
         repeat constructor; simpl; intuition discriminate).
Qed.

Lemma extractTsRestMethodCall_unfold (target : expr) (name : string)
      (arguments : list expr) :
  extractTsRestMethodCall extractObjectLiteral
                          (EPropertyAccess target name) arguments
  = match arguments with
    | _ :: a1 :: _ =>
        if truthy (extractObjectLiteral a1)
        then assign (verb_route_with_path name arguments)
                    (extractObjectLiteral a1)
        else verb_route_with_path name arguments
    | _ => verb_route_with_path name arguments
    end.
Proof. reflexivity. Qed.

Lemma extractObjectLiteral_distinct_keys (e : expr) :
  distinct_keys (extractObjectLiteral e).
Proof.
  destruct e as [ps | text | n | | | callee arguments | e name | text | ];
    try (apply distinct_keys_primitive; reflexivity).
  - rewrite extractObjectLiteral_object.
    apply evalProperties_distinct_keys, distinct_keys_primitive. reflexivity.
  - rewrite extractObjectLiteral_call.
    destruct (isRouterCall callee).
    + unfold extractRouterCall.
      set (router := VObj VObjectPrototype [("__router", VBool true)]).
      assert (Hr : distinct_keys router) by apply distinct_keys_singleton.
      set (router1 := match arguments with
                      | [] => router
                      | a0 :: _ => _
                      end).
      assert (H1 : distinct_keys router1).
      { subst router1. destruct arguments as [|a0 ?]; [exact Hr|].
        destruct (truthy _); [|exact Hr].
        rewrite assign_unfold. apply fold_set_distinct_keys, Hr. }
      destruct arguments as [|a0 [|a1 ?]]; auto.
      destruct (truthy (extractObjectLiteral a1));
        auto using set_distinct_keys.
    + destruct (isTsRestMethodCall callee) eqn:Hm;
        [|apply distinct_keys_primitive; reflexivity].
      destruct callee as [| | | | | | target name | |]; try discriminate Hm.
      rewrite extractTsRestMethodCall_unfold.
      pose proof (verb_route_with_path_shape name arguments)
        as (_ & Hd & _).
      destruct arguments as [|a0 [|a1 ?]]; auto.
      destruct (truthy (extractObjectLiteral a1)); auto.
      rewrite assign_unfold. apply fold_set_distinct_keys, Hd.
Qed.

(* ------------------------------------------------------------------ *)
(** ** The HTTP-method call evaluator *)

Lemma verb_is_not_router (target : expr) (name : string) :
  isTsRestMethodCall (EPropertyAccess target name) = true ->
  isRouterCall (EPropertyAccess target name) = false.
Proof.
  simpl. case_eqb name "router"; [discriminate | reflexivity].
Qed.

Lemma extractObjectLiteral_verb_call (target : expr) (name : string)
      (arguments : list expr) :
  isTsRestMethodCall (EPropertyAccess target name) = true ->
  extractObjectLiteral (ECall (EPropertyAccess target name) arguments)
  = match arguments with
    | _ :: a1 :: _ =>
        if truthy (extractObjectLiteral a1)
        then assign (verb_route_with_path name arguments)
                    (extractObjectLiteral a1)
        else verb_route_with_path name arguments
    | _ => verb_route_with_path name arguments
    end.
Proof.
  intros Hverb. rewrite extractObjectLiteral_call.
  rewrite (verb_is_not_router _ _ Hverb), Hverb.
  apply extractTsRestMethodCall_unfold.
Qed.

(** A key written in an object literal is an own property of its value. *)
Lemma evalProperties_defines (key : string) (ps : list property) :
  key <> "__proto__" ->
  forall obj,
    is_obj obj ->
    own_lookup key (entries obj) <> None
    \/ (exists name init,
           In (PPropertyAssignment name init) ps
           /\ usable_key (getPropertyName name) = Some key) ->
    own_lookup key (entries (evalProperties ps obj)) <> None.
Proof.
  intros Hkey.
  induction ps as [|p ps IH]; intros obj Hobj Hsrc.
  - destruct Hsrc as [H | (? & ? & [] & _)]. exact H.
  - assert (Hstep : forall k v,
               own_lookup key (entries obj) <> None \/ k = key ->
               own_lookup key (entries (set obj k v)) <> None).
    { intros k v [Hown | ->].
      - case_eqb key k.
        + destruct Hobj as (proto & ps' & ->).
          rewrite own_lookup_set_same by exact Hkey. discriminate.
        + rewrite own_lookup_set_other by exact E. exact Hown.
      - destruct Hobj as (proto & ps' & ->).
        rewrite own_lookup_set_same by exact Hkey. discriminate. }
    destruct p as [name init | name |]; cbn [evalProperties].
    + destruct (usable_key (getPropertyName name)) as [k|] eqn:Ek.
      * apply IH; [apply set_preserves_obj, Hobj|].
        destruct Hsrc as [Hown | (name' & init' & [Heq | Hin] & Hk')].
        -- left. apply Hstep. left. exact Hown.
        -- injection Heq as -> ->. left. apply Hstep. right. congruence.
        -- right. eauto.
      * apply IH; [exact Hobj|].
        destruct Hsrc as [Hown | (name' & init' & [Heq | Hin] & Hk')].
        -- left. exact Hown.
        -- injection Heq as -> ->. congruence.
        -- right. eauto.
    + assert (Hrest : own_lookup key (entries obj) <> None
                      \/ (exists name' init',
                             In (PPropertyAssignment name' init') ps
                             /\ usable_key (getPropertyName name') = Some key)).
      { destruct Hsrc as [Hown | (name' & init' & [Heq | Hin] & Hk')];
          [left; exact Hown | discriminate Heq | right; eauto]. }
      destruct (usable_key (getPropertyName name)) as [k|].
      * apply IH; [apply set_preserves_obj, Hobj|].
        destruct Hrest as [Hown | Hex]; [left | right; exact Hex].
        apply Hstep. left. exact Hown.
      * apply IH; assumption.
    + apply IH; [exact Hobj|].
      destruct Hsrc as [Hown | (name' & init' & [Heq | Hin] & Hk')];
        [left; exact Hown | discriminate Heq | right; eauto].
Qed.

(** C10. In the HTTP-method call evaluator the options argument is merged
    after the method tag and the path of the first argument are set: a
    [method] or [path] key of the options object overwrites the uppercased
    verb and the string-literal path in the value produced, and without
    such a key they stay. *)
Theorem options_overwrite_method_and_path
        (target : expr) (name : string) (pathArg optionsArg : expr)
        (rest : list expr) (proto : value) (ps : props) :
  isTsRestMethodCall (EPropertyAccess target name) = true ->
  extractObjectLiteral optionsArg = VObj proto ps ->
  let route :=
    extractObjectLiteral
      (ECall (EPropertyAccess target name) (pathArg :: optionsArg :: rest)) in
  (forall v, own_lookup "method" ps = Some v -> get route "method" = v)
  /\ (forall v, own_lookup "path" ps = Some v -> get route "path" = v)
  /\ (own_lookup "method" ps = None ->
      get route "method" = VStr (Str.toUpperCase name))
  /\ (own_lookup "path" ps = None ->
      forall text, pathArg = EStringLiteral text ->
                   get route "path" = VStr text)
  /\ (forall properties keyName init key,
         optionsArg = EObjectLiteral properties ->
         In (PPropertyAssignment keyName init) properties ->
         getPropertyName keyName = Some key ->
         key = "method" \/ key = "path" ->
         own_lookup key ps <> None).
Proof.
  intros Hverb Hoptions route.
  assert (Hroute : route
                   = fold_left set_entry ps
                       (verb_route_with_path name
                          (pathArg :: optionsArg :: rest))).
  { subst route. rewrite (extractObjectLiteral_verb_call _ _ _ Hverb).
    rewrite Hoptions. reflexivity. }
  pose proof (verb_route_with_path_shape name (pathArg :: optionsArg :: rest))
    as (Hobj & _ & Hmethod).
  assert (Hnd : NoDup (List.map fst ps)).
  { pose proof (extractObjectLiteral_distinct_keys optionsArg) as H.
    rewrite Hoptions in H. exact H. }
  assert (Hres : is_obj route).
  { rewrite Hroute. apply fold_set_preserves_obj, Hobj. }
  split; [|split; [|split; [|split]]].
  - intros v Hv. apply get_own_entries; [exact Hres|].
    rewrite Hroute. apply fold_set_wins; auto. left. discriminate.
  - intros v Hv. apply get_own_entries; [exact Hres|].
    rewrite Hroute. apply fold_set_wins; auto. left. discriminate.
  - intros Hnone. apply get_own_entries; [exact Hres|].
    rewrite Hroute, fold_set_frame; [exact Hmethod|].
    apply own_lookup_none_iff, Hnone.
  - intros Hnone text ->. apply get_own_entries; [exact Hres|].
    rewrite Hroute, fold_set_frame; [reflexivity|].
    apply own_lookup_none_iff, Hnone.
  - intros properties keyName init key -> Hin Hname Hkey.
    rewrite extractObjectLiteral_object in Hoptions.
    change ps with (entries (VObj proto ps)). rewrite <- Hoptions.
    apply evalProperties_defines.
    + destruct Hkey as [-> | ->]; discriminate.
    + eexists; eexists; reflexivity.
    + right. exists keyName, init. split; [exact Hin|].
      rewrite Hname. destruct Hkey as [-> | ->]; reflexivity.
Qed.

(** [c.post('/x', { method: 'patch', path: '/y' })]. *)
Lemma options_overwrite_method_and_path_witness :
  let route :=
    extractObjectLiteral
      (ECall (EPropertyAccess (EIdentifier "c") "post")
             [EStringLiteral "/x";
              EObjectLiteral
                [PPropertyAssignment (PNIdentifier "method")
                                     (EStringLiteral "patch");
                 PPropertyAssignment (PNIdentifier "path")
                                     (EStringLiteral "/y")]]) in
  get route "method" = VStr "patch" /\ get route "path" = VStr "/y".
Proof.
  intros route.
  destruct (options_overwrite_method_and_path
              (EIdentifier "c") "post" (EStringLiteral "/x")
              (EObjectLiteral
                 [PPropertyAssignment (PNIdentifier "method")
                                      (EStringLiteral "patch");
                  PPropertyAssignment (PNIdentifier "path")
                                      (EStringLiteral "/y")])
              [] eq_refl eq_refl) as (Hm & Hp & _).
  split; [apply Hm | apply Hp]; reflexivity.
Defined.

(* ------------------------------------------------------------------ *)
(** ** The export table builder *)



Lemma processVariableStatement_fold (modifiers : list modifier)
      (declarations : list declaration) (exports : table) :
  processVariableStatement modifiers declarations exports
  = fold_left
      (store_binding (has_export_modifier modifiers
                      && (List.length declarations =? 1)%nat))
      declarations exports.
Proof. reflexivity. Qed.





















(* ------------------------------------------------------------------ *)
(** ** [extractRouteDefinition] terminates on its own *)

Lemma depth_obj (proto : value) (ps : props) :
  depth (VObj proto ps) = S (Nat.max (depth proto) (depth_props ps)).
Proof. reflexivity. Qed.

Lemma own_lookup_depth (k : string) (ps : props) (x : value) :
  own_lookup k ps = Some x -> depth x <= depth_props ps.
Proof.
  induction ps as [|[k' v'] ps IH]; simpl; [discriminate|].
  destruct (String.eqb k k').
  - intros [= ->]. apply Nat.le_max_l.
  - intros H. apply IH in H. lia.
Qed.

Lemma lookup_chain_depth (o : value) (k : string) (x : value) :
  lookup_chain o k = Data x -> depth x <= pred (depth o).
Proof.
  induction o; cbn [lookup_chain]; intros H; try discriminate H.
  - destruct (mem_string k object_prototype_functions).
    + injection H as <-. simpl. lia.
    + destruct (String.eqb k "__proto__"); discriminate H.
  - rewrite depth_obj. simpl pred.
    destruct (own_lookup k props0) eqn:E.
    + injection H as <-. apply own_lookup_depth in E. lia.
    + apply IHo in H. lia.
Qed.

(** What [get] returns lies strictly inside the object it is read from. *)
Lemma get_depth (o : value) (k : string) :
  depth (get o k) <= pred (depth o).
Proof.
  unfold get. destruct (lookup_chain o k) eqn:E.
  - apply lookup_chain_depth with (k := k), E.
  - destruct o; simpl; try lia.
  - simpl. lia.
Qed.

Lemma get_route_depth (o : value) :
  truthy (get o "route") = true -> depth (get o "route") < depth o.
Proof.
  intros H. pose proof (get_depth o "route") as Hd.
  destruct o; try discriminate H.
  rewrite depth_obj in *. simpl in Hd. lia.
Qed.

Lemma extractRouteDefinition_rec_unfold (fuel : nat) (contractObj : value) :
  extractRouteDefinition_rec fuel contractObj
  = if negb (truthy contractObj) || negb (typeof_object contractObj)
    then Ok None
    else if truthy (jor (get contractObj "method") (get contractObj "path"))
    then Ok (Some (directDefinition contractObj))
    else if truthy (get contractObj "__call")
            || is_route_type (get contractObj "__type")
    then extractFromTsRestRoute contractObj
    else if truthy (get contractObj "route")
    then match fuel with
         | O => Thrown
         | S fuel => extractRouteDefinition_rec fuel (get contractObj "route")
         end
    else if truthy (jor (get contractObj "__method")
                        (get contractObj "__path"))
    then Ok (Some (taggedDefinition contractObj))
    else Ok None.
Proof. destruct fuel; reflexivity. Qed.

(** Fuel above the depth of the argument is never used up. *)
Lemma extractRouteDefinition_rec_fuel (f1 : nat) :
  forall f2 contractObj,
    depth contractObj <= f1 -> depth contractObj <= f2 ->
    extractRouteDefinition_rec f1 contractObj
    = extractRouteDefinition_rec f2 contractObj.
Proof.
  induction f1 as [|f1 IH]; intros f2 contractObj H1 H2;
    rewrite (extractRouteDefinition_rec_unfold _ contractObj);
    rewrite (extractRouteDefinition_rec_unfold f2 contractObj);
    destruct (negb (truthy contractObj) || negb (typeof_object contractObj));
    try reflexivity;
    destruct (truthy (jor (get contractObj "method") (get contractObj "path")));
    try reflexivity;
    destruct (truthy (get contractObj "__call")
              || is_route_type (get contractObj "__type"));
    try reflexivity;
    destruct (truthy (get contractObj "route")) eqn:Hroute;
    try reflexivity;
    apply get_route_depth in Hroute.
  - lia.
  - destruct f2 as [|f2]; [lia|]. apply IH; lia.
Qed.

(** The equation of the source function. *)
Lemma extractRouteDefinition_unfold (contractObj : value) :
  extractRouteDefinition contractObj
  = if negb (truthy contractObj) || negb (typeof_object contractObj)
    then Ok None
    else if truthy (jor (get contractObj "method") (get contractObj "path"))
    then Ok (Some (directDefinition contractObj))
    else if truthy (get contractObj "__call")
            || is_route_type (get contractObj "__type")
    then extractFromTsRestRoute contractObj
    else if truthy (get contractObj "route")
    then extractRouteDefinition (get contractObj "route")
    else if truthy (jor (get contractObj "__method")
                        (get contractObj "__path"))
    then Ok (Some (taggedDefinition contractObj))
    else Ok None.
Proof.
  unfold extractRouteDefinition at 1.
  rewrite extractRouteDefinition_rec_unfold.
  destruct (truthy (get contractObj "route")) eqn:Hroute; [|reflexivity].
  apply get_route_depth in Hroute.
  destruct (depth contractObj) as [|d] eqn:Hd; [lia|].
  unfold extractRouteDefinition.
  rewrite (extractRouteDefinition_rec_fuel (f1 := d)
             (f2 := depth (get contractObj "route"))) by lia.
  reflexivity.
Qed.

(* ------------------------------------------------------------------ *)
(** ** What a returned route record is made of *)

Lemma extractRouteInfo_inv (exports : table) (propertyPath : list string)
      (importInfo : option ImportInfo) (info : RouteInfo.t) :
  extractRouteInfo exports propertyPath importInfo = Some info ->
  let baseContract := locateBaseContract exports propertyPath importInfo in
  exists routeDefinition,
    truthy baseContract = true
    /\ extractRouteDefinition baseContract = Ok (Some routeDefinition)
    /\ combinePaths (findPathPrefix exports propertyPath)
                    (jor (ContractDefinition.path routeDefinition) (VStr ""))
       = Ok (RouteInfo.fullPath info)
    /\ RouteInfo.method info
       = jor (ContractDefinition.method routeDefinition) (VStr "GET")
    /\ RouteInfo.path info
       = jor (ContractDefinition.path routeDefinition) (VStr "")
    /\ RouteInfo.summary info = ContractDefinition.summary routeDefinition.
Proof.
  intros H baseContract. unfold extractRouteInfo in H.
  fold baseContract in H.
  destruct (truthy baseContract) eqn:Hbase; [|discriminate H].
  simpl in H.
  destruct (extractRouteDefinition baseContract) as [[d|]|];
    try discriminate H.
  simpl in H.
  destruct (combinePaths _ _) as [fullPath|] eqn:Hfull; [|discriminate H].
  simpl in H. injection H as <-.
  exists d. simpl. repeat split; assumption.
Qed.

(* ------------------------------------------------------------------ *)
(** ** The full path *)

Lemma append_nonempty_r (a b : string) : b <> "" -> String.append a b <> "".
Proof. destruct a; simpl; [auto | discriminate]. Qed.

Lemma startsWith_slash_nonempty (s : string) :
  Str.startsWith s "/" = true -> s <> "".
Proof. destruct s; [discriminate | discriminate]. Qed.

(** Composing two strings always gives a non-empty string. *)
Lemma combinePaths_strings_nonempty (pathPrefix routePath : string) :
  exists s, combinePaths (VStr pathPrefix) (VStr routePath) = Ok (VStr s)
            /\ s <> "".
Proof.
  unfold combinePaths. cbn [truthy].
  destruct pathPrefix as [|c p].
  - cbn [Str.isEmpty negb jor truthy].
    destruct routePath as [|c r]; cbn [Str.isEmpty negb].
    + exists "/". split; [reflexivity | discriminate].
    + exists (String c r). split; [reflexivity | discriminate].
  - cbn [Str.isEmpty negb].
    destruct (negb (negb (Str.isEmpty routePath)) || (routePath =? "/")%string).
    + exists (String c p). split; [reflexivity | discriminate].
    + eexists. split; [reflexivity|].
      apply append_nonempty_r.
      apply startsWith_slash_nonempty, ensure_leading_slash_starts.
Qed.

(** Whatever its arguments, what [combinePaths] returns is truthy. *)
Lemma combinePaths_truthy (pathPrefix routePath fullPath : value) :
  combinePaths pathPrefix routePath = Ok fullPath -> truthy fullPath = true.
Proof.
  unfold combinePaths.
  destruct (truthy pathPrefix) eqn:Hprefix; cbn [negb].
  - destruct (negb (truthy routePath)
              || match routePath with
                 | VStr s => String.eqb s "/"
                 | _ => false
                 end).
    + intros [= <-]. exact Hprefix.
    + destruct pathPrefix as [| | | | p | | |]; try discriminate.
      destruct routePath as [| | | | r | | |]; try discriminate.
      intros [= <-]. cbn [truthy]. apply negb_true_iff, isEmpty_false.
      apply append_nonempty_r.
      change (ensure_leading_slash r <> "").
      apply startsWith_slash_nonempty, ensure_leading_slash_starts.
  - intros [= <-]. unfold jor.
    destruct (truthy routePath) eqn:Hroute; [exact Hroute|reflexivity].
Qed.

(** C5, amended. The full path of every record the pipeline returns is
    truthy, so it is never the empty string; it is a non-empty string when
    the path prefix found in the export table and the path of the record
    are strings; in particular, when both are empty (no prefix, no route
    path), it is [/]. *)
Theorem fullPath_nonempty (exports : table) (propertyPath : list string)
        (importInfo : option ImportInfo) (info : RouteInfo.t) :
  extractRouteInfo exports propertyPath importInfo = Some info ->
  (truthy (RouteInfo.fullPath info) = true
   /\ RouteInfo.fullPath info <> VStr "")
  /\ (forall pathPrefix routePath,
         findPathPrefix exports propertyPath = VStr pathPrefix ->
         RouteInfo.path info = VStr routePath ->
         exists s, RouteInfo.fullPath info = VStr s /\ s <> "")
  /\ (findPathPrefix exports propertyPath = VStr "" ->
      RouteInfo.path info = VStr "" ->
      RouteInfo.fullPath info = VStr "/").
Proof.
  intros H. apply extractRouteInfo_inv in H.
  destruct H as (d & _ & _ & Hfull & _ & Hpath & _).
  rewrite <- Hpath in Hfull. split; [|split].
  - apply combinePaths_truthy in Hfull. split; [exact Hfull|].
    intros Hempty. rewrite Hempty in Hfull. discriminate Hfull.
  - intros pathPrefix routePath Hp Hr. rewrite Hp, Hr in Hfull.
    destruct (combinePaths_strings_nonempty pathPrefix routePath)
      as (s & Hs & Hne).
    rewrite Hs in Hfull. injection Hfull as <-. exists s. auto.
  - intros Hp Hr. rewrite Hp, Hr in Hfull.
    injection Hfull as <-. reflexivity.
Qed.

(** C5 on a route without prefix and without path. *)
Lemma fullPath_nonempty_witness :
  exists info,
    extractRouteInfo (extractExports bare_contract) ["health"] default_import
    = Some info
    /\ RouteInfo.fullPath info = VStr "/".
Proof.
  eexists. split; [reflexivity|].
  refine (proj2 (proj2 (@fullPath_nonempty (extractExports bare_contract)
                          ["health"] default_import _ eq_refl))
                eq_refl eq_refl).
Defined.

(** C5 as stated fails: for [const contract = { health: { path: true } }]
    the record returned has the boolean as its full path: truthy, but not a
    string. *)
Lemma fullPath_not_a_string_counterexample :
  exists info,
    extractRouteInfo (extractExports boolean_path_contract) ["health"]
                     default_import = Some info
    /\ forall s, RouteInfo.fullPath info <> VStr s.
Proof.
  eexists. split; [reflexivity|]. intros s. discriminate.
Qed.

(* ------------------------------------------------------------------ *)
(** ** The method of a route *)

Lemma extractFromTsRestRoute_upper (contractObj : value)
      (d : ContractDefinition.t) :
  extractFromTsRestRoute contractObj = Ok (Some d) ->
  exists s, ContractDefinition.method d = VStr (Str.toUpperCase s).
Proof.
  unfold extractFromTsRestRoute.
  destruct (jor (jor (get contractObj "method") (get contractObj "__method"))
                (VStr "GET")) as [| | | | s | | |]; simpl;
    try discriminate.
  intros [= <-]. exists s. reflexivity.
Qed.

(** A verb call whose options do not define [method] carries the
    uppercased verb. *)
Lemma verb_call_method (target : expr) (name : string)
      (arguments : list expr) :
  isTsRestMethodCall (EPropertyAccess target name) = true ->
  match arguments with
  | _ :: a1 :: _ =>
      own_lookup "method" (assign_source (extractObjectLiteral a1)) = None
  | _ => True
  end ->
  get (extractObjectLiteral (ECall (EPropertyAccess target name) arguments))
      "method"
  = VStr (Str.toUpperCase name).
Proof.
  intros Hverb Hoptions.
  rewrite (extractObjectLiteral_verb_call _ _ _ Hverb).
  pose proof (verb_route_with_path_shape name arguments)
    as (Hobj & _ & Hmethod).
  destruct arguments as [|a0 [|a1 rest]];
    try (apply get_own_entries; assumption).
  destruct (truthy (extractObjectLiteral a1));
    [|apply get_own_entries; assumption].
  rewrite assign_unfold. apply get_own_entries.
  - apply fold_set_preserves_obj, Hobj.
  - rewrite fold_set_frame; [exact Hmethod|].
    apply own_lookup_none_iff, Hoptions.
Qed.

(** Where the method of a returned record comes from: it is the method of
    the route definition found, or [GET] when that is absent or falsy.  It
    is uppercase when it comes from the verb of an HTTP-method call
    ([c.post(...)] gives [POST]) or from the extraction of a call-tagged
    route; a [method] written in a route object is returned as it is
    written. *)
Theorem method_of_route :
  (forall target name arguments,
      isTsRestMethodCall (EPropertyAccess target name) = true ->
      match arguments with
      | _ :: a1 :: _ =>
          own_lookup "method" (assign_source (extractObjectLiteral a1)) = None
      | _ => True
      end ->
      get (extractObjectLiteral
             (ECall (EPropertyAccess target name) arguments)) "method"
      = VStr (Str.toUpperCase name))
  /\ (forall contractObj d,
         extractFromTsRestRoute contractObj = Ok (Some d) ->
         exists s, ContractDefinition.method d = VStr (Str.toUpperCase s))
  /\ (forall exports propertyPath importInfo info,
         extractRouteInfo exports propertyPath importInfo = Some info ->
         let baseContract :=
           locateBaseContract exports propertyPath importInfo in
         (truthy (get baseContract "method") = true ->
          RouteInfo.method info = get baseContract "method")
         /\ (truthy (get baseContract "method") = false ->
             truthy (get baseContract "path") = true ->
             RouteInfo.method info = VStr "GET")
         /\ exists d,
             extractRouteDefinition baseContract = Ok (Some d)
             /\ RouteInfo.method info
                = if truthy (ContractDefinition.method d)
                  then ContractDefinition.method d
                  else VStr "GET").
Proof.
  split; [exact verb_call_method | split; [exact extractFromTsRestRoute_upper|]].
  intros exports propertyPath importInfo info H baseContract.
  apply extractRouteInfo_inv in H. fold baseContract in H.
  destruct H as (d & Hbase & Hdef & _ & Hmethod & _).
  pose proof Hdef as Hfound.
  rewrite extractRouteDefinition_unfold in Hdef.
  destruct (negb (truthy baseContract) || negb (typeof_object baseContract));
    [discriminate Hdef|].
  split; [|split].
  - intros Ht. unfold jor at 1 in Hdef. rewrite Ht in Hdef.
    rewrite Ht in Hdef. injection Hdef as <-.
    rewrite Hmethod. simpl. unfold jor. rewrite Ht. reflexivity.
  - intros Hf Hp. unfold jor at 1 in Hdef. rewrite Hf in Hdef.
    rewrite Hp in Hdef. injection Hdef as <-.
    rewrite Hmethod. simpl. unfold jor. rewrite Hf. reflexivity.
  - exists d. split; [exact Hfound | exact Hmethod].
Qed.

(** The verb of [c.post(...)] comes out as [POST]. *)
Lemma method_of_route_witness :
  exists info,
    extractRouteInfo (extractExports verb_contract) ["createPost"]
                     default_import = Some info
    /\ RouteInfo.method info = VStr "POST".
Proof.
  eexists. split; [reflexivity|].
  refine (proj1 (proj2 (proj2 method_of_route)
                       (extractExports verb_contract) ["createPost"]
                       default_import _ eq_refl) eq_refl).
Defined.

(** C2 at its failing input: for
    [const contract = { createPost: { method: 'post', path: '/' } }] the
    record returned keeps the lowercase spelling [post], where the claim
    asks for [POST]. *)
Lemma literal_method_not_uppercased :
  exists info,
    extractRouteInfo (extractExports lowercase_contract) ["createPost"]
                     default_import = Some info
    /\ RouteInfo.method info = VStr "post"
    /\ RouteInfo.method info <> VStr (Str.toUpperCase "post").
Proof.
  eexists. split; [reflexivity|]. split; [reflexivity | discriminate].
Qed.

(* ------------------------------------------------------------------ *)
(** ** The order of the lookup strategies *)

Lemma findRouteInContract_unfold (contractObj : value) (routeName : string)
      (rest : list string) :
  findRouteInContract contractObj (routeName :: rest)
  = if negb (truthy contractObj) || negb (typeof_object contractObj)
    then VNull
    else if truthy (get contractObj routeName)
    then get contractObj routeName
    else scanNested routeName (entries contractObj).
Proof.
  unfold findRouteInContract. cbn [List.length Nat.eqb orb].
  rewrite orb_false_r.
  destruct (negb (truthy contractObj) || negb (typeof_object contractObj));
    [reflexivity|].
  destruct (truthy (get contractObj routeName)); [reflexivity|].
  rewrite andb_false_r. reflexivity.
Qed.

Lemma scanNested_truthy_or_null (routeName : string) (es : props) :
  truthy (scanNested routeName es) = false -> scanNested routeName es = VNull.
Proof.
  induction es as [|[key v] es IH]; cbn [scanNested]; [reflexivity|].
  destruct (typeof_object v && negb (is_null v)
            && negb (Str.startsWith key "__")); [|exact IH].
  destruct (truthy (get v routeName)) eqn:E; [congruence | exact IH].
Qed.

(** [findRouteInContract] returns a truthy value or null. *)
Lemma findRouteInContract_truthy_or_null (contractObj : value)
      (propertyPath : list string) :
  truthy (findRouteInContract contractObj propertyPath) = false ->
  findRouteInContract contractObj propertyPath = VNull.
Proof.
  destruct propertyPath as [|routeName rest];
    [intros _; apply findRouteInContract_nil|].
  rewrite findRouteInContract_unfold.
  destruct (negb (truthy contractObj) || negb (typeof_object contractObj));
    [reflexivity|].
  destruct (truthy (get contractObj routeName)) eqn:E; [congruence|].
  apply scanNested_truthy_or_null.
Qed.

Lemma findRouteInContract_falsy (contractObj : value)
      (propertyPath : list string) :
  truthy contractObj = false ->
  findRouteInContract contractObj propertyPath = VNull.
Proof.
  intros H. unfold findRouteInContract. rewrite H. reflexivity.
Qed.

Lemma tryAllExports_find (propertyPath : list string) (es : table)
      (baseContract : value) :
  tryAllExports propertyPath es baseContract
  = match List.find truthy
            (List.map (fun kv => findRouteInContract (snd kv) propertyPath) es)
    with
    | Some v => v
    | None => match es with [] => baseContract | _ => VNull end
    end.
Proof.
  revert baseContract.
  induction es as [|[n v] es IH]; intros baseContract; simpl; [reflexivity|].
  destruct (truthy (findRouteInContract v propertyPath)) eqn:E;
    [reflexivity|].
  rewrite IH. destruct (List.find truthy _); [reflexivity|].
  destruct es; [|reflexivity].
  apply findRouteInContract_truthy_or_null, E.
Qed.

(** With no export at all the direct traversal finds nothing. *)
Lemma findContractByPath_empty (propertyPath : list string) :
  findContractByPath [] propertyPath = VNull.
Proof. destruct propertyPath; reflexivity. Qed.

Lemma locateBaseContract_strategies (exports : table)
      (propertyPath : list string) (importInfo : option ImportInfo) :
  named_export importInfo = None ->
  locateBaseContract exports propertyPath importInfo
  = first_success (strategies exports propertyPath).
Proof.
  intros Hhint. unfold locateBaseContract. rewrite Hhint. cbv zeta.
  unfold first_success, strategies. cbn [List.find].
  set (b0 := findContractByPath exports propertyPath).
  set (d := findRouteInContract (map_get "default" exports) propertyPath).
  set (c := findRouteInContract (map_get "contract" exports) propertyPath).
  assert (Hd : truthy d = false -> d = VNull)
    by apply findRouteInContract_truthy_or_null.
  assert (Hc : truthy c = false -> c = VNull)
    by apply findRouteInContract_truthy_or_null.
  assert (Hd' : truthy (map_get "default" exports) = false -> d = VNull)
    by apply findRouteInContract_falsy.
  assert (Hc' : truthy (map_get "contract" exports) = false -> c = VNull)
    by apply findRouteInContract_falsy.
  assert (He : exports = [] -> b0 = VNull)
    by (intros ->; apply findContractByPath_empty).
  rewrite tryAllExports_find.
  clearbody b0 d c.
  destruct (truthy b0) eqn:E0; cbn [negb]; [reflexivity|].
  destruct (truthy (map_get "default" exports)) eqn:Ed;
    destruct (truthy (map_get "contract" exports)) eqn:Ec;
    destruct (truthy d) eqn:E1; destruct (truthy c) eqn:E2;
    rewrite ?E0, ?E1, ?E2; cbn [negb]; rewrite ?E0, ?E1, ?E2; cbn [negb];
    try reflexivity;
    try specialize (Hd' eq_refl); try specialize (Hc' eq_refl);
    try specialize (Hd eq_refl); try specialize (Hc eq_refl);
    subst; try discriminate;
    (destruct (List.find truthy _); [reflexivity|]);
    destruct exports; try reflexivity;
    apply He; reflexivity.
Qed.

Lemma map_get_absent (k : string) (exports : table) :
  own_lookup k exports = None -> map_get k exports = VUndefined.
Proof. unfold map_get. intros ->. reflexivity. Qed.

(** C3, amended. Without an export-name hint the lookup is the first
    success among, in this order: the direct traversal from the export
    named by the first segment (or from [default]), the router-aware lookup
    in [default], the one in [contract], and the one in each export in
    insertion order.  Hence, when the table has no entry named by the first
    segment, no [default] and no [contract], a first export that contains
    the leaf key wins over every later one. *)
Theorem lookup_strategy_order :
  (forall exports propertyPath importInfo,
      named_export importInfo = None ->
      locateBaseContract exports propertyPath importInfo
      = first_success (strategies exports propertyPath))
  /\ (forall n1 o1 rest k more importInfo,
         named_export importInfo = None ->
         own_lookup k ((n1, o1) :: rest) = None ->
         own_lookup "default" ((n1, o1) :: rest) = None ->
         own_lookup "contract" ((n1, o1) :: rest) = None ->
         typeof_object o1 = true ->
         truthy (get o1 k) = true ->
         locateBaseContract ((n1, o1) :: rest) (k :: more) importInfo
         = get o1 k).
Proof.
  split; [exact locateBaseContract_strategies|].
  intros n1 o1 rest k more importInfo Hhint Hk Hdefault Hcontract Hobj Hleaf.
  rewrite (locateBaseContract_strategies _ _ _ Hhint).
  unfold first_success, strategies.
  assert (H0 : findContractByPath ((n1, o1) :: rest) (k :: more) = VNull).
  { unfold findContractByPath.
    rewrite (map_get_absent _ _ Hk), (map_get_absent _ _ Hdefault).
    reflexivity. }
  rewrite H0, (map_get_absent _ _ Hdefault), (map_get_absent _ _ Hcontract).
  rewrite (findRouteInContract_falsy VUndefined (k :: more) eq_refl).
  cbn [List.find truthy List.map snd].
  assert (H1 : findRouteInContract o1 (k :: more) = get o1 k).
  { rewrite findRouteInContract_unfold, Hleaf, Hobj.
    destruct o1; try discriminate Hobj; try reflexivity.
    discriminate Hleaf. }
  rewrite H1, Hleaf. reflexivity.
Qed.

(** C3 on [const posts = ...; const users = ...]: the first one wins. *)
Lemma lookup_strategy_order_witness :
  locateBaseContract (extractExports (sibling_contracts "users"))
                     ["getAll"] default_import
  = get (extractObjectLiteral (getAll_route "/posts")) "getAll".
Proof.
  apply (proj2 lookup_strategy_order
               "posts" (extractObjectLiteral (getAll_route "/posts"))
               [("users", extractObjectLiteral (getAll_route "/other"))]
               "getAll" [] default_import);
    reflexivity.
Defined.

(** C3 as stated fails: of the two sibling exports [posts] and [contract],
    declared in this order and both containing [getAll], the second one is
    the one resolved. *)
Lemma second_sibling_resolved_counterexample :
  let exports := extractExports (sibling_contracts "contract") in
  List.map fst exports = ["posts"; "contract"]
  /\ truthy (get (map_get "posts" exports) "getAll") = true
  /\ truthy (get (map_get "contract" exports) "getAll") = true
  /\ locateBaseContract exports ["getAll"] default_import
     = get (map_get "contract" exports) "getAll"
  /\ locateBaseContract exports ["getAll"] default_import
     <> get (map_get "posts" exports) "getAll".
Proof.
  repeat split; try reflexivity. discriminate.
Qed.

(* ------------------------------------------------------------------ *)
(** ** The round trip through a router with a path prefix *)

(** With a [default] entry in the table and no entry named by the single
    segment of the path, the direct traversal succeeds at once, with the
    whole default export. *)
Lemma single_segment_locates_default (exports : table) (k : string)
      (importInfo : option ImportInfo) :
  named_export importInfo = None ->
  truthy (map_get k exports) = false ->
  truthy (map_get "default" exports) = true ->
  locateBaseContract exports [k] importInfo = map_get "default" exports.
Proof.
  intros Hhint Hk Hdefault. unfold locateBaseContract. rewrite Hhint.
  cbv zeta. unfold findContractByPath, jor.
  rewrite Hk, Hdefault. cbn [negb]. rewrite Hdefault. reflexivity.
Qed.

(** C1 at its failing input: when the router is the default export of the
    contract file, written [export default c.router(...)] or
    [export const postsContract = c.router(...)], the reference
    [c.createPost] through a default import resolves to nothing, where the
    claim asks for the record of [createPost] with the full path [/posts]. *)
Lemma default_export_router_not_resolved :
  extractRouteInfo (extractExports export_default_contract)
                   ["createPost"] default_import = None
  /\ extractRouteInfo (extractExports export_const_contract)
                      ["createPost"] default_import = None
  /\ locateBaseContract (extractExports export_default_contract)
                        ["createPost"] default_import
     = extractObjectLiteral posts_router.
Proof. repeat split. Qed.

(** The same route is resolved when the router is not stored under
    [default]: through the named import, and through the default import of
    a file that declares the router in a plain [const]. *)
Lemma router_round_trip :
  extractRouteInfo (extractExports plain_const_contract)
                   ["createPost"] default_import = Some createPost_info
  /\ extractRouteInfo (extractExports export_const_contract) ["createPost"]
                      (Some {| exportName := Some "postsContract";
                               isDefaultImport := false |})
     = Some createPost_info.
Proof. split; reflexivity. Qed.

(* ------------------------------------------------------------------ *)
(** ** The bare identifier *)

(** What a resolution that misses the result cache leaves in it. *)
Lemma resolveUncached_cache
      (dirname : string -> string) (resolve join : string -> string -> string)
      (stat_ok : string -> bool) (stat_mtime : string -> option nat)
      (openSourceFile : string -> option node)
      (parsedAt storedAt : nat) (state : RouteAnnotationProvider.caches)
      (decorator : AstParser.HandlerDecoratorInfo)
      (imports : AstImports.imports) (currentFilePath : string)
      (outcome : option RouteInfo.t)
      (after : RouteAnnotationProvider.caches) :
  RouteAnnotationProvider.resolveUncached dirname resolve join stat_ok
    stat_mtime openSourceFile parsedAt storedAt state decorator imports
    currentFilePath = (outcome, after) ->
  match outcome with
  | None => fst after = fst state
  | Some info =>
      fst after
      = OrderedMap.set
          (RouteAnnotationProvider.cacheKey currentFilePath decorator)
          {| RouteAnnotationProvider.routeInfo := info;
             RouteAnnotationProvider.timestamp := storedAt;
             RouteAnnotationProvider.fileVersion := 1 |}
          (fst state)
  end.
Proof.
  unfold RouteAnnotationProvider.resolveUncached.
  destruct (OrderedMap.get _ imports) as [importInfo|];
    [|intros [= <- <-]; reflexivity].
  destruct (resolveImportPath _ _ _ _ _ _) as [contractFilePath|];
    [|intros [= <- <-]; reflexivity].
  destruct (ContractCache.parseContractFile _ _ _ _ _)
    as [[contractFile|] contractCache];
    [|intros [= <- <-]; reflexivity].
  destruct (extractRouteInfo _ _ _) as [info|];
    intros [= <- <-]; reflexivity.
Qed.







(* ================================================================== *)
(** * Properties beyond the claims *)

(* ------------------------------------------------------------------ *)
(** ** The path prefix is searched in the whole table *)

Lemma findPathPrefix_each (exports : table) (routeName : string)
      (rest : list string) :
  findPathPrefix exports (routeName :: rest) = eachPrefix exports.
Proof. reflexivity. Qed.

Lemma nestedPrefix_find (otherwise : value) (kvs : props) :
  nestedPrefix otherwise kvs
  = match List.find has_prefix
            (List.filter (fun c => typeof_object c && negb (is_null c))
                         (List.map snd kvs)) with
    | Some c => get (get c "__options") "pathPrefix"
    | None => otherwise
    end.
Proof.
  induction kvs as [|[key v] kvs IH]; cbn [nestedPrefix]; [reflexivity|].
  cbn [List.map List.filter snd].
  destruct (typeof_object v && negb (is_null v)); cbn [andb].
  - cbn [List.find]. unfold has_prefix at 1.
    destruct (truthy (router_pathPrefix v)); [reflexivity | exact IH].
  - exact IH.
Qed.

Lemma eachPrefix_find (exports : table) :
  eachPrefix exports
  = match List.find has_prefix (prefix_sites exports) with
    | Some c => get (get c "__options") "pathPrefix"
    | None => VStr ""
    end.
Proof.
  induction exports as [|[n v] exports IH]; [reflexivity|].
  cbn [eachPrefix]. unfold prefix_sites. cbn [List.flat_map snd].
  fold (prefix_sites exports).
  destruct (truthy v && typeof_object v); [|exact IH].
  rewrite find_append. cbn [List.find]. unfold has_prefix at 1.
  destruct (truthy (router_pathPrefix v)); [reflexivity|].
  rewrite nestedPrefix_find, IH.
  destruct (List.find has_prefix (List.filter _ _)); reflexivity.
Qed.

(** X1. The path prefix does not depend on the route looked up: for every
    non-empty property path it is the prefix of the first site of the whole
    table that carries one (each export in insertion order, followed by its
    own object children), and the empty string when no site carries one. *)
Theorem findPathPrefix_first_site (exports : table)
        (propertyPath : list string) :
  propertyPath <> [] ->
  findPathPrefix exports propertyPath
  = match List.find has_prefix (prefix_sites exports) with
    | Some site => get (get site "__options") "pathPrefix"
    | None => VStr ""
    end.
Proof.
  intros Hne. destruct propertyPath as [|routeName rest]; [congruence|].
  rewrite findPathPrefix_each. apply eachPrefix_find.
Qed.

(** X1 on a file whose first export has no router: the route [ping] of
    [health] gets the prefix of the router [posts] declared after it. *)
Lemma findPathPrefix_first_site_witness :
  findPathPrefix (extractExports health_and_posts) ["ping"] = VStr "/posts"
  /\ option_map RouteInfo.fullPath
       (extractRouteInfo (extractExports health_and_posts) ["ping"]
                         (named_import "health"))
     = Some (VStr "/posts/ping").
Proof.
  split; [|reflexivity].
  rewrite (@findPathPrefix_first_site (extractExports health_and_posts)
             ["ping"]) by discriminate.
  reflexivity.
Defined.

(* ------------------------------------------------------------------ *)
(** ** Segments after the first *)

(** X2. With a named import only the first segment of the property path is
    used: whatever follows it, the route resolved is the one of the first
    segment alone. *)
Theorem named_import_ignores_rest (exports : table) (routeName : string)
        (rest : list string) (importInfo : option ImportInfo)
        (exportName : string) :
  named_export importInfo = Some exportName ->
  extractRouteInfo exports (routeName :: rest) importInfo
  = extractRouteInfo exports [routeName] importInfo.
Proof.
  intros Hhint. unfold extractRouteInfo, locateBaseContract.
  rewrite Hhint, !findPathPrefix_each, !findRouteInContract_unfold.
  reflexivity.
Qed.

(** [c.createPost.anything.else] resolves as [c.createPost]. *)
Lemma named_import_ignores_rest_witness :
  extractRouteInfo (extractExports export_const_contract)
                   ["createPost"; "anything"; "else"]
                   (named_import "postsContract")
  = Some createPost_info.
Proof.
  rewrite (@named_import_ignores_rest _ "createPost" ["anything"; "else"]
             (named_import "postsContract") "postsContract" eq_refl).
  reflexivity.
Defined.

Lemma findContractByPath_navigate (exports : table) (firstPart : string)
      (restPath : list string) :
  findContractByPath exports (firstPart :: restPath)
  = let current := jor (map_get firstPart exports)
                       (map_get "default" exports) in
    if negb (truthy current) then VNull else navigate restPath current.
Proof. reflexivity. Qed.

Lemma step_into_null (part : string) : step_into VNull part = VNull.
Proof. reflexivity. Qed.

Lemma navigate_null (parts : list string) : navigate parts VNull = VNull.
Proof. destruct parts; reflexivity. Qed.

Lemma navigate_snoc (parts : list string) (part : string) :
  forall current,
    navigate (parts ++ [part]) current
    = step_into (navigate parts current) part.
Proof.
  induction parts as [|p parts IH]; intros current;
    cbn [navigate List.app]; [unfold step_into|].
  - destruct (typeof_object current && negb (is_null current)
              && has_property current part); reflexivity.
  - destruct (typeof_object current && negb (is_null current)
              && has_property current p); [apply IH|].
    symmetry. apply step_into_null.
Qed.

(** X3. In the direct traversal every further segment is one property step
    from where the path before it arrived: the value of that property when
    the place is an object that has it (own or inherited), null otherwise,
    and null once null. *)
Theorem findContractByPath_snoc (exports : table) (firstPart : string)
        (restPath : list string) (part : string) :
  findContractByPath exports (firstPart :: restPath ++ [part])
  = step_into (findContractByPath exports (firstPart :: restPath)) part.
Proof.
  rewrite (findContractByPath_navigate exports firstPart (restPath ++ [part])).
  rewrite (findContractByPath_navigate exports firstPart restPath).
  cbv zeta.
  destruct (negb (truthy (jor (map_get firstPart exports)
                              (map_get "default" exports)))).
  - symmetry. apply step_into_null.
  - apply navigate_snoc.
Qed.

(* ------------------------------------------------------------------ *)
(** ** What an export table holds *)

Lemma replace_own_truthy (k : string) (v : value) (ps : props) :
  truthy v = true ->
  Forall (fun kv => truthy (snd kv) = true) ps ->
  Forall (fun kv => truthy (snd kv) = true) (replace_own k v ps).
Proof.
  intros Hv. induction 1 as [|[k' v'] ps Hhd Htl IH]; simpl;
    [constructor|].
  destruct (String.eqb k k'); constructor; auto.
Qed.

Lemma map_set_well_formed (k : string) (v : value) (exports : table) :
  truthy v = true ->
  well_formed_table exports -> well_formed_table (map_set k v exports).
Proof.
  intros Hv [Hnd Hall]. unfold map_set.
  destruct (own_lookup k exports) eqn:E; split.
  - rewrite replace_own_keys. exact Hnd.
  - apply replace_own_truthy; assumption.
  - rewrite List.map_app. simpl.
    eapply Permutation_NoDup; [apply Permutation_cons_append|].
    constructor; [apply own_lookup_none_iff, E | exact Hnd].
  - apply Forall_app. split; [exact Hall|]. constructor; auto.
Qed.

Lemma processVariableStatement_well_formed (modifiers : list modifier)
      (declarations : list declaration) (exports : table) :
  well_formed_table exports ->
  well_formed_table (processVariableStatement modifiers declarations exports).
Proof.
  rewrite processVariableStatement_fold.
  generalize (has_export_modifier modifiers
              && (List.length declarations =? 1)%nat) as alias.
  intros alias. revert exports.
  induction declarations as [|d ds IH]; intros exports Hwf; [exact Hwf|].
  cbn [fold_left]. apply IH. unfold store_binding.
  destruct (name d) as [n|]; [|exact Hwf].
  destruct (initializer d) as [init|]; [|exact Hwf].
  destruct (truthy (extractObjectLiteral init)) eqn:Ht; [|exact Hwf].
  destruct alias; auto using map_set_well_formed.
Qed.

Lemma processExportAssignment_well_formed (expression : expr)
      (exports : table) :
  well_formed_table exports ->
  well_formed_table (processExportAssignment expression exports).
Proof.
  intros Hwf. unfold processExportAssignment.
  destruct (truthy (extractObjectLiteral expression)) eqn:Ht;
    auto using map_set_well_formed.
Qed.

Lemma visitor_well_formed (n : node) :
  forall exports,
    well_formed_table exports -> well_formed_table (visitor n exports).
Proof.
  revert n. fix visitor_well_formed 1. intros n.
  assert (Hbelow : forall children exports,
             well_formed_table exports ->
             well_formed_table
               ((fix each (ns : list node) (exports : table) : table :=
                   match ns with
                   | [] => exports
                   | c :: r => each r (visitor c exports)
                   end) children exports)).
  { induction children as [|c r IH]; intros exports Hwf; [exact Hwf|].
    apply IH, visitor_well_formed, Hwf. }
  destruct n as [modifiers declarations children
                | expression children | children];
    intros exports Hwf; simpl; apply Hbelow;
    auto using processVariableStatement_well_formed,
               processExportAssignment_well_formed.
Qed.

(** X4. Whatever the file, the export table built from it holds only
    truthy values, under pairwise distinct names; so a lookup that finds a
    name finds a truthy value. *)
Theorem extractExports_well_formed (sourceFile : node) :
  well_formed_table (extractExports sourceFile)
  /\ forall n v,
       own_lookup n (extractExports sourceFile) = Some v -> truthy v = true.
Proof.
  assert (Hwf : well_formed_table (extractExports sourceFile)).
  { apply visitor_well_formed. split; constructor. }
  split; [exact Hwf|].
  destruct Hwf as [_ Hall]. revert Hall.
  generalize (extractExports sourceFile) as exports.
  induction exports as [|[k x] exports IH]; intros Hall n v;
    simpl; [discriminate|].
  inversion Hall as [|? ? Hx Hrest]; subst.
  destruct (String.eqb n k); [intros [= <-]; exact Hx | apply IH, Hrest].
Qed.

(** X4 on [export const contract = ...; export default false]. *)
Lemma extractExports_well_formed_witness :
  truthy (map_get "default"
            (extractExports
               (NOther [NVariableStatement
                          [ExportKeyword]
                          [declare "contract" health_contract] [];
                        NExportAssignment EFalse []]))) = true.
Proof.
  apply (proj2 (extractExports_well_formed
                  (NOther [NVariableStatement
                             [ExportKeyword]
                             [declare "contract" health_contract] [];
                           NExportAssignment EFalse []]))
               "default").
  reflexivity.
Defined.

(* ------------------------------------------------------------------ *)
(** ** Contract references, written and read back *)

Lemma walk_reference (propertyPath : list string) :
  forall (e : expr) (acc : list string),
    AstParser.walk (fold_left EPropertyAccess propertyPath e) acc
    = AstParser.walk e (propertyPath ++ acc).
Proof.
  induction propertyPath as [|p ps IH]; intros e acc; [reflexivity|].
  cbn [fold_left]. rewrite IH. reflexivity.
Qed.

Lemma walk_inv (e : expr) :
  forall (acc : list string) (base : string) (propertyPath : list string),
    AstParser.walk e acc = (EIdentifier base, propertyPath) ->
    exists front,
      propertyPath = front ++ acc
      /\ e = fold_left EPropertyAccess front (EIdentifier base).
Proof.
  induction e as [ps | text | n | | | callee IHc arguments
                 | e IH name | text | ];
    intros acc base propertyPath H; simpl in H; try discriminate H.
  - apply IH in H. destruct H as (front & -> & ->).
    exists (front ++ [name]). split.
    + rewrite <- app_assoc. reflexivity.
    + rewrite fold_left_app. reflexivity.
  - injection H as <- <-. exists []. split; reflexivity.
Qed.

(** X5. Reading a reference back gives what was written: the expression
    [base.p1...pn] is read as the base [base] and the path [p1; ...; pn],
    and an argument is accepted only if it is such an expression. *)
Theorem extractContractReference_round_trip :
  (forall base propertyPath,
      AstParser.extractContractReference (reference_expr base propertyPath)
      = Some (base, propertyPath))
  /\ (forall argument base propertyPath,
         AstParser.extractContractReference argument
         = Some (base, propertyPath) ->
         argument = reference_expr base propertyPath).
Proof.
  split.
  - intros base propertyPath.
    unfold AstParser.extractContractReference, reference_expr.
    rewrite walk_reference, app_nil_r. reflexivity.
  - intros argument base propertyPath H.
    unfold AstParser.extractContractReference in H.
    destruct (AstParser.walk argument []) as [e p] eqn:Hw.
    destruct e; try discriminate H. injection H as -> ->.
    apply walk_inv in Hw. destruct Hw as (front & -> & ->).
    rewrite app_nil_r. reflexivity.
Qed.

(** [c.posts.createPost]. *)
Lemma extractContractReference_round_trip_witness :
  EPropertyAccess (EPropertyAccess (EIdentifier "c") "posts") "createPost"
  = reference_expr "c" ["posts"; "createPost"].
Proof.
  apply (proj2 extractContractReference_round_trip). reflexivity.
Defined.

(* ------------------------------------------------------------------ *)
(** ** When composing paths fails *)

(** X6. Composing paths raises exactly when there is a prefix, there is a
    route path other than [/], and one of the two is not a string; in every
    other case it returns a value. *)
Theorem combinePaths_thrown_iff (pathPrefix routePath : value) :
  combinePaths pathPrefix routePath = Thrown
  <-> truthy pathPrefix && truthy routePath && negb (is_root routePath)
      && negb (is_string pathPrefix && is_string routePath) = true.
Proof.
  unfold combinePaths, is_root.
  destruct (truthy pathPrefix) eqn:Hp; cbn [negb andb];
    [|split; discriminate].
  destruct (truthy routePath) eqn:Hr; cbn [negb andb orb];
    [|split; discriminate].
  destruct pathPrefix as [| | | | p | | |]; destruct routePath as [| | | | r | | |];
    cbn [is_string andb negb];
    try discriminate Hp; try discriminate Hr;
    try (split; [reflexivity | reflexivity]);
    try (destruct (r =? "/")%string; split; (reflexivity || discriminate)).
Qed.

(* ------------------------------------------------------------------ *)
(** ** Where a route is looked for inside an export *)

Lemma scanNested_source (routeName : string) (es : props) :
  truthy (scanNested routeName es) = true ->
  exists key child,
    In (key, child) es
    /\ Str.startsWith key "__" = false
    /\ typeof_object child = true
    /\ scanNested routeName es = get child routeName.
Proof.
  induction es as [|[key v] es IH]; cbn [scanNested]; [discriminate|].
  destruct (typeof_object v && negb (is_null v)
            && negb (Str.startsWith key "__")) eqn:Hc.
  - destruct (truthy (get v routeName)) eqn:Ht.
    + intros _. exists key, v.
      apply andb_prop in Hc as [Hc Hs]. apply andb_prop in Hc as [Ho _].
      apply negb_true_iff in Hs.
      repeat split; auto. left. reflexivity.
    + intros H. destruct (IH H) as (k' & c' & Hin & Hrest).
      exists k', c'. split; [right; exact Hin | exact Hrest].
  - intros H. destruct (IH H) as (k' & c' & Hin & Hrest).
    exists k', c'. split; [right; exact Hin | exact Hrest].
Qed.

(** X7. Inside an export a route is its direct property when that is
    truthy; otherwise it can only come from a direct child object whose key
    does not start with [__], so never from the options of a router; and
    the result is a truthy value or null. *)
Theorem findRouteInContract_source (contractObj : value) (routeName : string)
        (rest : list string) :
  (truthy contractObj = true -> typeof_object contractObj = true ->
   truthy (get contractObj routeName) = true ->
   findRouteInContract contractObj (routeName :: rest)
   = get contractObj routeName)
  /\ (truthy (findRouteInContract contractObj (routeName :: rest)) = true ->
      findRouteInContract contractObj (routeName :: rest)
      = get contractObj routeName
      \/ exists key child,
          In (key, child) (entries contractObj)
          /\ Str.startsWith key "__" = false
          /\ typeof_object child = true
          /\ findRouteInContract contractObj (routeName :: rest)
             = get child routeName)
  /\ (truthy (findRouteInContract contractObj (routeName :: rest)) = false ->
      findRouteInContract contractObj (routeName :: rest) = VNull).
Proof.
  split; [|split].
  - intros Ht Ho Hk. rewrite findRouteInContract_unfold, Ht, Ho, Hk.
    reflexivity.
  - rewrite findRouteInContract_unfold.
    destruct (negb (truthy contractObj) || negb (typeof_object contractObj));
      [discriminate|].
    destruct (truthy (get contractObj routeName)); [left; reflexivity|].
    intros H. right. apply scanNested_source, H.
  - apply findRouteInContract_truthy_or_null.
Qed.

(** A route named [pathPrefix] is not found in the options of the router:
    the lookup gives null. *)
Lemma findRouteInContract_source_witness :
  findRouteInContract (extractObjectLiteral posts_router) ["pathPrefix"]
  = VNull.
Proof.
  apply (proj2 (proj2 (findRouteInContract_source
                         (extractObjectLiteral posts_router)
                         "pathPrefix" []))).
  reflexivity.
Defined.

(* ------------------------------------------------------------------ *)
(** ** What a router call evaluates to *)

Lemma extractObjectLiteral_router_call (target : expr)
      (arguments : list expr) :
  extractObjectLiteral (ECall (EPropertyAccess target "router") arguments)
  = let router :=
      match arguments with
      | a0 :: _ =>
          if truthy (extractObjectLiteral a0)
          then assign bare_router (extractObjectLiteral a0)
          else bare_router
      | [] => bare_router
      end in
    match arguments with
    | _ :: a1 :: _ =>
        if truthy (extractObjectLiteral a1)
        then set router "__options" (extractObjectLiteral a1)
        else router
    | _ => router
    end.
Proof. reflexivity. Qed.

Lemma bare_router_is_obj : is_obj bare_router.
Proof. eexists; eexists; reflexivity. Qed.

(** X8. A router call merges the routes of its first argument into the
    tagged router object: every own key of the routes object (other than
    [__proto__] and [__options]) reads back from the router with its value,
    a key [__router] of the routes included; the tag is [true] when the
    routes do not define it; and the truthy value of a second argument is
    what the router has under [__options], whatever the routes say. *)
Theorem router_call_merge (target routes : expr) (rest : list expr)
        (proto : value) (ps : props) :
  extractObjectLiteral routes = VObj proto ps ->
  let router :=
    extractObjectLiteral
      (ECall (EPropertyAccess target "router") (routes :: rest)) in
  (forall k v, own_lookup k ps = Some v ->
               k <> "__proto__" -> k <> "__options" ->
               get router k = v)
  /\ (own_lookup "__router" ps = None -> get router "__router" = VBool true)
  /\ (forall options more,
         rest = options :: more ->
         truthy (extractObjectLiteral options) = true ->
         get router "__options" = extractObjectLiteral options).
Proof.
  intros Hroutes router.
  assert (Hnd : NoDup (List.map fst ps)).
  { pose proof (extractObjectLiteral_distinct_keys routes) as H.
    rewrite Hroutes in H. exact H. }
  set (merged := fold_left set_entry ps bare_router).
  assert (Hmerged : is_obj merged)
    by apply fold_set_preserves_obj, bare_router_is_obj.
  assert (Hrouter : router
                    = match rest with
                      | a1 :: _ =>
                          if truthy (extractObjectLiteral a1)
                          then set merged "__options" (extractObjectLiteral a1)
                          else merged
                      | [] => merged
                      end).
  { subst router. rewrite extractObjectLiteral_router_call. cbv zeta.
    rewrite Hroutes. reflexivity. }
  assert (Hobj : is_obj router).
  { rewrite Hrouter. destruct rest as [|a1 ?]; [exact Hmerged|].
    destruct (truthy _); auto using set_preserves_obj. }
  assert (Hother : forall k, k <> "__options" ->
                             own_lookup k (entries router)
                             = own_lookup k (entries merged)).
  { intros k Hk. rewrite Hrouter. destruct rest as [|a1 ?]; [reflexivity|].
    destruct (truthy _); [|reflexivity].
    apply own_lookup_set_other, Hk. }
  split; [|split].
  - intros k v Hk Hproto Hopt. apply get_own_entries; [exact Hobj|].
    rewrite (Hother k Hopt). subst merged.
    apply fold_set_wins; auto using bare_router_is_obj.
  - intros Hnone. apply get_own_entries; [exact Hobj|].
    rewrite Hother by discriminate. subst merged.
    rewrite fold_set_frame; [reflexivity|].
    apply own_lookup_none_iff, Hnone.
  - intros options more -> Ht. rewrite Hrouter, Ht.
    destruct Hmerged as (p' & ps' & Hm). rewrite Hm.
    apply get_own_entries; [apply set_is_obj|].
    apply own_lookup_set_same. discriminate.
Qed.

(** The router of the worked example. *)
Lemma router_call_merge_witness :
  get (extractObjectLiteral posts_router) "__router" = VBool true
  /\ get (extractObjectLiteral posts_router) "__options"
     = VObj VObjectPrototype [("pathPrefix", VStr "/posts")].
Proof.
  destruct (@router_call_merge
              (EIdentifier "c")
              (EObjectLiteral
                 [PPropertyAssignment (PNIdentifier "createPost")
                    (EObjectLiteral
                       [PPropertyAssignment (PNIdentifier "method")
                                            (EStringLiteral "POST");
                        PPropertyAssignment (PNIdentifier "path")
                                            (EStringLiteral "/");
                        PPropertyAssignment (PNIdentifier "summary")
                          (EStringLiteral "Create a new post")])])
              [EObjectLiteral
                 [PPropertyAssignment (PNIdentifier "pathPrefix")
                                      (EStringLiteral "/posts")]]
              _ _ eq_refl) as (_ & Htag & Hopt).
  split.
  - apply Htag. reflexivity.
  - apply (Hopt _ [] eq_refl). reflexivity.
Defined.

(* ------------------------------------------------------------------ *)
(** ** What an object literal evaluates to *)





(* ------------------------------------------------------------------ *)
(** ** The verbs of the HTTP-method calls *)

Lemma lower_upper_ascii (c : ascii) :
  Str.lower_ascii (Str.upper_ascii c) = Str.lower_ascii c.
Proof. destruct c as [[] [] [] [] [] [] [] []]; reflexivity. Qed.

Lemma upper_lower_ascii (c : ascii) :
  Str.upper_ascii (Str.lower_ascii c) = Str.upper_ascii c.
Proof. destruct c as [[] [] [] [] [] [] [] []]; reflexivity. Qed.

Lemma toLowerCase_toUpperCase (s : string) :
  Str.toLowerCase (Str.toUpperCase s) = Str.toLowerCase s.
Proof.
  induction s as [|c s IH]; simpl; [reflexivity|].
  rewrite lower_upper_ascii, IH. reflexivity.
Qed.

Lemma toUpperCase_toLowerCase (s : string) :
  Str.toUpperCase (Str.toLowerCase s) = Str.toUpperCase s.
Proof.
  induction s as [|c s IH]; simpl; [reflexivity|].
  rewrite upper_lower_ascii, IH. reflexivity.
Qed.

Lemma mem_string_In (k : string) (l : list string) :
  mem_string k l = true <-> In k l.
Proof.
  induction l as [|x l IH]; simpl; [split; [discriminate | tauto]|].
  rewrite orb_true_iff, IH, String.eqb_eq. split; intros [H | H]; auto.
Qed.

Lemma verb_uppercase (name : string) :
  mem_string (Str.toLowerCase name) httpMethods = true ->
  In (Str.toUpperCase name) verbs.
Proof.
  intros H. apply mem_string_In in H.
  rewrite <- toUpperCase_toLowerCase.
  simpl in H.
  repeat (destruct H as [<- | H]; [simpl; tauto|]).
  destruct H.
Qed.

Lemma lower_lower_ascii (c : ascii) :
  Str.lower_ascii (Str.lower_ascii c) = Str.lower_ascii c.
Proof. destruct c as [[] [] [] [] [] [] [] []]; reflexivity. Qed.

Lemma toLowerCase_idempotent (s : string) :
  Str.toLowerCase (Str.toLowerCase s) = Str.toLowerCase s.
Proof.
  induction s as [|c s IH]; simpl; [reflexivity|].
  rewrite lower_lower_ascii, IH. reflexivity.
Qed.

Lemma verb_route_with_path_lower (name : string) (arguments : list expr) :
  verb_route_with_path (Str.toLowerCase name) arguments
  = verb_route_with_path name arguments.
Proof.
  unfold verb_route_with_path, verb_route.
  rewrite toUpperCase_toLowerCase. reflexivity.
Qed.

(** X10. For a verb name of ASCII characters, whether a call is an
    HTTP-method call does not depend on the casing of the verb; for such a
    call the verb put in the route is one of [GET], [POST], [PUT],
    [PATCH], [DELETE], [HEAD], [OPTIONS], and the value of the call is the
    same however the call spells the verb. *)
Theorem verb_casing (target : expr) (name : string) :
  Str.ascii_only name = true ->
  isTsRestMethodCall (EPropertyAccess target (Str.toUpperCase name))
  = isTsRestMethodCall (EPropertyAccess target name)
  /\ isTsRestMethodCall (EPropertyAccess target (Str.toLowerCase name))
     = isTsRestMethodCall (EPropertyAccess target name)
  /\ (isTsRestMethodCall (EPropertyAccess target name) = true ->
      In (Str.toUpperCase name) verbs
      /\ forall arguments,
          extractObjectLiteral
            (ECall (EPropertyAccess target (Str.toLowerCase name)) arguments)
          = extractObjectLiteral
              (ECall (EPropertyAccess target name) arguments)).
Proof.
  intros _. split; [|split].
  - simpl. rewrite toLowerCase_toUpperCase. reflexivity.
  - simpl. rewrite toLowerCase_idempotent. reflexivity.
  - intros Hverb. split; [apply verb_uppercase, Hverb|].
    intros arguments.
    assert (Hlow : isTsRestMethodCall
                     (EPropertyAccess target (Str.toLowerCase name)) = true).
    { simpl. rewrite toLowerCase_idempotent. exact Hverb. }
    rewrite (extractObjectLiteral_verb_call _ _ _ Hverb),
            (extractObjectLiteral_verb_call _ _ _ Hlow),
            verb_route_with_path_lower.
    reflexivity.
Qed.

(** [c.Post(...)] is an HTTP-method call, with the verb [POST]. *)
Lemma verb_casing_witness :
  In (Str.toUpperCase "Post") verbs
  /\ extractObjectLiteral
       (ECall (EPropertyAccess (EIdentifier "c") (Str.toLowerCase "Post"))
              [EStringLiteral "/"])
     = extractObjectLiteral
         (ECall (EPropertyAccess (EIdentifier "c") "Post")
                [EStringLiteral "/"]).
Proof.
  destruct (proj2 (proj2 (@verb_casing (EIdentifier "c") "Post" eq_refl))
                  eq_refl)
    as [Hin Hsame].
  split; [exact Hin | apply Hsame].
Defined.

Lemma verb_call_path (target : expr) (name text : string)
      (rest : list expr) :
  isTsRestMethodCall (EPropertyAccess target name) = true ->
  match rest with
  | a1 :: _ =>
      own_lookup "path" (assign_source (extractObjectLiteral a1)) = None
  | [] => True
  end ->
  get (extractObjectLiteral
         (ECall (EPropertyAccess target name) (EStringLiteral text :: rest)))
      "path"
  = VStr text.
Proof.
  intros Hverb Hoptions.
  rewrite (extractObjectLiteral_verb_call _ _ _ Hverb).
  assert (Hobj : is_obj (verb_route_with_path
                           name (EStringLiteral text :: rest)))
    by apply verb_route_with_path_shape.
  assert (Hpath : own_lookup "path"
                    (entries (verb_route_with_path
                                name (EStringLiteral text :: rest)))
                  = Some (VStr text)) by reflexivity.
  destruct rest as [|a1 more]; [apply get_own_entries; assumption|].
  destruct (truthy (extractObjectLiteral a1));
    [|apply get_own_entries; assumption].
  rewrite assign_unfold. apply get_own_entries.
  - apply fold_set_preserves_obj, Hobj.
  - rewrite fold_set_frame; [exact Hpath|].
    apply own_lookup_none_iff, Hoptions.
Qed.

Lemma verbs_nonempty (name : string) :
  In (Str.toUpperCase name) verbs -> Str.isEmpty (Str.toUpperCase name) = false.
Proof.
  simpl. intros H.
  repeat (destruct H as [<- | H]; [reflexivity|]). destruct H.
Qed.

(** X11. An HTTP-method call with a string literal as its first argument,
    whose options (if any) define neither [method] nor [path], gives a
    route definition, without raising: its method is the uppercased verb
    and its path is the text of the literal, the empty text included. *)
Theorem verb_call_definition (target : expr) (name text : string)
        (rest : list expr) :
  isTsRestMethodCall (EPropertyAccess target name) = true ->
  match rest with
  | a1 :: _ =>
      own_lookup "method" (assign_source (extractObjectLiteral a1)) = None
      /\ own_lookup "path" (assign_source (extractObjectLiteral a1)) = None
  | [] => True
  end ->
  exists d,
    extractRouteDefinition
      (extractObjectLiteral
         (ECall (EPropertyAccess target name) (EStringLiteral text :: rest)))
    = Ok (Some d)
    /\ ContractDefinition.method d = VStr (Str.toUpperCase name)
    /\ ContractDefinition.path d = VStr text.
Proof.
  intros Hverb Hoptions.
  set (route := extractObjectLiteral
                  (ECall (EPropertyAccess target name)
                         (EStringLiteral text :: rest))).
  assert (Hmethod : get route "method" = VStr (Str.toUpperCase name)).
  { apply verb_call_method; [exact Hverb|].
    destruct rest; [exact I | apply Hoptions]. }
  assert (Hpath : get route "path" = VStr text).
  { apply verb_call_path; [exact Hverb|].
    destruct rest; [exact I | apply Hoptions]. }
  assert (Hobj : is_obj route).
  { subst route. rewrite (extractObjectLiteral_verb_call _ _ _ Hverb).
    pose proof (verb_route_with_path_shape
                  name (EStringLiteral text :: rest)) as (Ho & _).
    destruct rest as [|a1 more]; [exact Ho|].
    destruct (truthy _); [|exact Ho].
    rewrite assign_unfold. apply fold_set_preserves_obj, Ho. }
  exists (directDefinition route).
  rewrite extractRouteDefinition_unfold.
  destruct Hobj as (proto & ps & Hroute). rewrite Hroute in *.
  cbn [truthy typeof_object negb orb].
  assert (Ht : truthy (VStr (Str.toUpperCase name)) = true).
  { cbn [truthy]. rewrite (verbs_nonempty _ (verb_uppercase _ Hverb)).
    reflexivity. }
  unfold jor at 1. rewrite Hmethod, Ht, Ht.
  split; [reflexivity|]. split; assumption.
Qed.

(** [c.get('')]. *)
Lemma verb_call_definition_witness :
  exists d,
    extractRouteDefinition
      (extractObjectLiteral
         (ECall (EPropertyAccess (EIdentifier "c") "get")
                [EStringLiteral ""]))
    = Ok (Some d)
    /\ ContractDefinition.method d = VStr "GET"
    /\ ContractDefinition.path d = VStr "".
Proof.
  exact (@verb_call_definition (EIdentifier "c") "get" "" [] eq_refl I).
Defined.

(* ------------------------------------------------------------------ *)
(** ** Insertion-ordered maps *)

Section OrderedMapFacts.

Variable A : Type.
Implicit Types (m : OrderedMap.t A) (k : string) (v : A).

Lemma omap_get_app k m m' :
  OrderedMap.get k (m ++ m')
  = match OrderedMap.get k m with
    | Some v => Some v
    | None => OrderedMap.get k m'
    end.
Proof.
  induction m as [|[k' v'] m IH]; simpl; [reflexivity|].
  destruct (String.eqb k k'); [reflexivity | exact IH].
Qed.

Lemma omap_get_replace_same k v m :
  OrderedMap.get k m <> None ->
  OrderedMap.get k (OrderedMap.replace k v m) = Some v.
Proof.
  induction m as [|[k' v'] m IH]; simpl; [congruence|].
  destruct (String.eqb k k') eqn:E; simpl; rewrite E; auto.
Qed.

Lemma omap_get_replace_other k k' v m :
  k <> k' ->
  OrderedMap.get k (OrderedMap.replace k' v m) = OrderedMap.get k m.
Proof.
  intros Hne. induction m as [|[k1 v1] m IH]; simpl; [reflexivity|].
  case_eqb k' k1; simpl.
  - apply String.eqb_neq in Hne. rewrite Hne. reflexivity.
  - rewrite IH. reflexivity.
Qed.

Lemma omap_get_set_same k v m :
  OrderedMap.get k (OrderedMap.set k v m) = Some v.
Proof.
  unfold OrderedMap.set. destruct (OrderedMap.get k m) eqn:E.
  - apply omap_get_replace_same. congruence.
  - rewrite omap_get_app, E. simpl. rewrite String.eqb_refl. reflexivity.
Qed.

Lemma omap_get_set_other k k' v m :
  k <> k' ->
  OrderedMap.get k (OrderedMap.set k' v m) = OrderedMap.get k m.
Proof.
  intros Hne. unfold OrderedMap.set. destruct (OrderedMap.get k' m).
  - apply omap_get_replace_other, Hne.
  - rewrite omap_get_app. simpl.
    apply String.eqb_neq in Hne. rewrite Hne.
    destruct (OrderedMap.get k m); reflexivity.
Qed.

Lemma omap_get_delete_same k m :
  OrderedMap.get k (OrderedMap.delete k m) = None.
Proof.
  induction m as [|[k' v'] m IH]; simpl; [reflexivity|].
  destruct (String.eqb k k') eqn:E; [exact IH|].
  simpl. rewrite E. exact IH.
Qed.

Lemma omap_get_delete_other k k' m :
  k <> k' ->
  OrderedMap.get k (OrderedMap.delete k' m) = OrderedMap.get k m.
Proof.
  intros Hne. induction m as [|[k1 v1] m IH]; simpl; [reflexivity|].
  case_eqb k' k1.
  - apply String.eqb_neq in Hne. rewrite Hne. exact IH.
  - simpl. rewrite IH. reflexivity.
Qed.

Lemma omap_get_none_iff k m :
  OrderedMap.get k m = None <-> ~ In k (OrderedMap.keys m).
Proof.
  unfold OrderedMap.keys.
  induction m as [|[k' v'] m IH]; simpl; [tauto|].
  case_eqb k k'.
  - split; [discriminate | intros H; exfalso; apply H; left; reflexivity].
  - rewrite IH. split; [intros H [H'|H']; [congruence | tauto] | tauto].
Qed.

Lemma omap_replace_keys k v m :
  OrderedMap.keys (OrderedMap.replace k v m) = OrderedMap.keys m.
Proof.
  unfold OrderedMap.keys.
  induction m as [|[k' v'] m IH]; simpl; [reflexivity|].
  destruct (String.eqb k k'); simpl; [reflexivity | rewrite IH; reflexivity].
Qed.

Lemma omap_set_keys_nodup k v m :
  NoDup (OrderedMap.keys m) -> NoDup (OrderedMap.keys (OrderedMap.set k v m)).
Proof.
  intros Hnd. unfold OrderedMap.set.
  destruct (OrderedMap.get k m) eqn:E.
  - rewrite omap_replace_keys. exact Hnd.
  - unfold OrderedMap.keys. rewrite List.map_app. simpl.
    eapply Permutation_NoDup; [apply Permutation_cons_append|].
    constructor; [apply omap_get_none_iff, E | exact Hnd].
Qed.

End OrderedMapFacts.

(* ------------------------------------------------------------------ *)
(** ** The contract cache *)

Section ContractCacheFacts.

Variable stat_mtime : string -> option nat.
Variable openSourceFile : string -> option node.

Lemma parseFresh_cached (now : nat) (contractCache : ContractCache.cache)
      (filePath : string) (contractFile : ContractCache.ContractFile)
      (after : ContractCache.cache) :
  ContractCache.parseFresh openSourceFile now contractCache filePath
  = (Ok contractFile, after) ->
  OrderedMap.get filePath after = Some contractFile
  /\ ContractCache.lastModified contractFile = now
  /\ after = OrderedMap.set filePath contractFile contractCache.
Proof.
  unfold ContractCache.parseFresh.
  destruct (openSourceFile filePath); [|discriminate].
  intros [= <- <-]. split; [apply omap_get_set_same|]. split; reflexivity.
Qed.

(** What [parseContractFile] returns is what the cache then holds for the
    file, with a recorded time that is [now] or covers the modification
    time reported. *)
Lemma parseContractFile_cached (now : nat)
      (contractCache : ContractCache.cache) (filePath : string)
      (contractFile : ContractCache.ContractFile)
      (after : ContractCache.cache) :
  ContractCache.parseContractFile stat_mtime openSourceFile
                                  now contractCache filePath
  = (Ok contractFile, after) ->
  OrderedMap.get filePath after = Some contractFile
  /\ (ContractCache.lastModified contractFile = now
      \/ exists mtime,
          stat_mtime filePath = Some mtime
          /\ mtime <= ContractCache.lastModified contractFile).
Proof.
  unfold ContractCache.parseContractFile.
  destruct (OrderedMap.get filePath contractCache) as [cached|] eqn:Hget.
  - destruct (stat_mtime filePath) as [mtime|] eqn:Hstat.
    + destruct (mtime <=? ContractCache.lastModified cached)%nat eqn:Hle.
      * intros [= <- <-]. split; [exact Hget|]. right.
        exists mtime. split; [reflexivity | apply Nat.leb_le, Hle].
      * intros H. apply parseFresh_cached in H. tauto.
    + intros H. apply parseFresh_cached in H. tauto.
  - intros H. apply parseFresh_cached in H. tauto.
Qed.

End ContractCacheFacts.



(** X13. The cache after a parse: a contract file returned is the one the
    cache then holds for the path; the entries of the other paths are as
    before; a parse that raises leaves the whole cache as it was, a stale
    entry of the file included; and the paths listed by the statistics stay
    pairwise distinct. *)
Theorem parseContractFile_cache
        (stat_mtime : string -> option nat)
        (openSourceFile : string -> option node) (now : nat)
        (contractCache after : ContractCache.cache) (filePath : string)
        (outcome : result ContractCache.ContractFile) :
  ContractCache.parseContractFile stat_mtime openSourceFile
                                  now contractCache filePath
  = (outcome, after) ->
  (forall contractFile,
      outcome = Ok contractFile ->
      OrderedMap.get filePath after = Some contractFile)
  /\ (forall other, other <> filePath ->
                    OrderedMap.get other after
                    = OrderedMap.get other contractCache)
  /\ (outcome = Thrown -> after = contractCache)
  /\ (NoDup (snd (ContractCache.getCacheStats contractCache)) ->
      NoDup (snd (ContractCache.getCacheStats after))).
Proof.
  intros H.
  assert (Hcases : after = contractCache
                   \/ exists contractFile,
                       outcome = Ok contractFile
                       /\ after = OrderedMap.set filePath contractFile
                                                 contractCache).
  { unfold ContractCache.parseContractFile, ContractCache.parseFresh in H.
    destruct (OrderedMap.get filePath contractCache) as [cached|];
      [destruct (stat_mtime filePath) as [mtime|];
       [destruct (mtime <=? ContractCache.lastModified cached)%nat|]|];
      try (injection H as <- <-; left; reflexivity);
      (destruct (openSourceFile filePath);
       injection H as <- <-; [right; eexists; split; reflexivity
                             | left; reflexivity]). }
  split; [|split; [|split]].
  - intros contractFile ->.
    apply parseContractFile_cached in H. apply H.
  - intros other Hne. destruct Hcases as [-> | (cf & _ & ->)];
      [reflexivity | apply omap_get_set_other, Hne].
  - intros ->. destruct Hcases as [-> | (cf & Habs & _)];
      [reflexivity | discriminate Habs].
  - simpl. intros Hnd. destruct Hcases as [-> | (cf & _ & ->)];
      [exact Hnd | apply omap_set_keys_nodup, Hnd].
Qed.

(** X13 on a parse that raises over a stale entry (cached at time 10,
    modified at time 11, and no longer to be opened): the entry stays. *)
Lemma parseContractFile_cache_witness :
  snd (ContractCache.parseContractFile
         modified_at_eleven open_nothing 20
         [("/ws/health.contract.ts", health_file)]
         "/ws/health.contract.ts")
  = [("/ws/health.contract.ts", health_file)].
Proof.
  exact (proj1 (proj2 (proj2
           (@parseContractFile_cache
              modified_at_eleven open_nothing 20
              [("/ws/health.contract.ts", health_file)]
              (snd (ContractCache.parseContractFile
                      modified_at_eleven open_nothing 20
                      [("/ws/health.contract.ts", health_file)]
                      "/ws/health.contract.ts"))
              "/ws/health.contract.ts" Thrown eq_refl))) eq_refl).
Defined.

(** X14. Once a file is invalidated the cache has no entry for it and the
    entries of the other files are untouched; the next parse of the file
    then reads it again whatever its modification time, and returns the
    table of what the file contains now. *)
Theorem invalidateCache_forces_parse
        (stat_mtime : string -> option nat)
        (openSourceFile : string -> option node) (now : nat)
        (contractCache : ContractCache.cache) (filePath : string) :
  OrderedMap.get filePath
                 (ContractCache.invalidateCache filePath contractCache) = None
  /\ (forall other, other <> filePath ->
                    OrderedMap.get other
                      (ContractCache.invalidateCache filePath contractCache)
                    = OrderedMap.get other contractCache)
  /\ (forall sourceFile,
         openSourceFile filePath = Some sourceFile ->
         fst (ContractCache.parseContractFile
                stat_mtime openSourceFile now
                (ContractCache.invalidateCache filePath contractCache)
                filePath)
         = Ok {| ContractCache.filePath := filePath;
                 ContractCache.exports := extractExports sourceFile;
                 ContractCache.lastModified := now |})
  /\ ContractCache.getCacheStats (ContractCache.clearCache contractCache)
     = (0, []).
Proof.
  unfold ContractCache.invalidateCache.
  split; [apply omap_get_delete_same | split; [|split]].
  - intros other Hne. apply omap_get_delete_other, Hne.
  - intros sourceFile Hopen.
    unfold ContractCache.parseContractFile, ContractCache.parseFresh.
    rewrite omap_get_delete_same, Hopen. reflexivity.
  - reflexivity.
Qed.

(** X14 on the cached health contract: invalidated, it is parsed again
    although its modification time is older than the cached entry. *)
Lemma invalidateCache_forces_parse_witness :
  fst (ContractCache.parseContractFile
         modified_at_five open_bare 30
         (ContractCache.invalidateCache
            "/ws/health.contract.ts"
            [("/ws/health.contract.ts", health_file)])
         "/ws/health.contract.ts")
  = Ok {| ContractCache.filePath := "/ws/health.contract.ts";
          ContractCache.exports := extractExports bare_contract;
          ContractCache.lastModified := 30 |}.
Proof.
  apply (proj1 (proj2 (proj2
           (invalidateCache_forces_parse
              modified_at_five open_bare 30
              [("/ws/health.contract.ts", health_file)]
              "/ws/health.contract.ts")))).
  reflexivity.
Defined.

(* ------------------------------------------------------------------ *)
(** ** The import table *)

Lemma bind_elements_frame (importPath local : string)
      (elements : list AstImports.ImportSpecifier) :
  ~ In local (List.map AstImports.name elements) ->
  forall result,
    OrderedMap.get local
      (fold_left (AstImports.bind_element importPath) elements result)
    = OrderedMap.get local result.
Proof.
  induction elements as [|e es IH]; intros Hnot result; [reflexivity|].
  simpl in Hnot. cbn [fold_left]. rewrite IH by tauto.
  unfold AstImports.bind_element. apply omap_get_set_other.
  intros ->. tauto.
Qed.

Lemma bind_elements_binds (importPath : string)
      (elements : list AstImports.ImportSpecifier)
      (element : AstImports.ImportSpecifier) :
  NoDup (List.map AstImports.name elements) ->
  In element elements ->
  forall result,
    OrderedMap.get (AstImports.name element)
      (fold_left (AstImports.bind_element importPath) elements result)
    = Some (named_binding importPath (AstImports.original_name element)).
Proof.
  induction elements as [|e es IH]; intros Hnd Hin result; [destruct Hin|].
  simpl in Hnd. inversion Hnd as [|? ? Hnotin Hnd']; subst.
  cbn [fold_left]. destruct Hin as [-> | Hin].
  - rewrite bind_elements_frame by exact Hnotin.
    unfold AstImports.bind_element. apply omap_get_set_same.
  - apply IH; assumption.
Qed.

(** X15. What an import declaration with a string specifier binds: each
    element of a named import list (with distinct local names) binds its
    local name to the module path with the imported name, the name before
    [as] when the element renames, as export name; a namespace import binds
    its name to the module path without an export name and not marked as
    default import; a default import binds its name to the module path
    marked as default import, also next to named or namespace bindings, as
    long as these do not bind the same name again.  So a reference through
    a named import is looked up in the export of the original name only,
    while namespace and default imports share the lookup without a hint. *)
Theorem import_bindings (declaration : AstImports.ImportDeclaration)
        (importPath : string) (clause : AstImports.ImportClause)
        (result : AstImports.imports) :
  AstImports.moduleSpecifier declaration = EStringLiteral importPath ->
  AstImports.importClause declaration = Some clause ->
  (forall elements element,
      AstImports.namedBindings clause
      = Some (AstImports.NamedImports elements) ->
      NoDup (List.map AstImports.name elements) ->
      In element elements ->
      OrderedMap.get (AstImports.name element)
        (AstImports.processImportDeclaration declaration result)
      = Some (named_binding importPath (AstImports.original_name element))
      /\ (AstImports.original_name element <> "" ->
          lookup_scope
            (named_binding importPath (AstImports.original_name element))
          = Some (AstImports.original_name element)))
  /\ (forall namespaceName,
         AstImports.namedBindings clause
         = Some (AstImports.NamespaceImport namespaceName) ->
         OrderedMap.get namespaceName
           (AstImports.processImportDeclaration declaration result)
         = Some (namespace_binding importPath)
         /\ TsRestCodeLensProvider.isDefaultImport
              (namespace_binding importPath) = false
         /\ lookup_scope (namespace_binding importPath) = None)
  /\ (forall importName,
         AstImports.defaultName clause = Some importName ->
         match AstImports.namedBindings clause with
         | None => True
         | Some (AstImports.NamedImports elements) =>
             ~ In importName (List.map AstImports.name elements)
         | Some (AstImports.NamespaceImport namespaceName) =>
             importName <> namespaceName
         end ->
         OrderedMap.get importName
           (AstImports.processImportDeclaration declaration result)
         = Some (default_binding importPath)
         /\ TsRestCodeLensProvider.isDefaultImport
              (default_binding importPath) = true
         /\ lookup_scope (default_binding importPath) = None).
Proof.
  intros Hspec Hclause.
  unfold AstImports.processImportDeclaration. rewrite Hspec, Hclause.
  split; [|split].
  - intros elements element Hnamed Hnd Hin. rewrite Hnamed. split.
    + apply bind_elements_binds; assumption.
    + intros Hne. unfold lookup_scope, named_export. simpl.
      rewrite (isEmpty_false Hne). reflexivity.
  - intros namespaceName Hns. rewrite Hns.
    split; [|split; reflexivity].
    apply omap_get_set_same.
  - intros importName Hdefault Hfree. rewrite Hdefault.
    split; [|split; reflexivity].
    destruct (AstImports.namedBindings clause)
      as [[elements|namespaceName]|].
    + rewrite bind_elements_frame by exact Hfree. apply omap_get_set_same.
    + rewrite omap_get_set_other by exact Hfree. apply omap_get_set_same.
    + apply omap_get_set_same.
Qed.

(** X15 on [import { contract as c } from './posts.contract']: [c] is
    bound to the export [contract]. *)
Lemma import_bindings_witness :
  OrderedMap.get "c"
    (AstImports.extractImports
       (AstImports.NOther
          [AstImports.NImportDeclaration import_contract_as_c []]))
  = Some (named_binding "./posts.contract" "contract").
Proof.
  apply (proj1 (proj1 (@import_bindings import_contract_as_c
                         "./posts.contract" _ [] eq_refl eq_refl)
                      _ {| AstImports.name := "c";
                           AstImports.propertyName := Some "contract" |}
                      eq_refl
                      ltac:(repeat constructor; simpl; tauto)
                      (or_introl eq_refl))).
Defined.

(* ------------------------------------------------------------------ *)
(** ** The text of an annotation *)

Lemma isEmpty_toUpperCase (s : string) :
  Str.isEmpty (Str.toUpperCase s) = Str.isEmpty s.
Proof. destruct s; reflexivity. Qed.

Lemma upper_upper_ascii (c : ascii) :
  Str.upper_ascii (Str.upper_ascii c) = Str.upper_ascii c.
Proof.
  destruct c as [[] [] [] [] [] [] [] []]; reflexivity.
Qed.

Lemma toUpperCase_idempotent (s : string) :
  Str.toUpperCase (Str.toUpperCase s) = Str.toUpperCase s.
Proof.
  induction s as [|c r IH]; simpl; [reflexivity|].
  rewrite upper_upper_ascii, IH. reflexivity.
Qed.

Lemma join_strings (toStringOther : value -> result string)
      (texts : list string) :
  RouteAnnotationProvider.join toStringOther (List.map VStr texts)
  = Ok (String.concat " " texts).
Proof.
  induction texts as [|a [|b r] IH]; try reflexivity.
  change (RouteAnnotationProvider.join toStringOther
            (List.map VStr (a :: b :: r)))
    with (rest <- RouteAnnotationProvider.join toStringOther
                    (List.map VStr (b :: r)) ;;
          Ok (String.append a (String.append " " rest))).
  rewrite IH. reflexivity.
Qed.

Lemma append_empty (a b : string) :
  String.append a b = "" -> a = "" /\ b = "".
Proof. destruct a; simpl; [tauto|discriminate]. Qed.

Lemma concat_nonempty (sep a : string) (r : list string) :
  a <> "" -> String.concat sep (a :: r) <> "".
Proof.
  intros Ha H. destruct r as [|b r]; simpl in H; [tauto|].
  apply append_empty in H. tauto.
Qed.

Lemma shown_nonempty (flag : bool) (text x : string) :
  In x (shown flag text) -> x <> "".
Proof.
  unfold shown. destruct flag; simpl; [|tauto].
  destruct text; simpl; [tauto|]. intros [<-|[]]. discriminate.
Qed.

Lemma annotation_parts_nonempty
      (config : RouteAnnotationProvider.AnnotationConfig) (m f s x : string) :
  In x (annotation_parts config m f s) -> x <> "".
Proof.
  unfold annotation_parts. rewrite !in_app_iff, in_map_iff.
  intros [H|[H|[y [<- _]]]]; try (eapply shown_nonempty; eassumption).
  discriminate.
Qed.

Lemma formatAnnotationText_strings (toStringOther : value -> result string)
      (config : RouteAnnotationProvider.AnnotationConfig)
      (routeInfo : RouteInfo.t) (m f s : string) :
  RouteInfo.method routeInfo = VStr m ->
  RouteInfo.fullPath routeInfo = VStr f ->
  summary_text (RouteInfo.summary routeInfo) = Some s ->
  RouteAnnotationProvider.formatAnnotationText toStringOther config routeInfo
  = Ok (annotation_text config m f s).
Proof.
  intros Hm Hf Hs.
  assert (Hsum : (truthy (RouteInfo.summary routeInfo)
                  = negb (Str.isEmpty s))
                 /\ (truthy (RouteInfo.summary routeInfo) = true ->
                     RouteAnnotationProvider.toStringJS toStringOther
                       (RouteInfo.summary routeInfo) = Ok s)).
  { destruct (RouteInfo.summary routeInfo); simpl in Hs; try discriminate;
      injection Hs as <-; simpl; split; try reflexivity; discriminate. }
  destruct Hsum as [Hts Hss].
  unfold RouteAnnotationProvider.formatAnnotationText, annotation_text,
    annotation_parts, shown.
  rewrite Hm, Hf, Hts. cbn [truthy call_toUpperCase].
  rewrite isEmpty_toUpperCase.
  destruct (RouteAnnotationProvider.showHttpMethod config),
    (RouteAnnotationProvider.showPath config),
    (RouteAnnotationProvider.showSummary config),
    (Str.isEmpty m) eqn:Em, (Str.isEmpty f) eqn:Ef,
    (Str.isEmpty s) eqn:Es;
    cbn [andb negb bind app List.map List.length Nat.eqb];
    try reflexivity;
    try (rewrite Hss by (rewrite Hts; reflexivity));
    cbn [bind app List.length Nat.eqb];
    try reflexivity.
Qed.

(** X16. The annotation of a route whose method is a string of ASCII
    characters, whose full path is a string and whose summary is a string
    or absent: [formatAnnotationText] never raises and does not consult the
    conversion of other values to text; the text is the prefix followed by
    the shown parts (uppercased method, full path, summary after a dash)
    separated by single spaces; it is empty exactly when no part is shown,
    whatever the prefix; and it is the same for the method in any other
    casing. *)
Theorem annotation_text_of_strings
        (toStringOther : value -> result string)
        (config : RouteAnnotationProvider.AnnotationConfig)
        (routeInfo : RouteInfo.t) (m f s : string) :
  RouteInfo.method routeInfo = VStr m ->
  Str.ascii_only m = true ->
  RouteInfo.fullPath routeInfo = VStr f ->
  summary_text (RouteInfo.summary routeInfo) = Some s ->
  RouteAnnotationProvider.formatAnnotationText toStringOther config routeInfo
  = Ok (annotation_text config m f s)
  /\ (annotation_text config m f s = ""
      <-> annotation_parts config m f s = [])
  /\ (forall m',
         Str.ascii_only m' = true ->
         Str.toUpperCase m' = Str.toUpperCase m ->
         RouteAnnotationProvider.formatAnnotationText toStringOther config
           {| RouteInfo.method := VStr m';
              RouteInfo.path := RouteInfo.path routeInfo;
              RouteInfo.summary := RouteInfo.summary routeInfo;
              RouteInfo.fullPath := RouteInfo.fullPath routeInfo |}
         = RouteAnnotationProvider.formatAnnotationText toStringOther config
             routeInfo).
Proof.
  intros Hm _ Hf Hs. split; [|split].
  - apply formatAnnotationText_strings; assumption.
  - unfold annotation_text.
    destruct (annotation_parts config m f s) as [|a r] eqn:Hparts;
      [tauto|].
    split; [|discriminate]. intros H. exfalso.
    apply append_empty in H. destruct H as [_ H].
    revert H. apply concat_nonempty.
    apply (@annotation_parts_nonempty config m f s). rewrite Hparts.
    left. reflexivity.
  - intros m' _ Hcase.
    rewrite (@formatAnnotationText_strings toStringOther config routeInfo
               m f s Hm Hf Hs).
    rewrite (@formatAnnotationText_strings toStringOther config
               {| RouteInfo.method := VStr m';
                  RouteInfo.path := RouteInfo.path routeInfo;
                  RouteInfo.summary := RouteInfo.summary routeInfo;
                  RouteInfo.fullPath := RouteInfo.fullPath routeInfo |}
               m' f s eq_refl Hf Hs).
    unfold annotation_text, annotation_parts. rewrite Hcase. reflexivity.
Qed.

(** X16 on the route [createPost] with the default configuration. *)
Lemma annotation_text_of_strings_witness :
  RouteAnnotationProvider.formatAnnotationText to_text default_config
    createPost_info
  = Ok " // POST /posts - Create a new post".
Proof.
  exact (proj1 (@annotation_text_of_strings to_text default_config
                  createPost_info "POST" "/posts" "Create a new post"
                  eq_refl eq_refl eq_refl eq_refl)).
Defined.

(* ------------------------------------------------------------------ *)
(** ** When the annotation text raises *)

Lemma joinElement_truthy (toStringOther : value -> result string)
      (v : value) :
  truthy v = true ->
  RouteAnnotationProvider.joinElement toStringOther v
  = RouteAnnotationProvider.toStringJS toStringOther v.
Proof. destruct v; simpl; try discriminate; reflexivity. Qed.

Lemma call_toUpperCase_thrown (v : value) :
  call_toUpperCase v = Thrown <-> forall s, v <> VStr s.
Proof.
  destruct v; simpl; split; try discriminate; try reflexivity;
    try (intros _ s0; discriminate).
  intros H. exfalso. apply (H s). reflexivity.
Qed.

(** X17. [formatAnnotationText] raises in exactly three situations, each
    on a part that is shown and truthy: the method is not a string (it has
    no [toUpperCase]), or the conversion of the summary or of the full path
    to text raises.  The path and the prefix never make it raise. *)
Theorem formatAnnotationText_thrown_iff
        (toStringOther : value -> result string)
        (config : RouteAnnotationProvider.AnnotationConfig)
        (routeInfo : RouteInfo.t) :
  RouteAnnotationProvider.formatAnnotationText toStringOther config routeInfo
  = Thrown
  <-> (RouteAnnotationProvider.showHttpMethod config = true
       /\ truthy (RouteInfo.method routeInfo) = true
       /\ forall s, RouteInfo.method routeInfo <> VStr s)
      \/ (RouteAnnotationProvider.showPath config = true
          /\ truthy (RouteInfo.fullPath routeInfo) = true
          /\ RouteAnnotationProvider.toStringJS toStringOther
               (RouteInfo.fullPath routeInfo) = Thrown)
      \/ (RouteAnnotationProvider.showSummary config = true
          /\ truthy (RouteInfo.summary routeInfo) = true
          /\ RouteAnnotationProvider.toStringJS toStringOther
               (RouteInfo.summary routeInfo) = Thrown).
Proof.
  rewrite <- call_toUpperCase_thrown.
  unfold RouteAnnotationProvider.formatAnnotationText.
  pose proof (@joinElement_truthy toStringOther
                (RouteInfo.fullPath routeInfo)) as Hjoin.
  destruct (RouteAnnotationProvider.showHttpMethod config),
    (RouteAnnotationProvider.showPath config),
    (RouteAnnotationProvider.showSummary config),
    (truthy (RouteInfo.method routeInfo)),
    (truthy (RouteInfo.fullPath routeInfo)),
    (truthy (RouteInfo.summary routeInfo)),
    (RouteInfo.method routeInfo),
    (RouteAnnotationProvider.toStringJS toStringOther
       (RouteInfo.summary routeInfo)) as [summary|];
    cbn [andb bind app List.length Nat.eqb call_toUpperCase
         RouteAnnotationProvider.join
         RouteAnnotationProvider.joinElement
         RouteAnnotationProvider.toStringJS];
    try rewrite (Hjoin eq_refl);
    destruct (RouteAnnotationProvider.toStringJS toStringOther
                (RouteInfo.fullPath routeInfo)) as [full|];
    cbn [bind];
    (split;
     [ intros H; try discriminate H; tauto
     | intros [(H1 & H2 & H3)|[(H1 & H2 & H3)|(H1 & H2 & H3)]];
       try discriminate; reflexivity ]).
Qed.

(* ------------------------------------------------------------------ *)
(** ** The decorations of a file *)

Lemma createDecorations_thrown
      (toStringOther : value -> result string)
      (lineLength : nat -> result nat)
      (config : RouteAnnotationProvider.AnnotationConfig)
      (decorator : AstParser.HandlerDecoratorInfo) (routeInfo : RouteInfo.t)
      (laterDecorators : list AstParser.HandlerDecoratorInfo)
      (laterResults : list RouteAnnotationProvider.settled)
      (earlierDecorators : list AstParser.HandlerDecoratorInfo) :
  RouteAnnotationProvider.formatAnnotationText toStringOther config routeInfo
  = Thrown ->
  forall (earlierResults : list RouteAnnotationProvider.settled)
         (decorations : list RouteAnnotationProvider.DecorationOptions),
    List.length earlierDecorators = List.length earlierResults ->
    RouteAnnotationProvider.createDecorations toStringOther lineLength config
      (earlierDecorators ++ decorator :: laterDecorators)
      (earlierResults
       ++ RouteAnnotationProvider.Fulfilled (Some routeInfo) :: laterResults)
      decorations
    = Thrown.
Proof.
  intros Hthrown.
  induction earlierDecorators as [|d ds IH];
    intros [|r rs] decorations Hlen; try discriminate Hlen.
  - simpl. rewrite Hthrown. reflexivity.
  - injection Hlen as Hlen.
    cbn [app RouteAnnotationProvider.createDecorations].
    destruct r as [[info|]|]; try (apply IH; assumption).
    destruct (RouteAnnotationProvider.formatAnnotationText toStringOther
                config info) as [text|]; [|reflexivity].
    cbn [bind]. destruct (Str.isEmpty text); [apply IH; assumption|].
    destruct (lineLength (AstParser.line_ d)); [|reflexivity].
    cbn [bind]. apply IH. assumption.
Qed.

Lemma isEmpty_false_neq (s : string) : Str.isEmpty s = false -> s <> "".
Proof. destruct s; [discriminate|]. intros _. discriminate. Qed.

Lemma decoration_from_cons
      (toStringOther : value -> result string)
      (lineLength : nat -> result nat)
      (config : RouteAnnotationProvider.AnnotationConfig)
      (source : AstParser.HandlerDecoratorInfo
                * RouteAnnotationProvider.settled)
      (sources : list (AstParser.HandlerDecoratorInfo
                       * RouteAnnotationProvider.settled))
      (added : list RouteAnnotationProvider.DecorationOptions) :
  Forall (decoration_from toStringOther lineLength config sources) added ->
  Forall (decoration_from toStringOther lineLength config (source :: sources))
         added.
Proof.
  apply Forall_impl.
  intros decoration (d & info & len & Hin & Hrest).
  exists d, info, len. split; [right; exact Hin|exact Hrest].
Qed.

Lemma createDecorations_ok
      (toStringOther : value -> result string)
      (lineLength : nat -> result nat)
      (config : RouteAnnotationProvider.AnnotationConfig)
      (decorators : list AstParser.HandlerDecoratorInfo) :
  forall (annotationResults : list RouteAnnotationProvider.settled)
         (decorations out : list RouteAnnotationProvider.DecorationOptions),
    RouteAnnotationProvider.createDecorations toStringOther lineLength config
      decorators annotationResults decorations = Ok out ->
    exists added,
      out = decorations ++ added
      /\ (List.length added <= List.length decorators)%nat
      /\ Forall (decoration_from toStringOther lineLength config
                   (List.combine decorators annotationResults))
                added.
Proof.
  induction decorators as [|d ds IH]; intros rs decorations out H.
  - simpl in H. injection H as <-. exists []. rewrite app_nil_r.
    repeat split; [simpl; lia|constructor].
  - destruct rs as [|r rs]; [discriminate H|].
    cbn [RouteAnnotationProvider.createDecorations] in H.
    assert (Hskip :
              RouteAnnotationProvider.createDecorations toStringOther
                lineLength config ds rs decorations = Ok out ->
              exists added,
                out = decorations ++ added
                /\ (List.length added <= S (List.length ds))%nat
                /\ Forall (decoration_from toStringOther lineLength config
                             (List.combine (d :: ds) (r :: rs)))
                          added).
    { intros H'. destruct (IH _ _ _ H') as (added & Hout & Hlen & Hall).
      exists added. repeat split; [assumption|lia|].
      apply decoration_from_cons. exact Hall. }
    destruct r as [[info|]|]; try (apply Hskip; exact H).
    destruct (RouteAnnotationProvider.formatAnnotationText toStringOther
                config info) as [text|] eqn:Htext; [|discriminate H].
    cbn [bind] in H.
    destruct (Str.isEmpty text) eqn:Hempty; [apply Hskip; exact H|].
    destruct (lineLength (AstParser.line_ d)) as [len|] eqn:Hline;
      [|discriminate H].
    cbn [bind] in H.
    destruct (IH _ _ _ H) as (added & Hout & Hlen & Hall).
    rewrite <- app_assoc in Hout.
    eexists. split; [exact Hout|]. split; [simpl; lia|].
    constructor;
      [|apply (@decoration_from_cons toStringOther lineLength config
                 (d, RouteAnnotationProvider.Fulfilled (Some info)));
        exact Hall].
    exists d, info, len. simpl.
    repeat split; try assumption; try reflexivity.
    + left. reflexivity.
    + apply isEmpty_false_neq. assumption.
Qed.

(** X18. [createDecorations] is all or nothing.  When the text of one
    resolved route raises, the call raises whatever the other decorators of
    the file resolve to, those before it included: no decoration is
    returned for the file.  When it returns, it has added to the
    decorations, at most one per decorator, only decorations of decorators
    whose route was resolved: each carries the non-empty text of that route
    and an empty range at the end of the decorator's line. *)
Theorem createDecorations_all_or_nothing
        (toStringOther : value -> result string)
        (lineLength : nat -> result nat)
        (config : RouteAnnotationProvider.AnnotationConfig) :
  (forall earlierDecorators earlierResults decorator routeInfo
          laterDecorators laterResults decorations,
      List.length earlierDecorators = List.length earlierResults ->
      RouteAnnotationProvider.formatAnnotationText toStringOther config
        routeInfo = Thrown ->
      RouteAnnotationProvider.createDecorations toStringOther lineLength
        config
        (earlierDecorators ++ decorator :: laterDecorators)
        (earlierResults
         ++ RouteAnnotationProvider.Fulfilled (Some routeInfo)
         :: laterResults)
        decorations
      = Thrown)
  /\ (forall decorators annotationResults decorations out,
         RouteAnnotationProvider.createDecorations toStringOther lineLength
           config decorators annotationResults decorations = Ok out ->
         exists added,
           out = decorations ++ added
           /\ (List.length added <= List.length decorators)%nat
           /\ Forall (decoration_from toStringOther lineLength config
                        (List.combine decorators annotationResults))
                     added).
Proof.
  split.
  - intros earlierDecorators earlierResults decorator routeInfo
           laterDecorators laterResults decorations Hlen Hthrown.
    apply createDecorations_thrown; assumption.
  - intros decorators annotationResults decorations out.
    apply createDecorations_ok.
Qed.

(** X18 on a file with two handlers, the second for the route of
    [{ health: { method: true, path: '/health' } }]: the record
    [extractRouteInfo] returns for it has the boolean as method, its text
    raises, and the file gets no decoration, although the first route has
    one. *)
Lemma createDecorations_all_or_nothing_witness :
  extractRouteInfo (extractExports boolean_method_contract) ["health"]
                   default_import
  = Some boolean_method_info
  /\ RouteAnnotationProvider.createDecorations to_text lines_of_twenty
       default_config
       [handler_at 3 "createPost"; handler_at 9 "health"]
       [RouteAnnotationProvider.Fulfilled (Some createPost_info);
        RouteAnnotationProvider.Fulfilled (Some boolean_method_info)]
       []
     = Thrown.
Proof.
  split; [reflexivity|].
  exact (proj1 (createDecorations_all_or_nothing to_text lines_of_twenty
                  default_config)
               [handler_at 3 "createPost"]
               [RouteAnnotationProvider.Fulfilled (Some createPost_info)]
               (handler_at 9 "health") boolean_method_info [] [] []
               eq_refl eq_refl).
Defined.

(* ------------------------------------------------------------------ *)
(** ** The result cache of the annotation provider *)

Lemma omap_get_fold_delete (A : Type) (k : string) (ks : list string) :
  forall m : OrderedMap.t A,
    OrderedMap.get k
      (fold_left (fun cache key => OrderedMap.delete key cache) ks m)
    = if mem_string k ks then None else OrderedMap.get k m.
Proof.
  induction ks as [|k' ks IH]; intros m; simpl; [reflexivity|].
  rewrite IH. case_eqb k k'; simpl.
  - rewrite omap_get_delete_same. destruct (mem_string k' ks); reflexivity.
  - rewrite omap_get_delete_other by assumption. reflexivity.
Qed.

Lemma invalidateCache_get (filePath key : string)
      (state : RouteAnnotationProvider.caches) :
  OrderedMap.get key
    (fst (RouteAnnotationProvider.invalidateCache filePath state))
  = if Str.startsWith key (String.append filePath ":") then None
    else OrderedMap.get key (fst state).
Proof.
  unfold RouteAnnotationProvider.invalidateCache. cbn [fst].
  rewrite omap_get_fold_delete.
  destruct (mem_string key _) eqn:Hmem.
  - apply mem_string_In in Hmem. apply filter_In in Hmem.
    destruct Hmem as [_ ->]. reflexivity.
  - destruct (Str.startsWith key (String.append filePath ":")) eqn:Hstart;
      [|reflexivity].
    destruct (OrderedMap.get key (fst state)) eqn:Hget; [|reflexivity].
    exfalso.
    assert (Hin : In key (OrderedMap.keys (fst state))).
    { destruct (in_dec string_dec key (OrderedMap.keys (fst state)))
        as [Hin|Hnin]; [exact Hin|].
      apply omap_get_none_iff in Hnin. congruence. }
    assert (Hmem' : mem_string key
                      (List.filter
                         (fun key0 =>
                            Str.startsWith key0 (String.append filePath ":"))
                         (OrderedMap.keys (fst state))) = true).
    { apply mem_string_In. apply filter_In. split; assumption. }
    congruence.
Qed.

Lemma startsWith_own_key (filePath rest : string) :
  Str.startsWith (String.append filePath (String.append ":" rest))
                 (String.append filePath ":") = true.
Proof.
  induction filePath as [|c r IH]; simpl; [reflexivity|].
  rewrite Ascii.eqb_refl. exact IH.
Qed.

Lemma startsWith_other_key (filePath : string) :
  forall currentFilePath rest,
    Str.startsWith
      (String.append currentFilePath (String.append ":" rest))
      (String.append filePath ":") = true ->
    currentFilePath = filePath
    \/ Str.startsWith currentFilePath (String.append filePath ":") = true
    \/ Str.startsWith filePath (String.append currentFilePath ":") = true.
Proof.
  induction filePath as [|a fp IH]; intros [|c cur] rest H; simpl in H |- *.
  - left. reflexivity.
  - right. left. exact H.
  - right. right. apply andb_true_iff in H. destruct H as [H _].
    apply Ascii.eqb_eq in H. subst a. reflexivity.
  - apply andb_true_iff in H. destruct H as [Hc H].
    apply Ascii.eqb_eq in Hc. subst c. rewrite Ascii.eqb_refl. simpl.
    destruct (IH _ _ H) as [->|[H'|H']]; tauto.
Qed.

(** X19. What [resolveRouteInfo] leaves in the result cache.  Entries
    under other keys are never touched; a failed resolution ([null]) stores
    nothing; a route that is returned is afterwards the cache entry of the
    decorator's key, and for five minutes from the entry's timestamp every
    further resolution of that decorator returns the same route and counts
    one cache hit, without changing a cache, whatever has become of the
    import table, the files and their modification times. *)
Theorem resolveRouteInfo_served_from_cache
        (dirname : string -> string)
        (resolve join : string -> string -> string)
        (stat_ok : string -> bool) (stat_mtime : string -> option nat)
        (openSourceFile : string -> option node)
        (now parsedAt storedAt : nat)
        (state : RouteAnnotationProvider.caches)
        (metrics : RouteAnnotationProvider.PerformanceMetrics)
        (decorator : AstParser.HandlerDecoratorInfo)
        (imports : AstImports.imports) (currentFilePath : string)
        (outcome : option RouteInfo.t)
        (after : RouteAnnotationProvider.caches)
        (counted : RouteAnnotationProvider.PerformanceMetrics) :
  RouteAnnotationProvider.resolveRouteInfo dirname resolve join stat_ok
    stat_mtime openSourceFile now parsedAt storedAt state metrics decorator
    imports currentFilePath = (outcome, after, counted) ->
  (forall key,
      key <> RouteAnnotationProvider.cacheKey currentFilePath decorator ->
      OrderedMap.get key (fst after) = OrderedMap.get key (fst state))
  /\ (outcome = None -> fst after = fst state)
  /\ (forall info,
         outcome = Some info ->
         exists entry,
           OrderedMap.get
             (RouteAnnotationProvider.cacheKey currentFilePath decorator)
             (fst after) = Some entry
           /\ RouteAnnotationProvider.routeInfo entry = info
           /\ forall dirname' resolve' join' stat_ok' stat_mtime'
                     openSourceFile' later parsedAt' storedAt' metrics'
                     imports',
               (later - RouteAnnotationProvider.timestamp entry
                < RouteAnnotationProvider.CACHE_TTL)%nat ->
               RouteAnnotationProvider.resolveRouteInfo dirname' resolve'
                 join' stat_ok' stat_mtime' openSourceFile' later parsedAt'
                 storedAt' after metrics' decorator imports' currentFilePath
               = (Some info, after,
                  {| RouteAnnotationProvider.cacheHits :=
                       RouteAnnotationProvider.cacheHits metrics' + 1;
                     RouteAnnotationProvider.cacheMisses :=
                       RouteAnnotationProvider.cacheMisses metrics' |})).
Proof.
  intros H.
  assert (Hserved :
            forall entry,
              OrderedMap.get
                (RouteAnnotationProvider.cacheKey currentFilePath decorator)
                (fst after) = Some entry ->
              forall dirname' resolve' join' stat_ok' stat_mtime'
                     openSourceFile' later parsedAt' storedAt' metrics'
                     imports',
                (later - RouteAnnotationProvider.timestamp entry
                 < RouteAnnotationProvider.CACHE_TTL)%nat ->
                RouteAnnotationProvider.resolveRouteInfo dirname' resolve'
                  join' stat_ok' stat_mtime' openSourceFile' later parsedAt'
                  storedAt' after metrics' decorator imports' currentFilePath
                = (Some (RouteAnnotationProvider.routeInfo entry), after,
                   {| RouteAnnotationProvider.cacheHits :=
                        RouteAnnotationProvider.cacheHits metrics' + 1;
                      RouteAnnotationProvider.cacheMisses :=
                        RouteAnnotationProvider.cacheMisses metrics' |})).
  { intros entry Hentry dirname' resolve' join' stat_ok' stat_mtime'
           openSourceFile' later parsedAt' storedAt' metrics' imports' Hlt.
    unfold RouteAnnotationProvider.resolveRouteInfo. rewrite Hentry.
    apply Nat.ltb_lt in Hlt. rewrite Hlt. reflexivity. }
  assert (Hmiss :
            forall uncached,
              RouteAnnotationProvider.resolveUncached dirname resolve join
                stat_ok stat_mtime openSourceFile parsedAt storedAt state
                decorator imports currentFilePath = uncached ->
              uncached = (outcome, after) ->
              (forall key,
                  key <> RouteAnnotationProvider.cacheKey currentFilePath
                           decorator ->
                  OrderedMap.get key (fst after)
                  = OrderedMap.get key (fst state))
              /\ (outcome = None -> fst after = fst state)
              /\ (forall info,
                     outcome = Some info ->
                     exists entry,
                       OrderedMap.get
                         (RouteAnnotationProvider.cacheKey currentFilePath
                            decorator)
                         (fst after) = Some entry
                       /\ RouteAnnotationProvider.routeInfo entry = info)).
  { intros uncached Huncached ->.
    apply resolveUncached_cache in Huncached.
    destruct outcome as [info|].
    - rewrite Huncached. split; [|split].
      + intros key Hkey. apply omap_get_set_other. exact Hkey.
      + discriminate.
      + intros info' [= <-]. eexists. split; [apply omap_get_set_same|].
        reflexivity.
    - rewrite Huncached. split; [|split]; [reflexivity|reflexivity|].
      discriminate. }
  assert (Hcases :
            (forall key,
                key <> RouteAnnotationProvider.cacheKey currentFilePath
                         decorator ->
                OrderedMap.get key (fst after)
                = OrderedMap.get key (fst state))
            /\ (outcome = None -> fst after = fst state)
            /\ (forall info,
                   outcome = Some info ->
                   exists entry,
                     OrderedMap.get
                       (RouteAnnotationProvider.cacheKey currentFilePath
                          decorator)
                       (fst after) = Some entry
                     /\ RouteAnnotationProvider.routeInfo entry = info)).
  { unfold RouteAnnotationProvider.resolveRouteInfo in H.
    destruct (OrderedMap.get
                (RouteAnnotationProvider.cacheKey currentFilePath decorator)
                (fst state)) as [cached|] eqn:Hcached.
    - destruct (_ <? _)%nat.
      + injection H as <- <- <-. split; [|split].
        * reflexivity.
        * discriminate.
        * intros info [= <-]. exists cached. split; [exact Hcached|].
          reflexivity.
      + injection H as H _. eapply Hmiss; [reflexivity|].
        rewrite H. reflexivity.
    - injection H as H _. eapply Hmiss; [reflexivity|].
      rewrite H. reflexivity. }
  destruct Hcases as (Hother & Hnone & Hsome).
  split; [exact Hother|]. split; [exact Hnone|].
  intros info Hinfo. destruct (Hsome info Hinfo) as (entry & Hentry & <-).
  exists entry. split; [exact Hentry|]. split; [reflexivity|].
  apply Hserved. exact Hentry.
Qed.

(** X19 on the worked example: [createPost] resolved once from the index
    file is still returned ten units later in a workspace that has lost all
    its files, to a document that no longer imports anything. *)
Lemma resolveRouteInfo_served_from_cache_witness :
  RouteAnnotationProvider.resolveRouteInfo PosixPath.dirname
    PosixPath.resolve PosixPath.join no_file modified_at_eleven open_nothing
    30 31 32 resolved_once no_metrics (handler_at 3 "createPost") []
    "/ws/src/posts.controller.ts"
  = (Some createPost_route, resolved_once,
     {| RouteAnnotationProvider.cacheHits := 1;
        RouteAnnotationProvider.cacheMisses := 0 |}).
Proof.
  destruct (proj2 (proj2
                     (@resolveRouteInfo_served_from_cache
                        PosixPath.dirname PosixPath.resolve PosixPath.join
                        only_index modified_at_five open_verb 9 10 20
                        ([], []) no_metrics (handler_at 3 "createPost")
                        import_c "/ws/src/posts.controller.ts"
                        (Some createPost_route) resolved_once
                        {| RouteAnnotationProvider.cacheHits := 0;
                           RouteAnnotationProvider.cacheMisses := 1 |}
                        ltac:(vm_compute; reflexivity)))
                  createPost_route eq_refl)
    as (entry & Hentry & _ & Hserved).
  vm_compute in Hentry. injection Hentry as <-.
  apply (Hserved PosixPath.dirname PosixPath.resolve PosixPath.join no_file
                 modified_at_eleven open_nothing 30 31 32 no_metrics []).
  unfold RouteAnnotationProvider.CACHE_TTL. lia.
Defined.

(** X20. [invalidateCache] of the provider, called when a file is saved or
    deleted, drops from the result cache the entries of the decorators of
    that file, and only those: the entry of a decorator of another file
    (neither path being the other followed by a colon) stays.  So after a
    contract file is saved, the routes cached for the files importing it
    are still served, unchanged, until their entries are five minutes
    old. *)
Theorem invalidateCache_keeps_importers
        (filePath currentFilePath : string)
        (state : RouteAnnotationProvider.caches)
        (decorator : AstParser.HandlerDecoratorInfo) :
  OrderedMap.get (RouteAnnotationProvider.cacheKey filePath decorator)
    (fst (RouteAnnotationProvider.invalidateCache filePath state))
  = None
  /\ (currentFilePath <> filePath ->
      Str.startsWith currentFilePath (String.append filePath ":") = false ->
      Str.startsWith filePath (String.append currentFilePath ":") = false ->
      OrderedMap.get
        (RouteAnnotationProvider.cacheKey currentFilePath decorator)
        (fst (RouteAnnotationProvider.invalidateCache filePath state))
      = OrderedMap.get
          (RouteAnnotationProvider.cacheKey currentFilePath decorator)
          (fst state)
      /\ forall entry,
          OrderedMap.get
            (RouteAnnotationProvider.cacheKey currentFilePath decorator)
            (fst state) = Some entry ->
          forall dirname resolve join stat_ok stat_mtime openSourceFile
                 later parsedAt storedAt metrics imports,
            (later - RouteAnnotationProvider.timestamp entry
             < RouteAnnotationProvider.CACHE_TTL)%nat ->
            RouteAnnotationProvider.resolveRouteInfo dirname resolve join
              stat_ok stat_mtime openSourceFile later parsedAt storedAt
              (RouteAnnotationProvider.invalidateCache filePath state)
              metrics decorator imports currentFilePath
            = (Some (RouteAnnotationProvider.routeInfo entry),
               RouteAnnotationProvider.invalidateCache filePath state,
               {| RouteAnnotationProvider.cacheHits :=
                    RouteAnnotationProvider.cacheHits metrics + 1;
                  RouteAnnotationProvider.cacheMisses :=
                    RouteAnnotationProvider.cacheMisses metrics |})).
Proof.
  split.
  - rewrite invalidateCache_get. unfold RouteAnnotationProvider.cacheKey.
    rewrite startsWith_own_key. reflexivity.
  - intros Hne Hcur Hfile.
    assert (Hkept :
              OrderedMap.get
                (RouteAnnotationProvider.cacheKey currentFilePath decorator)
                (fst (RouteAnnotationProvider.invalidateCache filePath state))
              = OrderedMap.get
                  (RouteAnnotationProvider.cacheKey currentFilePath decorator)
                  (fst state)).
    { rewrite invalidateCache_get.
      destruct (Str.startsWith
                  (RouteAnnotationProvider.cacheKey currentFilePath decorator)
                  (String.append filePath ":")) eqn:Hstart; [|reflexivity].
      unfold RouteAnnotationProvider.cacheKey in Hstart.
      apply startsWith_other_key in Hstart.
      destruct Hstart as [H|[H|H]]; congruence. }
    split; [exact Hkept|].
    intros entry Hentry dirname resolve join stat_ok stat_mtime
           openSourceFile later parsedAt storedAt metrics imports Hlt.
    unfold RouteAnnotationProvider.resolveRouteInfo.
    rewrite Hkept, Hentry. apply Nat.ltb_lt in Hlt. rewrite Hlt.
    reflexivity.
Qed.

(** X20 on the worked example: after the index file of the contract is
    saved with another text, the controller is still annotated with the
    route cached before. *)
Lemma invalidateCache_keeps_importers_witness :
  RouteAnnotationProvider.resolveRouteInfo PosixPath.dirname
    PosixPath.resolve PosixPath.join only_index modified_at_eleven open_bare
    30 31 32
    (RouteAnnotationProvider.invalidateCache
       "/ws/src/posts.contract/index.ts" resolved_once)
    no_metrics (handler_at 3 "createPost") import_c
    "/ws/src/posts.controller.ts"
  = (Some createPost_route,
     RouteAnnotationProvider.invalidateCache
       "/ws/src/posts.contract/index.ts" resolved_once,
     {| RouteAnnotationProvider.cacheHits := 1;
        RouteAnnotationProvider.cacheMisses := 0 |}).
Proof.
  apply (proj2 (proj2 (@invalidateCache_keeps_importers
                         "/ws/src/posts.contract/index.ts"
                         "/ws/src/posts.controller.ts" resolved_once
                         (handler_at 3 "createPost"))
                      ltac:(discriminate) eq_refl eq_refl)
               {| RouteAnnotationProvider.routeInfo := createPost_route;
                  RouteAnnotationProvider.timestamp := 20;
                  RouteAnnotationProvider.fileVersion := 1 |}
               eq_refl).
  unfold RouteAnnotationProvider.CACHE_TTL. lia.
Defined.

(* ------------------------------------------------------------------ *)
(** ** The links of the code lenses *)

Lemma replaceParams_from_slash (a b : string) :
  forall inside,
    CodeLensUrls.replaceParams_from inside
      (String.append a (String "/"%char b))
    = String.append (CodeLensUrls.replaceParams_from inside a)
        (String "/"%char (CodeLensUrls.replaceParams_from false b)).
Proof.
  induction a as [|c r IH]; intros [|]; cbn [String.append].
  - reflexivity.
  - reflexivity.
  - cbn [CodeLensUrls.replaceParams_from].
    destruct (Ascii.eqb c "/"%char); rewrite IH; reflexivity.
  - cbn [CodeLensUrls.replaceParams_from].
    destruct (Ascii.eqb c ":"%char); [|rewrite IH; reflexivity].
    destruct r as [|d r'].
    + reflexivity.
    + cbn [String.append] in IH |- *.
      destruct (Ascii.eqb d "/"%char); rewrite IH; reflexivity.
Qed.

Lemma replaceParams_from_inside (name : string) :
  without "/"%char name = true ->
  CodeLensUrls.replaceParams_from true name = String.append name "}".
Proof.
  induction name as [|c r IH]; simpl; [reflexivity|].
  intros H. apply andb_true_iff in H. destruct H as [Hc Hr].
  apply negb_true_iff in Hc. rewrite Hc, (IH Hr). reflexivity.
Qed.

Lemma replaceParams_without_colon (s : string) :
  without ":"%char s = true -> CodeLensUrls.replaceParams s = s.
Proof.
  unfold CodeLensUrls.replaceParams.
  induction s as [|c r IH]; simpl; [reflexivity|].
  intros H. apply andb_true_iff in H. destruct H as [Hc Hr].
  apply negb_true_iff in Hc. rewrite Hc, (IH Hr). reflexivity.
Qed.

(** X21. The conversion of path parameters, [:name] to [{name}], works
    segment by segment: converting a path is converting each of its
    segments between slashes; a segment that is a colon followed by a
    non-empty name becomes the name in braces; a segment without a colon is
    left as it is, as is a colon alone. *)
Theorem replaceParams_segments :
  (forall segments,
      CodeLensUrls.replaceParams (String.concat "/" segments)
      = String.concat "/" (List.map CodeLensUrls.replaceParams segments))
  /\ (forall name,
         name <> "" -> without "/"%char name = true ->
         CodeLensUrls.replaceParams (String ":"%char name)
         = String "{"%char (String.append name "}"))
  /\ (forall segment,
         without ":"%char segment = true ->
         CodeLensUrls.replaceParams segment = segment)
  /\ CodeLensUrls.replaceParams ":" = ":".
Proof.
  split; [|split; [|split]].
  - induction segments as [|a [|b r] IH]; try reflexivity.
    change (String.concat "/" (a :: b :: r))
      with (String.append a (String "/"%char (String.concat "/" (b :: r)))).
    unfold CodeLensUrls.replaceParams at 1.
    rewrite replaceParams_from_slash.
    change (CodeLensUrls.replaceParams_from false
              (String.concat "/" (b :: r)))
      with (CodeLensUrls.replaceParams (String.concat "/" (b :: r))).
    rewrite IH. reflexivity.
  - intros name Hne Hslash. destruct name as [|d r]; [congruence|].
    unfold CodeLensUrls.replaceParams.
    change (CodeLensUrls.replaceParams_from false
              (String ":"%char (String d r)))
      with (if Ascii.eqb d "/"%char
            then String ":"%char
                   (CodeLensUrls.replaceParams_from false (String d r))
            else String "{"%char
                   (CodeLensUrls.replaceParams_from true (String d r))).
    pose proof Hslash as Hd. simpl in Hd.
    apply andb_true_iff in Hd. destruct Hd as [Hd _].
    apply negb_true_iff in Hd.
    rewrite Hd. rewrite (replaceParams_from_inside _ Hslash). reflexivity.
  - apply replaceParams_without_colon.
  - reflexivity.
Qed.

(** X21 on the segment [:postId]. *)
Lemma replaceParams_segments_witness :
  CodeLensUrls.replaceParams ":postId" = "{postId}".
Proof.
  apply (proj1 (proj2 replaceParams_segments) "postId");
    [discriminate|reflexivity].
Defined.

Lemma append_assoc (a b c : string) :
  String.append (String.append a b) c = String.append a (String.append b c).
Proof. induction a as [|x a IH]; simpl; [reflexivity|]. rewrite IH. reflexivity. Qed.

Lemma truthy_string (v : value) (s : string) :
  v = VStr s -> truthy v = negb (Str.isEmpty s).
Proof. intros ->. reflexivity. Qed.

Lemma buildTestUrl_inv (appHost openApiTag : option string)
      (routeInfo : RouteInfo.t) :
  CodeLensUrls.buildTestUrl appHost routeInfo openApiTag <> None ->
  exists host tag m f p,
    appHost = Some host /\ host <> ""
    /\ openApiTag = Some tag /\ tag <> ""
    /\ RouteInfo.method routeInfo = VStr m /\ m <> ""
    /\ RouteInfo.fullPath routeInfo = VStr f /\ f <> ""
    /\ RouteInfo.path routeInfo = VStr p.
Proof.
  unfold CodeLensUrls.buildTestUrl.
  destruct appHost as [host|]; [|congruence].
  destruct openApiTag as [tag|]; [|congruence].
  destruct (Str.isEmpty host) eqn:Hhost; [cbn [orb]; congruence|].
  destruct (Str.isEmpty tag) eqn:Htag; [cbn [orb]; congruence|].
  destruct (RouteInfo.method routeInfo) as [| | | | m | | |] eqn:Hm;
    cbn [orb negb truthy CodeLensUrls.call_toLowerCase bind catch_null];
    try congruence;
    try (destruct (_ || _); congruence);
    try (destruct (negb _); congruence).
  destruct (Str.isEmpty m) eqn:Hmne; [cbn [orb negb]; congruence|].
  destruct (RouteInfo.fullPath routeInfo) as [| | | | f | | |] eqn:Hf;
    cbn [orb negb truthy CodeLensUrls.call_replaceParams bind catch_null];
    try congruence; try (destruct (negb _); congruence).
  destruct (Str.isEmpty f) eqn:Hfne; [cbn [orb negb]; congruence|].
  destruct (RouteInfo.path routeInfo) as [| | | | p | | |] eqn:Hp;
    cbn [orb negb CodeLensUrls.call_endsWithSlash bind catch_null];
    try congruence.
  intros _. exists host, tag, m, f, p.
  repeat split; try reflexivity; apply isEmpty_false_neq; assumption.
Qed.

(** X22. [buildTestUrl] returns a link exactly when the host and the tag
    are non-empty texts, the method and the full path of the route are
    non-empty strings and its path is a string; every other route (a method
    or path that is not a string included) gives [null], never an
    exception.  For a method of ASCII characters the link is the host
    without one trailing slash, then [/api-docs#tag/], the tag, a slash,
    the lowercased method, the full path with its parameters in braces, and
    a slash more when the path of the route ends with one. *)
Theorem buildTestUrl_link (appHost openApiTag : option string)
        (routeInfo : RouteInfo.t) :
  (forall host tag m f p,
      appHost = Some host -> host <> "" ->
      openApiTag = Some tag -> tag <> "" ->
      RouteInfo.method routeInfo = VStr m -> m <> "" ->
      Str.ascii_only m = true ->
      RouteInfo.fullPath routeInfo = VStr f -> f <> "" ->
      RouteInfo.path routeInfo = VStr p ->
      CodeLensUrls.buildTestUrl appHost routeInfo openApiTag
      = Some (String.append (CodeLensUrls.cleanHost host)
                (String.append "/api-docs#tag/"
                   (String.append tag
                      (String.append "/"
                         (String.append (Str.toLowerCase m)
                            (String.append (CodeLensUrls.replaceParams f)
                               (if Str.endsWithChar p "/"%char
                                then "/" else ""))))))))
  /\ (CodeLensUrls.buildTestUrl appHost routeInfo openApiTag <> None ->
      exists host tag m f p,
        appHost = Some host /\ host <> ""
        /\ openApiTag = Some tag /\ tag <> ""
        /\ RouteInfo.method routeInfo = VStr m /\ m <> ""
        /\ RouteInfo.fullPath routeInfo = VStr f /\ f <> ""
        /\ RouteInfo.path routeInfo = VStr p).
Proof.
  split.
  - intros host tag m f p -> Hhost -> Htag Hm Hmne _ Hf Hfne Hp.
    unfold CodeLensUrls.buildTestUrl.
    rewrite (truthy_string Hm), (truthy_string Hf), Hm, Hf, Hp.
    rewrite (isEmpty_false Hhost), (isEmpty_false Htag),
      (isEmpty_false Hmne), (isEmpty_false Hfne).
    cbn [negb orb CodeLensUrls.call_toLowerCase
         CodeLensUrls.call_replaceParams CodeLensUrls.call_endsWithSlash
         bind catch_null].
    rewrite append_assoc. reflexivity.
  - apply buildTestUrl_inv.
Qed.

(** X22 on [POST /posts/:id] with the tag [posts]. *)
Lemma buildTestUrl_link_witness :
  CodeLensUrls.buildTestUrl (Some "http://localhost:3000/")
    {| RouteInfo.method := VStr "POST";
       RouteInfo.path := VStr "/:id";
       RouteInfo.summary := VUndefined;
       RouteInfo.fullPath := VStr "/posts/:id" |}
    (Some "posts")
  = Some "http://localhost:3000/api-docs#tag/posts/post/posts/{id}".
Proof.
  apply (proj1 (@buildTestUrl_link (Some "http://localhost:3000/")
                  (Some "posts")
                  {| RouteInfo.method := VStr "POST";
                     RouteInfo.path := VStr "/:id";
                     RouteInfo.summary := VUndefined;
                     RouteInfo.fullPath := VStr "/posts/:id" |})
               "http://localhost:3000/" "posts" "POST" "/posts/:id" "/:id");
    try reflexivity; discriminate.
Defined.

Lemma endsWithChar_append (a b : string) (c : ascii) :
  b <> "" ->
  Str.endsWithChar (String.append a b) c = Str.endsWithChar b c.
Proof.
  intros Hb. induction a as [|x a IH]; [reflexivity|].
  cbn [String.append Str.endsWithChar].
  destruct (String.append a b) eqn:E; [|exact IH].
  exfalso. revert E. apply append_nonempty_r. exact Hb.
Qed.

Lemma endsWithChar_nonempty (s : string) (c : ascii) :
  Str.endsWithChar s c = true -> s <> "".
Proof. destruct s; [discriminate|]. intros _. discriminate. Qed.

Lemma combinePaths_strings (pathPrefix routePath : string) :
  combinePaths (VStr pathPrefix) (VStr routePath)
  = Ok (VStr (composed_path pathPrefix routePath)).
Proof.
  unfold combinePaths, composed_path, ensure_leading_slash, jor.
  cbn [truthy].
  destruct (Str.isEmpty pathPrefix); cbn [negb].
  - destruct (Str.isEmpty routePath); reflexivity.
  - destruct (Str.isEmpty routePath); cbn [negb orb]; [reflexivity|].
    destruct (String.eqb routePath "/"); reflexivity.
Qed.

Lemma composed_path_slash (pathPrefix routePath : string) :
  Str.endsWithChar routePath "/"%char = true ->
  Str.endsWithChar (composed_path pathPrefix routePath) "/"%char = false
  <-> routePath = "/" /\ pathPrefix <> ""
      /\ Str.endsWithChar pathPrefix "/"%char = false.
Proof.
  intros Hends. pose proof (@endsWithChar_nonempty _ _ Hends) as Hne.
  unfold composed_path. rewrite (isEmpty_false Hne). cbn [orb].
  destruct (Str.isEmpty pathPrefix) eqn:Hprefix.
  - apply isEmpty_true in Hprefix. rewrite Hends.
    split; [discriminate|]. intros (_ & H & _). congruence.
  - apply isEmpty_false_neq in Hprefix.
    destruct (String.eqb routePath "/") eqn:E.
    + apply String.eqb_eq in E. tauto.
    + apply String.eqb_neq in E.
      assert (Hroute : Str.endsWithChar (ensure_leading_slash routePath)
                                        "/"%char = true).
      { unfold ensure_leading_slash.
        destruct (Str.startsWith routePath "/"); [exact Hends|].
        rewrite endsWithChar_append by exact Hne. exact Hends. }
      rewrite endsWithChar_append
        by (apply (@endsWithChar_nonempty _ "/"%char); exact Hroute).
      rewrite Hroute. split; [discriminate|]. intros (H & _). congruence.
Qed.

(** X23. The trailing slash of the link to an endpoint.  For a route of
    strings whose path ends with a slash, [buildApiUrl] appends a slash to
    the full path.  The full path, composed by [combinePaths] from the
    prefix and that path, ends without a slash only when the path is
    exactly [/] and the prefix is non-empty and does not end with a slash;
    in every other case the link ends with two slashes. *)
Theorem api_url_trailing_slash
        (toStringOther : value -> result string)
        (host pathPrefix routePath fullPath : string)
        (routeInfo : RouteInfo.t) :
  host <> "" ->
  RouteInfo.path routeInfo = VStr routePath ->
  RouteInfo.fullPath routeInfo = VStr fullPath ->
  combinePaths (VStr pathPrefix) (VStr routePath) = Ok (VStr fullPath) ->
  Str.endsWithChar routePath "/"%char = true ->
  CodeLensUrls.buildApiUrl toStringOther (Some host) routeInfo
  = Some (String.append (CodeLensUrls.cleanHost host)
            (String.append fullPath "/"))
  /\ (Str.endsWithChar fullPath "/"%char = false
      <-> routePath = "/" /\ pathPrefix <> ""
          /\ Str.endsWithChar pathPrefix "/"%char = false).
Proof.
  intros Hhost Hpath Hfull Hcombine Hends.
  rewrite combinePaths_strings in Hcombine.
  assert (Hcomposed : fullPath = composed_path pathPrefix routePath)
    by congruence.
  assert (Hne : fullPath <> "").
  { destruct (combinePaths_strings_nonempty pathPrefix routePath)
      as (s & Hs & Hs').
    rewrite combinePaths_strings in Hs. congruence. }
  split.
  - unfold CodeLensUrls.buildApiUrl.
    rewrite Hpath, Hfull. cbn [truthy].
    rewrite (isEmpty_false Hhost), (isEmpty_false Hne).
    cbn [negb orb CodeLensUrls.call_endsWithSlash bind catch_null
         RouteAnnotationProvider.toStringJS].
    rewrite Hends. reflexivity.
  - rewrite Hcomposed. apply composed_path_slash. exact Hends.
Qed.

(** X23 on the route [/users/] without a prefix: the link ends with two
    slashes. *)
Lemma api_url_trailing_slash_witness :
  CodeLensUrls.buildApiUrl to_text (Some "http://localhost:3000")
    users_route
  = Some "http://localhost:3000/users//".
Proof.
  exact (proj1 (@api_url_trailing_slash to_text "http://localhost:3000"
                  "" "/users/" "/users/" users_route
                  ltac:(discriminate) eq_refl eq_refl eq_refl eq_refl)).
Defined.

(* ------------------------------------------------------------------ *)
(** ** The code lenses of service files *)

Lemma forMember_fold (positionAt : nat -> AstParser.Position)
      (className : string) (members : list ReplCodeLensProvider.node) :
  forall codeLenses,
    fold_left (ReplCodeLensProvider.forMember positionAt className) members
              codeLenses
    = codeLenses
      ++ lenses_at positionAt
           (ReplCodeLensProvider.NClassDeclaration (Some className) []
              members).
Proof.
  unfold lenses_at.
  induction members as [|m r IH]; intros codeLenses; simpl;
    [rewrite app_nil_r; reflexivity|].
  rewrite IH. unfold ReplCodeLensProvider.forMember, instance_method.
  destruct m as [? ? ?|modifiers [methodName start|] children|?];
    try reflexivity.
  destruct (negb (String.eqb methodName "constructor")
            && negb (List.existsb ReplCodeLensProvider.isStatic modifiers));
    [|reflexivity].
  rewrite <- app_assoc. reflexivity.
Qed.

Lemma visit_preorder (positionAt : nat -> AstParser.Position)
      (n : ReplCodeLensProvider.node) :
  forall codeLenses,
    ReplCodeLensProvider.visit positionAt n codeLenses
    = codeLenses ++ List.flat_map (lenses_at positionAt) (preorder n).
Proof.
  revert n. fix visit_preorder 1. intros n.
  assert (Hbelow :
            forall children codeLenses,
              (fix each (ns : list ReplCodeLensProvider.node)
                   (codeLenses : list ReplCodeLensProvider.CodeLens) :=
                 match ns with
                 | [] => codeLenses
                 | c :: r =>
                     each r (ReplCodeLensProvider.visit positionAt c
                               codeLenses)
                 end) children codeLenses
              = codeLenses
                ++ List.flat_map (lenses_at positionAt)
                     ((fix each (ns : list ReplCodeLensProvider.node) :=
                         match ns with
                         | [] => []
                         | c :: r => preorder c ++ each r
                         end) children)).
  { induction children as [|c r IH]; intros codeLenses.
    - simpl. rewrite app_nil_r. reflexivity.
    - rewrite IH, visit_preorder, flat_map_app, app_assoc. reflexivity. }
  destruct n as [[className|] children members
                | modifiers name children | children];
    intros codeLenses.
  - cbn [ReplCodeLensProvider.visit preorder].
    rewrite !Hbelow, forMember_fold.
    cbn [List.flat_map lenses_at]. rewrite flat_map_app.
    rewrite <- !app_assoc. reflexivity.
  - cbn [ReplCodeLensProvider.visit preorder].
    rewrite !Hbelow.
    cbn [List.flat_map lenses_at app]. rewrite flat_map_app.
    rewrite <- !app_assoc. reflexivity.
  - cbn [ReplCodeLensProvider.visit preorder].
    rewrite Hbelow. reflexivity.
  - cbn [ReplCodeLensProvider.visit preorder].
    rewrite Hbelow. reflexivity.
Qed.

Lemma instance_method_some (member : ReplCodeLensProvider.node)
      (methodName : string) (start : nat) :
  instance_method member = Some (methodName, start)
  <-> exists modifiers body,
      member = ReplCodeLensProvider.NMethodDeclaration modifiers
                 (ReplCodeLensProvider.Identifier methodName start) body
      /\ methodName <> "constructor"
      /\ List.existsb ReplCodeLensProvider.isStatic modifiers = false.
Proof.
  unfold instance_method. split.
  - destruct member as [? ? ?|modifiers [text offset|] body|?];
      try discriminate.
    destruct (String.eqb text "constructor") eqn:E; [discriminate|].
    destruct (List.existsb ReplCodeLensProvider.isStatic modifiers) eqn:S;
      [discriminate|].
    intros [= <- <-]. exists modifiers, body.
    apply String.eqb_neq in E. tauto.
  - intros (modifiers & body & -> & Hname & Hstatic).
    apply String.eqb_neq in Hname. rewrite Hname, Hstatic. reflexivity.
Qed.

Lemma lenses_at_In (positionAt : nat -> AstParser.Position)
      (n : ReplCodeLensProvider.node) (lens : ReplCodeLensProvider.CodeLens) :
  In lens (lenses_at positionAt n)
  <-> exists className children members modifiers methodName start body,
      n = ReplCodeLensProvider.NClassDeclaration (Some className) children
            members
      /\ In (ReplCodeLensProvider.NMethodDeclaration modifiers
               (ReplCodeLensProvider.Identifier methodName start) body)
            members
      /\ methodName <> "constructor"
      /\ List.existsb ReplCodeLensProvider.isStatic modifiers = false
      /\ lens = ReplCodeLensProvider.runInRepl positionAt className
                  methodName start.
Proof.
  split.
  - destruct n as [[className|] children members|? ? ?|?]; simpl;
      try tauto.
    rewrite in_flat_map. intros (member & Hin & Hlens).
    destruct (instance_method member) as [[methodName start]|] eqn:Hm;
      [|destruct Hlens].
    destruct Hlens as [<-|[]].
    apply instance_method_some in Hm.
    destruct Hm as (modifiers & body & -> & Hname & Hstatic).
    exists className, children, members, modifiers, methodName, start, body.
    tauto.
  - intros (className & children & members & modifiers & methodName & start
            & body & -> & Hin & Hname & Hstatic & ->).
    simpl. rewrite in_flat_map. eexists. split; [exact Hin|].
    assert (Hm : instance_method
                   (ReplCodeLensProvider.NMethodDeclaration modifiers
                      (ReplCodeLensProvider.Identifier methodName start)
                      body)
                 = Some (methodName, start)).
    { apply instance_method_some. exists modifiers, body. tauto. }
    rewrite Hm. left. reflexivity.
Qed.

(** X24. The lenses of [ReplCodeLensProvider].  A file whose name does not
    end with [.service.ts] gets none.  Otherwise the lenses are those of
    the named class declarations of the tree, each class before everything
    nested in it, with the members of a class in their order: so the lenses
    of a class declared inside a method come after all lenses of the
    enclosing class.  A lens is returned exactly for the methods that are
    direct members of a named class declaration, have an identifier other
    than [constructor] as name and no [static] modifier; it carries the
    names of the class and of the method and sits at the start of the
    method name. *)
Theorem repl_lenses (positionAt : nat -> AstParser.Position)
        (fileName : string) (sourceFile : ReplCodeLensProvider.node) :
  (ReplCodeLensProvider.endsWith fileName ".service.ts" = false ->
   ReplCodeLensProvider.provideCodeLenses positionAt fileName sourceFile
   = [])
  /\ (ReplCodeLensProvider.endsWith fileName ".service.ts" = true ->
      ReplCodeLensProvider.provideCodeLenses positionAt fileName sourceFile
      = List.flat_map (lenses_at positionAt) (preorder sourceFile)
      /\ forall lens,
          In lens
             (ReplCodeLensProvider.provideCodeLenses positionAt fileName
                sourceFile)
          <-> exists className children members modifiers methodName start
                     body,
              In (ReplCodeLensProvider.NClassDeclaration (Some className)
                    children members)
                 (preorder sourceFile)
              /\ In (ReplCodeLensProvider.NMethodDeclaration modifiers
                       (ReplCodeLensProvider.Identifier methodName start)
                       body)
                    members
              /\ methodName <> "constructor"
              /\ List.existsb ReplCodeLensProvider.isStatic modifiers = false
              /\ lens = ReplCodeLensProvider.runInRepl positionAt className
                          methodName start).
Proof.
  unfold ReplCodeLensProvider.provideCodeLenses. split.
  - intros ->. reflexivity.
  - intros ->. cbn [negb]. rewrite visit_preorder. cbn [app].
    split; [reflexivity|].
    intros lens. rewrite in_flat_map. split.
    + intros (n & Hin & Hlens). apply lenses_at_In in Hlens.
      destruct Hlens as (className & children & members & modifiers
                         & methodName & start & body & -> & Hrest).
      exists className, children, members, modifiers, methodName, start,
        body.
      tauto.
    + intros (className & children & members & modifiers & methodName
              & start & body & Hin & Hrest).
      eexists. split; [exact Hin|]. apply lenses_at_In.
      exists className, children, members, modifiers, methodName, start,
        body.
      tauto.
Qed.

(** X24 on [user.service.ts]: the static method has no lens, and the
    lens of the method of the nested class comes last. *)
Lemma repl_lenses_witness :
  ReplCodeLensProvider.provideCodeLenses origin "/ws/src/user.service.ts"
    user_service
  = [ReplCodeLensProvider.runInRepl origin "UserService" "find" 50;
     ReplCodeLensProvider.runInRepl origin "UserService" "save" 90;
     ReplCodeLensProvider.runInRepl origin "Row" "get" 70].
Proof.
  exact (proj1 (proj2 (repl_lenses origin "/ws/src/user.service.ts"
                         user_service)
                      eq_refl)).
Defined.

(* ------------------------------------------------------------------ *)
(** ** The two links of a route *)

(** X25. Whenever [buildTestUrl] builds a link for a route, [buildApiUrl]
    builds one for it too, from the same host: a route that is offered the
    lenses of the test endpoint is always offered the lens that copies the
    endpoint link.  The converse fails for a route without a tag. *)
Theorem test_link_implies_api_link
        (toStringOther : value -> result string)
        (appHost openApiTag : option string) (routeInfo : RouteInfo.t) :
  CodeLensUrls.buildTestUrl appHost routeInfo openApiTag <> None ->
  exists host fullPath routePath,
    appHost = Some host
    /\ RouteInfo.fullPath routeInfo = VStr fullPath
    /\ RouteInfo.path routeInfo = VStr routePath
    /\ CodeLensUrls.buildApiUrl toStringOther appHost routeInfo
       = Some (String.append (CodeLensUrls.cleanHost host)
                 (String.append fullPath
                    (if Str.endsWithChar routePath "/"%char
                     then "/" else "")))
    /\ CodeLensUrls.buildTestUrl appHost routeInfo None = None.
Proof.
  intros H. apply buildTestUrl_inv in H.
  destruct H as (host & tag & m & f & p & -> & Hhost & _ & _ & _ & _
                 & Hf & Hfne & Hp).
  exists host, f, p. repeat split; try assumption.
  unfold CodeLensUrls.buildApiUrl. rewrite Hf, Hp. cbn [truthy].
  rewrite (isEmpty_false Hhost), (isEmpty_false Hfne). reflexivity.
Qed.

(** X25 on [POST /posts/:id]. *)
Lemma test_link_implies_api_link_witness :
  CodeLensUrls.buildApiUrl to_text (Some "http://localhost:3000/")
    {| RouteInfo.method := VStr "POST";
       RouteInfo.path := VStr "/:id";
       RouteInfo.summary := VUndefined;
       RouteInfo.fullPath := VStr "/posts/:id" |}
  = Some "http://localhost:3000/posts/:id".
Proof.
  destruct (@test_link_implies_api_link to_text
              (Some "http://localhost:3000/") (Some "posts")
              {| RouteInfo.method := VStr "POST";
                 RouteInfo.path := VStr "/:id";
                 RouteInfo.summary := VUndefined;
                 RouteInfo.fullPath := VStr "/posts/:id" |}
              ltac:(discriminate))
    as (host & fullPath & routePath & Hhost & Hfull & Hpath & Hurl & _).
  injection Hhost as <-. injection Hfull as <-. injection Hpath as <-.
  exact Hurl.
Defined.
